(** * facerateAI: the facial-proportion scoring engine

    A shallow embedding of the two scoring functions of the repository,
    [analyzeFace] of [src/lib/analyzeFace.ts] (four facets, module [Basic])
    and [analyzeFace] of [src/unnamed/part_000] (ten facets, module
    [Extended]), and the properties of the specification checked on them;
    then of the code around them, the overlay [drawAnalysis] of
    [src/lib/visualize.ts] (module [Visualize]) and the page and result
    card of [src/app/page.tsx] (module [Page]), with the properties that
    this code shows.

    The source computes on JavaScript numbers.  The code is embedded once,
    over an interface [JS.Number] of the operations it uses, and read at two
    instances:
    - [FloatNum]: IEEE-754 binary64, the numbers JavaScript has; every
      definition runs there ([vm_compute]);
    - [Exact]: real numbers extended with [Infinity], [-Infinity] and [NaN],
      the idealisation in which finite arithmetic does not round.

    What a score is made of is stated over every instance of the interface,
    in the operations of the code, and so holds of the binary64 program.
    [Exact] carries the ranges, the order and the thresholds of the scores,
    which rounding does not move, and the formulas of the helpers
    ([norm], [calculateSymmetry], [calculateGoldenRatioScore]) on exact
    values.  Where binary64 and exact arithmetic part, at a mean that falls
    on a half, the binary64 run is the one stated. *)

From Stdlib Require Import Reals Lra Lia ZArith QArith Bool String List Floats.
Import ListNotations.

(** ** The JavaScript runtime the code relies on *)

Module JS.

(** A thrown value: [new Error(msg)], or the [TypeError] of a property
    access on [undefined]. *)
Record exn : Type := { name : string; message : string }.

Definition Error (msg : string) : exn :=
  {| name := "Error"; message := msg |}.

Definition TypeError (msg : string) : exn :=
  {| name := "TypeError"; message := msg |}.

(** The outcome of a call: a returned value or a thrown exception. *)
Inductive completion (A : Type) : Type :=
| Return (a : A)
| Throw (e : exn).
Arguments Return {A} a.
Arguments Throw {A} e.

Definition bind {A B : Type} (c : completion A) (k : A -> completion B)
  : completion B :=
  match c with
  | Return a => k a
  | Throw e => Throw e
  end.

(** The operations on numbers the two files use. [lit] reads a decimal
    literal of the source; [lt] and [le] are [<] and [<=]. *)
Class Number (N : Type) : Type := {
  lit : Q -> N;
  add : N -> N -> N;
  sub : N -> N -> N;
  mul : N -> N -> N;
  div : N -> N -> N;
  lt : N -> N -> bool;
  le : N -> N -> bool;
  Math_abs : N -> N;
  Math_sqrt : N -> N;
  Math_round : N -> N;
  Math_max : N -> N -> N;
  Math_min : N -> N -> N
}.

(** [a > b] is [b < a]. *)
Definition gt {N : Type} `{Number N} (a b : N) : bool := lt b a.

(** [Math.pow(d, 2)], the only use of [Math.pow] in the source. *)
Definition Math_pow2 {N : Type} `{Number N} (d : N) : N := mul d d.

(** [Math.max] of three and of five arguments. *)
Definition Math_max3 {N : Type} `{Number N} (a b c : N) : N :=
  Math_max (Math_max a b) c.

Definition Math_max5 {N : Type} `{Number N} (a b c d e : N) : N :=
  Math_max (Math_max (Math_max (Math_max a b) c) d) e.

(** A point [{ x, y }]; a keypoint of the detector carries the same two
    coordinates (its other fields are never read). *)
Record Point (N : Type) : Type := { x : N; y : N }.
Arguments x {N} p.
Arguments y {N} p.

(** Modelled from the spec: the [QualityMetrics] record that the source
    imports from [./quality] (a file that is not part of the sources):
    sharpness, brightness and contrast of the analysed image. *)
Record QualityMetrics (N : Type) : Type :=
  { sharpness : N; brightness : N; contrast : N }.
Arguments sharpness {N} q.
Arguments brightness {N} q.
Arguments contrast {N} q.

(** [keypoints[idx]]: [undefined] past the end of the array. *)
Definition index {A : Type} (a : list A) (idx : nat) : option A :=
  nth_error a idx.

Definition undefined_x : exn :=
  TypeError "Cannot read properties of undefined (reading 'x')".

End JS.

Import JS.

Declare Scope js_scope.
Delimit Scope js_scope with js.
Notation "v <- c ;; k" := (bind c (fun v => k))
  (at level 61, c at next level, right associativity) : js_scope.
Infix "+" := add : js_scope.
Infix "-" := sub : js_scope.
Infix "*" := mul : js_scope.
Infix "/" := div : js_scope.
Infix "<?" := lt (at level 70, no associativity) : js_scope.
Infix "<=?" := le (at level 70, no associativity) : js_scope.
Infix ">?" := gt (at level 70, no associativity) : js_scope.

(** ** [src/lib/analyzeFace.ts]: the four-facet analysis *)

Module Basic.
Section Engine.
Context {N : Type} `{Number N}.
Local Open Scope js_scope.

Definition clamp (x a b : N) : N := Math_max a (Math_min x b).

Definition norm (x min max : N) : N :=
  clamp (((x - min) / (max - min)) * lit 100) (lit 0) (lit 100).

Definition dist (p1 p2 : Point N) : N :=
  Math_sqrt (Math_pow2 (x p1 - x p2) + Math_pow2 (y p1 - y p2)).

Record AnalysisResult : Type := {
  overall : N;
  potential : N;
  masculinity : N;
  skin_quality : N;
  jawline : N;
  cheekbones : N;
  warnings : list string
}.

(** [const getKeypoint = (idx) => ({ x: keypoints[idx].x, y: keypoints[idx].y })] *)
Definition getKeypoint (keypoints : list (Point N)) (idx : nat)
  : completion (Point N) :=
  match index keypoints idx with
  | Some k => Return {| x := x k; y := y k |}
  | None => Throw undefined_x
  end.

(** The nine named points of the block "Map landmarks". *)
Record Landmarks : Type := {
  forehead_top : Point N;
  chin_bottom : Point N;
  face_left : Point N;
  face_right : Point N;
  cheek_left : Point N;
  cheek_right : Point N;
  jaw_left : Point N;
  jaw_right : Point N;
  mouth_bottom : Point N
}.

Definition mapLandmarks (keypoints : list (Point N)) : completion Landmarks :=
  forehead_top <- getKeypoint keypoints 10 ;;
  chin_bottom <- getKeypoint keypoints 152 ;;
  face_left <- getKeypoint keypoints 234 ;;
  face_right <- getKeypoint keypoints 454 ;;
  cheek_left <- getKeypoint keypoints 123 ;;
  cheek_right <- getKeypoint keypoints 352 ;;
  jaw_left <- getKeypoint keypoints 172 ;;
  jaw_right <- getKeypoint keypoints 397 ;;
  mouth_bottom <- getKeypoint keypoints 14 ;;
  Return {| forehead_top := forehead_top; chin_bottom := chin_bottom;
            face_left := face_left; face_right := face_right;
            cheek_left := cheek_left; cheek_right := cheek_right;
            jaw_left := jaw_left; jaw_right := jaw_right;
            mouth_bottom := mouth_bottom |}.

(** The block "Potential and warnings": the mutable [photo_penalty] and
    [warnings] threaded through the three tests, in the order of the
    source. *)
Definition photo_checks (q : QualityMetrics N) : N * list string :=
  let photo_penalty := lit 0 in
  let warnings := @nil string in
  let '(photo_penalty, warnings) :=
    if sharpness q <=? lit 150
    then (photo_penalty + lit 15, warnings ++ ["low_sharpness"%string])
    else (photo_penalty, warnings) in
  let '(photo_penalty, warnings) :=
    if (brightness q <? lit 90) || (brightness q >? lit 160)
    then (photo_penalty + lit 10, warnings ++ ["bad_brightness"%string])
    else (photo_penalty, warnings) in
  let '(photo_penalty, warnings) :=
    if contrast q <=? lit 35
    then (photo_penalty + lit 10, warnings ++ ["low_contrast"%string])
    else (photo_penalty, warnings) in
  (photo_penalty, warnings).

(** Lines 71 to 141: features, formulas, the four scores, [overall],
    [potential] and the returned object. *)
Definition score (lm : Landmarks) (q : QualityMetrics N) : AnalysisResult :=
  let face_width := dist (face_left lm) (face_right lm) in
  let face_height := dist (forehead_top lm) (chin_bottom lm) in
  let jaw_width := dist (jaw_left lm) (jaw_right lm) in
  let cheek_width := dist (cheek_left lm) (cheek_right lm) in
  let chin_length := dist (mouth_bottom lm) (chin_bottom lm) in
  let jaw_ratio := jaw_width / face_width in
  let chin_ratio := chin_length / face_height in
  let cheek_ratio := cheek_width / jaw_width in
  let face_ratio := face_width / face_height in
  let jawline :=
    Math_round (lit 0.7 * norm jaw_ratio (lit 0.60) (lit 0.85) +
                lit 0.3 * norm chin_ratio (lit 0.08) (lit 0.14)) in
  let cheekbones := Math_round (norm cheek_ratio (lit 0.95) (lit 1.25)) in
  let sharp := norm (sharpness q) (lit 50) (lit 250) in
  let contr := norm (contrast q) (lit 20) (lit 70) in
  let brightCenter := norm (brightness q) (lit 80) (lit 170) in
  let brightScore := lit 100 - Math_abs (brightCenter - lit 50) * lit 2 in
  let skin_quality :=
    Math_round (lit 0.5 * sharp + lit 0.3 * contr +
                lit 0.2 * clamp brightScore (lit 0) (lit 100)) in
  let masculinity :=
    Math_round (lit 0.6 * norm jaw_ratio (lit 0.60) (lit 0.85) +
                lit 0.4 * norm face_ratio (lit 0.65) (lit 0.90)) in
  let overall :=
    Math_round (lit 0.30 * jawline + lit 0.25 * cheekbones +
                lit 0.20 * skin_quality + lit 0.25 * masculinity) in
  let checks := photo_checks q in
  let photo_penalty := fst checks in
  let warnings := snd checks in
  let potential := Math_round (clamp (overall + photo_penalty) (lit 0) (lit 100)) in
  {| overall := overall;
     potential := potential;
     masculinity := masculinity;
     skin_quality := skin_quality;
     jawline := jawline;
     cheekbones := cheekbones;
     warnings := warnings |}.

(** [analyzeFace], from the detector's answer [faces] and the quality
    metrics [q] of the image (the two external calls of the source). *)
Definition analyzeFace (faces : list (list (Point N))) (q : QualityMetrics N)
  : completion AnalysisResult :=
  match faces with
  | [] => Throw (Error "NO_FACE_DETECTED")
  | keypoints :: _ =>
      lm <- mapLandmarks keypoints ;;
      Return (score lm q)
  end.

End Engine.
Arguments AnalysisResult N : clear implicits.
Arguments Landmarks N : clear implicits.
End Basic.

(** ** [src/unnamed/part_000]: the ten-facet analysis *)

Module Extended.
Section Engine.
Context {N : Type} `{Number N}.
Local Open Scope js_scope.

Definition clamp (x a b : N) : N := Math_max a (Math_min x b).

Definition norm (x min max : N) : N :=
  clamp (((x - min) / (max - min)) * lit 100) (lit 0) (lit 100).

Definition dist (p1 p2 : Point N) : N :=
  Math_sqrt (Math_pow2 (x p1 - x p2) + Math_pow2 (y p1 - y p2)).

Record AnalysisResult : Type := {
  overall : N;
  potential : N;
  masculinity : N;
  skin_quality : N;
  jawline : N;
  cheekbones : N;
  symmetry : N;
  golden_ratio : N;
  facial_thirds : N;
  facial_fifths : N;
  eye_score : N;
  nose_score : N;
  warnings : list string;
  landmarks : list (Point N)
}.

(** Helper function for symmetry calculation. *)
Definition calculateSymmetry (centerPoint leftPoint rightPoint : Point N) : N :=
  let leftDist := dist centerPoint leftPoint in
  let rightDist := dist centerPoint rightPoint in
  let difference := Math_abs (leftDist - rightDist) in
  let average := (leftDist + rightDist) / lit 2 in
  if average >? lit 0
  then (lit 1 - difference / average) * lit 100
  else lit 100.

(** Helper function for Golden Ratio scoring. *)
Definition PHI : N := lit 1.618.

(** [idealPhi] is an optional parameter, [PHI] when the caller omits it. *)
Definition calculateGoldenRatioScore (ratio : N) (idealPhi : option N) : N :=
  let idealPhi := match idealPhi with Some v => v | None => PHI end in
  let difference := Math_abs (ratio - idealPhi) in
  let maxDeviation := lit 0.5 in
  let score := Math_max (lit 0) (lit 1 - difference / maxDeviation) * lit 100 in
  clamp score (lit 0) (lit 100).

Definition getKeypoint (keypoints : list (Point N)) (idx : nat)
  : completion (Point N) :=
  match index keypoints idx with
  | Some k => Return {| x := x k; y := y k |}
  | None => Throw undefined_x
  end.

(** The points of the block "Map landmarks" and of "Additional points for
    advanced metrics". *)
Record Landmarks : Type := {
  forehead_top : Point N;
  chin_bottom : Point N;
  face_left : Point N;
  face_right : Point N;
  cheek_left : Point N;
  cheek_right : Point N;
  jaw_left : Point N;
  jaw_right : Point N;
  mouth_bottom : Point N;
  eye_right_outer : Point N;
  eye_right_inner : Point N;
  eye_left_inner : Point N;
  eye_left_outer : Point N;
  eye_right_top : Point N;
  eye_right_bottom : Point N;
  eye_left_top : Point N;
  eye_left_bottom : Point N;
  nose_center : Point N;
  nose_base : Point N;
  nose_tip : Point N;
  mouth_left : Point N;
  mouth_right : Point N;
  nose_left : Point N;
  nose_right : Point N
}.

Definition mapLandmarks (keypoints : list (Point N)) : completion Landmarks :=
  forehead_top <- getKeypoint keypoints 10 ;;
  chin_bottom <- getKeypoint keypoints 152 ;;
  face_left <- getKeypoint keypoints 234 ;;
  face_right <- getKeypoint keypoints 454 ;;
  cheek_left <- getKeypoint keypoints 123 ;;
  cheek_right <- getKeypoint keypoints 352 ;;
  jaw_left <- getKeypoint keypoints 172 ;;
  jaw_right <- getKeypoint keypoints 397 ;;
  mouth_bottom <- getKeypoint keypoints 14 ;;
  eye_right_outer <- getKeypoint keypoints 33 ;;
  eye_right_inner <- getKeypoint keypoints 133 ;;
  eye_left_inner <- getKeypoint keypoints 362 ;;
  eye_left_outer <- getKeypoint keypoints 263 ;;
  eye_right_top <- getKeypoint keypoints 159 ;;
  eye_right_bottom <- getKeypoint keypoints 145 ;;
  eye_left_top <- getKeypoint keypoints 386 ;;
  eye_left_bottom <- getKeypoint keypoints 374 ;;
  nose_center <- getKeypoint keypoints 168 ;;
  nose_base <- getKeypoint keypoints 9 ;;
  nose_tip <- getKeypoint keypoints 0 ;;
  mouth_left <- getKeypoint keypoints 61 ;;
  mouth_right <- getKeypoint keypoints 291 ;;
  nose_left <- getKeypoint keypoints 102 ;;
  nose_right <- getKeypoint keypoints 331 ;;
  Return {| forehead_top := forehead_top; chin_bottom := chin_bottom;
            face_left := face_left; face_right := face_right;
            cheek_left := cheek_left; cheek_right := cheek_right;
            jaw_left := jaw_left; jaw_right := jaw_right;
            mouth_bottom := mouth_bottom;
            eye_right_outer := eye_right_outer;
            eye_right_inner := eye_right_inner;
            eye_left_inner := eye_left_inner;
            eye_left_outer := eye_left_outer;
            eye_right_top := eye_right_top;
            eye_right_bottom := eye_right_bottom;
            eye_left_top := eye_left_top;
            eye_left_bottom := eye_left_bottom;
            nose_center := nose_center; nose_base := nose_base;
            nose_tip := nose_tip;
            mouth_left := mouth_left; mouth_right := mouth_right;
            nose_left := nose_left; nose_right := nose_right |}.

(** The block "Potential and warnings". *)
Definition photo_checks (q : QualityMetrics N) : N * list string :=
  let photo_penalty := lit 0 in
  let warnings := @nil string in
  let '(photo_penalty, warnings) :=
    if sharpness q <=? lit 150
    then (photo_penalty + lit 15, warnings ++ ["low_sharpness"%string])
    else (photo_penalty, warnings) in
  let '(photo_penalty, warnings) :=
    if (brightness q <? lit 90) || (brightness q >? lit 160)
    then (photo_penalty + lit 10, warnings ++ ["bad_brightness"%string])
    else (photo_penalty, warnings) in
  let '(photo_penalty, warnings) :=
    if contrast q <=? lit 35
    then (photo_penalty + lit 10, warnings ++ ["low_contrast"%string])
    else (photo_penalty, warnings) in
  (photo_penalty, warnings).

(** Lines 134 to 298: features, the ten scores, [overall], [potential] and
    the returned object, which echoes [keypoints]. *)
Definition score (lm : Landmarks) (q : QualityMetrics N)
  (keypoints : list (Point N)) : AnalysisResult :=
  let face_width := dist (face_left lm) (face_right lm) in
  let face_height := dist (forehead_top lm) (chin_bottom lm) in
  let jaw_width := dist (jaw_left lm) (jaw_right lm) in
  let cheek_width := dist (cheek_left lm) (cheek_right lm) in
  let chin_length := dist (mouth_bottom lm) (chin_bottom lm) in
  let jaw_ratio := jaw_width / face_width in
  let chin_ratio := chin_length / face_height in
  let cheek_ratio := cheek_width / jaw_width in
  let face_ratio := face_width / face_height in
  let jawline :=
    Math_round (lit 0.7 * norm jaw_ratio (lit 0.60) (lit 0.85) +
                lit 0.3 * norm chin_ratio (lit 0.08) (lit 0.14)) in
  let cheekbones := Math_round (norm cheek_ratio (lit 0.95) (lit 1.25)) in
  let sharp := norm (sharpness q) (lit 50) (lit 250) in
  let contr := norm (contrast q) (lit 20) (lit 70) in
  let brightCenter := norm (brightness q) (lit 80) (lit 170) in
  let brightScore := lit 100 - Math_abs (brightCenter - lit 50) * lit 2 in
  let skin_quality :=
    Math_round (lit 0.5 * sharp + lit 0.3 * contr +
                lit 0.2 * clamp brightScore (lit 0) (lit 100)) in
  let masculinity :=
    Math_round (lit 0.6 * norm jaw_ratio (lit 0.60) (lit 0.85) +
                lit 0.4 * norm face_ratio (lit 0.65) (lit 0.90)) in
  (* Symmetry score *)
  let eyeSymmetry :=
    calculateSymmetry (nose_center lm) (eye_left_outer lm) (eye_right_outer lm) in
  let cheekSymmetry :=
    calculateSymmetry (nose_center lm) (cheek_left lm) (cheek_right lm) in
  let jawSymmetry :=
    calculateSymmetry (nose_center lm) (jaw_left lm) (jaw_right lm) in
  let symmetry := Math_round ((eyeSymmetry + cheekSymmetry + jawSymmetry) / lit 3) in
  (* Golden Ratio score *)
  let faceHeightToWidth := face_height / face_width in
  let noseToTopDist := dist (forehead_top lm) (nose_center lm) in
  let noseToChinDist := dist (nose_center lm) (chin_bottom lm) in
  let upperToLowerFace := noseToTopDist / noseToChinDist in
  let faceRatioScore := calculateGoldenRatioScore faceHeightToWidth None in
  let verticalRatioScore := calculateGoldenRatioScore upperToLowerFace None in
  let golden_ratio := Math_round ((faceRatioScore + verticalRatioScore) / lit 2) in
  (* Facial Thirds *)
  let upperThird := dist (forehead_top lm) (nose_base lm) in
  let midThird := dist (nose_base lm) (nose_tip lm) in
  let lowerThird := dist (nose_tip lm) (chin_bottom lm) in
  let avgThird := (upperThird + midThird + lowerThird) / lit 3 in
  let dev1 := Math_abs (upperThird - avgThird) in
  let dev2 := Math_abs (midThird - avgThird) in
  let dev3 := Math_abs (lowerThird - avgThird) in
  let maxDev := Math_max3 dev1 dev2 dev3 in
  let facial_thirds :=
    Math_round (Math_max (lit 0) (lit 100 - (maxDev / avgThird) * lit 300)) in
  (* Facial Fifths *)
  let fifth1 := dist (face_left lm) (eye_right_outer lm) in
  let fifth2 := dist (eye_right_outer lm) (eye_right_inner lm) in
  let fifth3 := dist (eye_right_inner lm) (eye_left_inner lm) in
  let fifth4 := dist (eye_left_inner lm) (eye_left_outer lm) in
  let fifth5 := dist (eye_left_outer lm) (face_right lm) in
  let avgFifth := (fifth1 + fifth2 + fifth3 + fifth4 + fifth5) / lit 5 in
  let devF1 := Math_abs (fifth1 - avgFifth) in
  let devF2 := Math_abs (fifth2 - avgFifth) in
  let devF3 := Math_abs (fifth3 - avgFifth) in
  let devF4 := Math_abs (fifth4 - avgFifth) in
  let devF5 := Math_abs (fifth5 - avgFifth) in
  let maxFifthDev := Math_max5 devF1 devF2 devF3 devF4 devF5 in
  let facial_fifths :=
    Math_round (Math_max (lit 0) (lit 100 - (maxFifthDev / avgFifth) * lit 300)) in
  (* Eye Score *)
  let leftTilt := y (eye_left_outer lm) - y (eye_left_inner lm) in
  let leftTiltAngle :=
    lit (-1) * (y (eye_left_outer lm) - y (eye_left_inner lm))
    / (x (eye_left_outer lm) - x (eye_left_inner lm)) in
  let rightTiltAngle :=
    lit (-1) * (y (eye_right_outer lm) - y (eye_right_inner lm))
    / (x (eye_right_outer lm) - x (eye_right_inner lm)) in
  let leftTiltGood := y (eye_left_outer lm) <? y (eye_left_inner lm) in
  let rightTiltGood := y (eye_right_outer lm) <? y (eye_right_inner lm) in
  let eyeSpacingRatio := fifth3 / ((fifth2 + fifth4) / lit 2) in
  let spacingScore := norm eyeSpacingRatio (lit 0.8) (lit 1.2) in
  let eye_score :=
    Math_round (lit 0.5 * spacingScore +
                lit 0.5 * (if leftTiltGood && rightTiltGood
                           then lit 100 else lit 70)) in
  (* Nose Score *)
  let nose_width := dist (nose_left lm) (nose_right lm) in
  let mouth_width := dist (mouth_left lm) (mouth_right lm) in
  let noseWidthRatio := nose_width / mouth_width in
  let noseFaceRatio := nose_width / face_width in
  let nose_score :=
    Math_round (lit 0.5 * norm noseWidthRatio (lit 0.6) (lit 0.9) +
                lit 0.5 * norm noseFaceRatio (lit 0.20) (lit 0.30)) in
  (* Overall score *)
  let overall :=
    Math_round (lit 0.15 * jawline + lit 0.15 * cheekbones +
                lit 0.15 * skin_quality + lit 0.15 * masculinity +
                lit 0.10 * symmetry + lit 0.05 * golden_ratio +
                lit 0.05 * facial_thirds + lit 0.05 * facial_fifths +
                lit 0.10 * eye_score + lit 0.05 * nose_score) in
  let checks := photo_checks q in
  let photo_penalty := fst checks in
  let warnings := snd checks in
  let potential := Math_round (clamp (overall + photo_penalty) (lit 0) (lit 100)) in
  {| overall := overall;
     potential := potential;
     masculinity := masculinity;
     skin_quality := skin_quality;
     jawline := jawline;
     cheekbones := cheekbones;
     symmetry := symmetry;
     golden_ratio := golden_ratio;
     facial_thirds := facial_thirds;
     facial_fifths := facial_fifths;
     eye_score := eye_score;
     nose_score := nose_score;
     warnings := warnings;
     landmarks := keypoints |}.

Definition analyzeFace (faces : list (list (Point N))) (q : QualityMetrics N)
  : completion AnalysisResult :=
  match faces with
  | [] => Throw (Error "NO_FACE_DETECTED")
  | keypoints :: _ =>
      lm <- mapLandmarks keypoints ;;
      Return (score lm q keypoints)
  end.

End Engine.
Arguments AnalysisResult N : clear implicits.
Arguments Landmarks N : clear implicits.
End Extended.

(** ** JavaScript numbers as IEEE-754 binary64 *)

Module FloatNum.

Definition of_Z (z : Z) : float :=
  match z with
  | Z0 => 0%float
  | Zpos _ => PrimFloat.of_uint63 (Uint63.of_Z z)
  | Zneg p => (- PrimFloat.of_uint63 (Uint63.of_Z (Zpos p)))%float
  end.

(** A decimal literal denotes the double nearest to it: the correctly
    rounded quotient of its numerator and denominator, both of which are
    doubles for the literals of the source. *)
Definition lit (q : Q) : float := (of_Z (Qnum q) / of_Z (Zpos (Qden q)))%float.

Definition is_neg_zero (a : float) : bool :=
  match PrimFloat.classify a with NZero => true | _ => false end.

(** [Math.max]: [NaN] when an argument is, and [+0] above [-0]. *)
Definition Math_max (a b : float) : float :=
  if PrimFloat.is_nan a || PrimFloat.is_nan b then nan
  else if (a <? b)%float then b
  else if (b <? a)%float then a
  else if is_neg_zero a then b else a.

(** [Math.min]: [NaN] when an argument is, and [-0] below [+0]. *)
Definition Math_min (a b : float) : float :=
  if PrimFloat.is_nan a || PrimFloat.is_nan b then nan
  else if (a <? b)%float then a
  else if (b <? a)%float then b
  else if is_neg_zero a then a else b.

Definition two52 : float := 4503599627370496%float.

(** The largest integer not above [a], for [|a| < 2^52]: adding and
    removing [2^52] rounds [|a|] to an integer, which is then adjusted. *)
Definition floor (a : float) : float :=
  let m := PrimFloat.abs a in
  let r := ((m + two52) - two52)%float in
  if (a <? 0)%float
  then (- (if (r <? m) then r + 1 else r))%float
  else (if (m <? r) then r - 1 else r)%float.

(** [Math.round]: the nearest integer, a tie going up (towards
    [+Infinity]); non-finite values, integers and zeros are returned as they
    are, and a negative argument that rounds to zero gives [-0]. *)
Definition Math_round (a : float) : float :=
  if PrimFloat.is_nan a || PrimFloat.is_infinity a then a
  else if (two52 <=? PrimFloat.abs a)%float then a
  else if (a =? 0)%float then a
  else
    let f := floor a in
    let r := (if (a - f <? 0.5) then f else f + 1)%float in
    if ((r =? 0) && (a <? 0))%float then (-0)%float else r.

#[global] Instance number : Number float := {|
  JS.lit := lit;
  JS.add := PrimFloat.add;
  JS.sub := PrimFloat.sub;
  JS.mul := PrimFloat.mul;
  JS.div := PrimFloat.div;
  JS.lt := PrimFloat.ltb;
  JS.le := PrimFloat.leb;
  JS.Math_abs := PrimFloat.abs;
  JS.Math_sqrt := PrimFloat.sqrt;
  JS.Math_round := Math_round;
  JS.Math_max := Math_max;
  JS.Math_min := Math_min
|}.

End FloatNum.

(** ** JavaScript numbers idealised: exact reals and the three non-finite values *)

(** Decimal literals are read exactly and [+], [-], [*], [/] and
    [Math.sqrt] do not round, where binary64 rounds each of them to the
    nearest double.  The comparisons, [Math.abs], [Math.max], [Math.min]
    and [Math.round] round in neither.  Rounding to nearest
    keeps the order of values and leaves integers of this size exact, so
    the ranges, the order and the thresholds of the scores proved here hold
    of binary64 too; a formula proved here gives the value of a helper up to
    that rounding, and a score that [Math.round] takes from a mean on a
    half can differ by one from the binary64 score (lemma
    [thirds_tie_in_both_arithmetics]). *)

Module Exact.
Local Open Scope R_scope.

Inductive xreal : Type :=
| Fin (r : R)
| Inf
| NegInf
| Nan.

Definition Rltb (a b : R) : bool := if Rlt_dec a b then true else false.
Definition Rleb (a b : R) : bool := if Rle_dec a b then true else false.

(** The infinity of the sign of [r], for [r] other than zero. *)
Definition inf_of_sign (r : R) : xreal := if Rlt_dec 0 r then Inf else NegInf.

Definition xopp (a : xreal) : xreal :=
  match a with
  | Fin u => Fin (- u)
  | Inf => NegInf
  | NegInf => Inf
  | Nan => Nan
  end.

Definition xadd (a b : xreal) : xreal :=
  match a, b with
  | Nan, _ | _, Nan => Nan
  | Fin u, Fin v => Fin (u + v)
  | Inf, NegInf | NegInf, Inf => Nan
  | Inf, _ | _, Inf => Inf
  | NegInf, _ | _, NegInf => NegInf
  end.

Definition xsub (a b : xreal) : xreal :=
  match a, b with
  | Nan, _ | _, Nan => Nan
  | Fin u, Fin v => Fin (u - v)
  | Inf, Inf | NegInf, NegInf => Nan
  | Inf, _ | _, NegInf => Inf
  | NegInf, _ | _, Inf => NegInf
  end.

Definition xmul (a b : xreal) : xreal :=
  match a, b with
  | Nan, _ | _, Nan => Nan
  | Fin u, Fin v => Fin (u * v)
  | Fin u, Inf | Inf, Fin u =>
      if Req_dec_T u 0 then Nan else inf_of_sign u
  | Fin u, NegInf | NegInf, Fin u =>
      if Req_dec_T u 0 then Nan else xopp (inf_of_sign u)
  | Inf, Inf | NegInf, NegInf => Inf
  | Inf, NegInf | NegInf, Inf => NegInf
  end.

(** Division as IEEE has it: a finite quotient when the divisor is not zero,
    [NaN] for [0/0], an infinity for [u/0]. The one zero of the reals stands
    for [+0], which is the zero every divisor of the source can be (a
    distance, or a mean of distances). *)
Definition xdiv (a b : xreal) : xreal :=
  match a, b with
  | Nan, _ | _, Nan => Nan
  | Fin u, Fin v =>
      if Req_dec_T v 0
      then (if Req_dec_T u 0 then Nan else inf_of_sign u)
      else Fin (u / v)
  | Fin _, Inf | Fin _, NegInf => Fin 0
  | Inf, Fin v => if Rle_dec 0 v then Inf else NegInf
  | NegInf, Fin v => if Rle_dec 0 v then NegInf else Inf
  | _, _ => Nan
  end.

Definition xlt (a b : xreal) : bool :=
  match a, b with
  | Nan, _ | _, Nan => false
  | Fin u, Fin v => Rltb u v
  | _, NegInf => false
  | NegInf, _ => true
  | Inf, _ => false
  | _, Inf => true
  end.

Definition xle (a b : xreal) : bool :=
  match a, b with
  | Nan, _ | _, Nan => false
  | Fin u, Fin v => Rleb u v
  | NegInf, _ => true
  | _, Inf => true
  | _, NegInf => false
  | Inf, _ => false
  end.

Definition xabs (a : xreal) : xreal :=
  match a with
  | Fin u => Fin (Rabs u)
  | Inf | NegInf => Inf
  | Nan => Nan
  end.

Definition xsqrt (a : xreal) : xreal :=
  match a with
  | Fin u => if Rlt_dec u 0 then Nan else Fin (R_sqrt.sqrt u)
  | Inf => Inf
  | NegInf | Nan => Nan
  end.

(** [Math.round]: [floor(u + 1/2)], the nearest integer with a tie going
    up. *)
Definition xround (a : xreal) : xreal :=
  match a with
  | Fin u => Fin (IZR (Zfloor (u + / 2)))
  | _ => a
  end.

Definition xmax (a b : xreal) : xreal :=
  match a, b with
  | Nan, _ | _, Nan => Nan
  | Fin u, Fin v => Fin (Rmax u v)
  | Inf, _ | _, Inf => Inf
  | NegInf, c | c, NegInf => c
  end.

Definition xmin (a b : xreal) : xreal :=
  match a, b with
  | Nan, _ | _, Nan => Nan
  | Fin u, Fin v => Fin (Rmin u v)
  | NegInf, _ | _, NegInf => NegInf
  | Inf, c | c, Inf => c
  end.

#[global] Instance number : Number xreal := {|
  JS.lit := fun q => Fin (Q2R q);
  JS.add := xadd;
  JS.sub := xsub;
  JS.mul := xmul;
  JS.div := xdiv;
  JS.lt := xlt;
  JS.le := xle;
  JS.Math_abs := xabs;
  JS.Math_sqrt := xsqrt;
  JS.Math_round := xround;
  JS.Math_max := xmax;
  JS.Math_min := xmin
|}.

(** A value between 0 and [hi], or [NaN]. *)
Definition bounded (hi : R) (v : xreal) : Prop :=
  match v with
  | Fin r => 0 <= r <= hi
  | Nan => True
  | Inf | NegInf => False
  end.

(** A score: an integer between 0 and 100, or [NaN]. *)
Definition is_score (v : xreal) : Prop :=
  match v with
  | Fin r => exists z : Z, r = IZR z /\ (0 <= z <= 100)%Z
  | Nan => True
  | Inf | NegInf => False
  end.

(** A value that is not negative: a finite one, [Infinity], or [NaN]. *)
Definition nonneg (v : xreal) : Prop :=
  match v with
  | Fin r => 0 <= r
  | Inf | Nan => True
  | NegInf => False
  end.

(** The point of real coordinates [(a, b)]. *)
Definition pt (a b : R) : Point xreal := {| x := Fin a; y := Fin b |}.

(** The Euclidean distance between [(a, b)] and [(c, d)]. *)
Definition Rdist (a b c d : R) : R :=
  R_sqrt.sqrt ((a - c) * (a - c) + (b - d) * (b - d)).

(** The same on pairs of coordinates. *)
Definition point (p : R * R) : Point xreal := pt (fst p) (snd p).

Definition distance (p1 p2 : R * R) : R :=
  Rdist (fst p1) (snd p1) (fst p2) (snd p2).

End Exact.

(** ** Landmark sequences used as concrete inputs *)

Section Meshes.
Context {N : Type} `{Number N}.

(** The keypoint at integer pixel coordinates [(a, b)]. *)
Definition point_of (c : Z * Z) : Point N :=
  {| x := lit (inject_Z (fst c)); y := lit (inject_Z (snd c)) |}.

Fixpoint lookup (t : list (nat * (Z * Z))) (i : nat) (d : Z * Z) : Z * Z :=
  match t with
  | [] => d
  | (j, c) :: t' => if Nat.eqb i j then c else lookup t' i d
  end.

(** A sequence of [n] keypoints: the points that the table [t] places, and
    [d] at every other index. *)
Definition mesh (t : list (nat * (Z * Z))) (d : Z * Z) (n : nat)
  : list (Point N) :=
  map (fun i => point_of (lookup t i d)) (seq 0 n).

(** What [getKeypoint] returns at an index within the sequence. *)
Definition keypoint_at (keypoints : list (Point N)) (idx : nat) : Point N :=
  match index keypoints idx with
  | Some k => {| x := x k; y := y k |}
  | None => {| x := lit 0; y := lit 0 |}
  end.

(** The landmarks that [Basic.mapLandmarks] returns on a sequence that has
    all of them. *)
Definition basic_landmarks (keypoints : list (Point N)) : Basic.Landmarks N :=
  {| Basic.forehead_top := keypoint_at keypoints 10;
     Basic.chin_bottom := keypoint_at keypoints 152;
     Basic.face_left := keypoint_at keypoints 234;
     Basic.face_right := keypoint_at keypoints 454;
     Basic.cheek_left := keypoint_at keypoints 123;
     Basic.cheek_right := keypoint_at keypoints 352;
     Basic.jaw_left := keypoint_at keypoints 172;
     Basic.jaw_right := keypoint_at keypoints 397;
     Basic.mouth_bottom := keypoint_at keypoints 14 |}.

(** The landmarks that [Extended.mapLandmarks] returns on a sequence that
    has all of them. *)
Definition extended_landmarks (keypoints : list (Point N))
  : Extended.Landmarks N :=
  {| Extended.forehead_top := keypoint_at keypoints 10;
     Extended.chin_bottom := keypoint_at keypoints 152;
     Extended.face_left := keypoint_at keypoints 234;
     Extended.face_right := keypoint_at keypoints 454;
     Extended.cheek_left := keypoint_at keypoints 123;
     Extended.cheek_right := keypoint_at keypoints 352;
     Extended.jaw_left := keypoint_at keypoints 172;
     Extended.jaw_right := keypoint_at keypoints 397;
     Extended.mouth_bottom := keypoint_at keypoints 14;
     Extended.eye_right_outer := keypoint_at keypoints 33;
     Extended.eye_right_inner := keypoint_at keypoints 133;
     Extended.eye_left_inner := keypoint_at keypoints 362;
     Extended.eye_left_outer := keypoint_at keypoints 263;
     Extended.eye_right_top := keypoint_at keypoints 159;
     Extended.eye_right_bottom := keypoint_at keypoints 145;
     Extended.eye_left_top := keypoint_at keypoints 386;
     Extended.eye_left_bottom := keypoint_at keypoints 374;
     Extended.nose_center := keypoint_at keypoints 168;
     Extended.nose_base := keypoint_at keypoints 9;
     Extended.nose_tip := keypoint_at keypoints 0;
     Extended.mouth_left := keypoint_at keypoints 61;
     Extended.mouth_right := keypoint_at keypoints 291;
     Extended.nose_left := keypoint_at keypoints 102;
     Extended.nose_right := keypoint_at keypoints 331 |}.

(** The quality metrics of integer values [s], [b] and [c]. *)
Definition quality_of (s b c : Z) : QualityMetrics N :=
  {| sharpness := lit (inject_Z s);
     brightness := lit (inject_Z b);
     contrast := lit (inject_Z c) |}.

End Meshes.

(** The table entry that puts index [i] at pixel [(a, b)]. *)
Definition place (i : nat) (a b : Z) : nat * (Z * Z) := (i, (a, b)).

(** A face turned to one side: the nose bridge (168) lies 125 pixels from
    the outer eye corner, the cheekbone and the jaw corner of one side (263,
    123, 172) and 35 pixels from those of the other side (33, 352, 397). The
    vertical thirds (10, 9, 0, 152) measure 90, 90 and 99 pixels. *)
Definition turned_face : list (nat * (Z * Z)) :=
  [ place 0 200 240; place 9 200 150; place 10 200 60; place 14 200 300;
    place 33 179 172; place 61 180 280; place 102 190 240; place 123 325 200;
    place 133 190 172; place 145 185 176; place 152 200 339; place 159 185 168;
    place 168 200 200; place 172 275 300; place 234 150 200; place 263 275 100;
    place 291 240 280; place 331 220 240; place 352 165 200; place 362 230 160;
    place 374 250 140; place 386 250 120; place 397 179 228; place 454 340 200 ].

(** The same face with vertical thirds of 1000, 1000 and 1001 pixels. *)
Definition long_face : list (nat * (Z * Z)) :=
  [ place 10 200 0; place 9 200 1000; place 0 200 2000; place 152 200 3001 ]
  ++ turned_face.

(** A face whose landmarks all lie on one row: the nose bridge (168) sits
    on the outer eye corner, the cheekbone and the jaw corner of one side
    (263, 123, 172), those of the other side (33, 352, 397) lie 100, 20 and
    40 pixels away; the face is 100 pixels wide and 1000 long. *)
Definition lopsided_face : list (nat * (Z * Z)) :=
  [ place 234 0 0; place 454 100 0; place 10 0 0; place 152 1000 0;
    place 168 500 0; place 172 500 0; place 397 540 0; place 123 500 0;
    place 352 520 0; place 263 500 0; place 33 400 0; place 133 400 0;
    place 362 400 0; place 14 1000 0; place 9 0 0; place 0 0 0;
    place 102 0 0; place 331 0 0; place 61 0 0; place 291 100 0 ].

(** The turned face with the nose bridge (168) at (200, 200), the outer eye
    corner, the cheekbone and the jaw corner of one side (263, 123, 172) at
    (217, 251) and those of the other side (33, 352, 397) at (185, 155):
    the two distances are 17 and 15 times the square root of 10. *)
Definition symmetry_tie_face : list (nat * (Z * Z)) :=
  [ place 168 200 200; place 263 217 251; place 123 217 251;
    place 172 217 251; place 33 185 155; place 352 185 155;
    place 397 185 155 ] ++ turned_face.


(** The turned face with vertical thirds of 80, 80 and 96 pixels. *)
Definition thirds_tie_face : list (nat * (Z * Z)) :=
  [ place 10 200 0; place 9 200 80; place 0 200 160; place 152 200 256 ]
  ++ turned_face.

(** The turned face made 1513 pixels high and 1000 wide, with the nose
    bridge 756 pixels below the top of the forehead and 757 above the
    chin. *)
Definition golden_tie_face : list (nat * (Z * Z)) :=
  [ place 10 0 0; place 168 0 756; place 152 0 1513; place 234 (-500) 700;
    place 454 500 700 ] ++ turned_face.

(** A face 100 pixels wide and 100 high, with a jaw 90 pixels wide,
    cheekbones 120 apart and a chin of 20: [jawline], [cheekbones] and
    [masculinity] are all 100. *)
Definition strong_face : list (nat * (Z * Z)) :=
  [ place 234 0 0; place 454 100 0; place 10 0 0; place 152 0 100;
    place 172 0 0; place 397 90 0; place 123 0 0; place 352 120 0;
    place 14 0 80 ] ++ turned_face.

(** The turned face mirrored left to right and moved 20 pixels down. *)
Definition moved_face : list (nat * (Z * Z)) :=
  map (fun p => (fst p, (410 - fst (snd p), snd (snd p) + 20)%Z)) turned_face.

(** ** The formulas as the specification words them *)

Module Spec.
Local Open Scope R_scope.

(** Round half away from zero. *)
Definition round_half_away (v : R) : Z :=
  if Rle_dec 0 v then Zfloor (v + / 2) else (- Zfloor (- v + / 2))%Z.

(** Round to nearest, a tie going up: what [Math.round] does. *)
Definition round_half_up (v : R) : Z := Zfloor (v + / 2).

Definition clamp (v a b : R) : R := Rmax a (Rmin v b).

(** [clamp((1 - |ratio - 1.618| / 0.5), 0, 1) * 100] *)
Definition golden_score (ratio : R) : R :=
  clamp (1 - Rabs (ratio - 1.618) / 0.5) 0 1 * 100.

(** [max(0, 100 - 300 * dev_max / mean)] *)
Definition deviation_score (dev_max mean : R) : R :=
  Rmax 0 (100 - 300 * dev_max / mean).

(** [avg(dL,dR) = 0 ? 100 : (1 - |dL - dR| / avg(dL,dR)) * 100] *)
Definition symmetry_score (dL dR : R) : R :=
  if Req_dec_T ((dL + dR) / 2) 0
  then 100
  else (1 - Rabs (dL - dR) / ((dL + dR) / 2)) * 100.

(** The largest of the deviations of three and of five segments from their
    mean. *)
Definition mean3 (a b c : R) : R := (a + b + c) / 3.

Definition dev_max3 (a b c : R) : R :=
  Rmax (Rmax (Rabs (a - mean3 a b c)) (Rabs (b - mean3 a b c)))
       (Rabs (c - mean3 a b c)).

Definition mean5 (a b c d e : R) : R := (a + b + c + d + e) / 5.

Definition dev_max5 (a b c d e : R) : R :=
  Rmax (Rmax (Rmax (Rmax (Rabs (a - mean5 a b c d e))
                         (Rabs (b - mean5 a b c d e)))
                   (Rabs (c - mean5 a b c d e)))
             (Rabs (d - mean5 a b c d e)))
       (Rabs (e - mean5 a b c d e)).

(** The photo penalty and the warning tags from the outcome of the three
    tests: 15 for low sharpness, 10 for bad brightness, 10 for low contrast,
    the tags in that order. *)
Definition penalty (low_sharpness bad_brightness low_contrast : bool) : Z :=
  ((if low_sharpness then 15 else 0) + (if bad_brightness then 10 else 0)
   + (if low_contrast then 10 else 0))%Z.

Definition tags (low_sharpness bad_brightness low_contrast : bool)
  : list string :=
  ((if low_sharpness then ["low_sharpness"%string] else [])
   ++ (if bad_brightness then ["bad_brightness"%string] else [])
   ++ (if low_contrast then ["low_contrast"%string] else []))%list.

(** [clamp(((x - lo) / (hi - lo)) * 100, 0, 100)] *)
Definition normalize (v lo hi : R) : R :=
  clamp ((v - lo) / (hi - lo) * 100) 0 100.

End Spec.

(** ** Code that acts on an object outside it: state and exceptions *)

Module Eff.

(** A step on a state [S] that returns or throws; what was done to the
    state before a throw stays done. *)
Definition eff (S A : Type) : Type := S -> S * completion A.

Definition ret {S A : Type} (a : A) : eff S A := fun s => (s, Return a).

Definition raise {S A : Type} (e : exn) : eff S A := fun s => (s, Throw e).

Definition then_ {S A B : Type} (m : eff S A) (k : A -> eff S B) : eff S B :=
  fun s =>
    match m s with
    | (s', Return a) => k a s'
    | (s', Throw e) => (s', Throw e)
    end.

(** The outcome of a computation that does not touch the state. *)
Definition pure {S A : Type} (c : completion A) : eff S A := fun s => (s, c).

(** [for (...) body], over the elements that the loop visits. *)
Fixpoint for_each {S A : Type} (l : list A) (body : A -> eff S unit)
  : eff S unit :=
  match l with
  | [] => ret tt
  | a :: l' => then_ (body a) (fun _ => for_each l' body)
  end.

End Eff.

Declare Scope eff_scope.
Delimit Scope eff_scope with eff.
Notation "v <- c ;; k" := (Eff.then_ c (fun v => k))
  (at level 61, c at next level, right associativity) : eff_scope.
Notation "c ;; k" := (Eff.then_ c (fun _ => k))
  (at level 61, right associativity) : eff_scope.

(** ** [src/lib/visualize.ts]: the overlay drawn over the photo *)

Module Visualize.
Import Eff.

(** The table [INDICES]. *)
Module INDICES.

Definition JAWLINE : list nat :=
  [234; 93; 132; 58; 172; 136; 150; 149; 176; 148; 152; 377; 400; 378; 379;
   365; 397; 288; 361; 323; 454]%nat.
Definition EYEBROW_LEFT : list nat :=
  [276; 283; 282; 295; 285; 300; 293; 334; 296; 336]%nat.
Definition EYEBROW_RIGHT : list nat :=
  [46; 53; 52; 65; 55; 70; 63; 105; 66; 107]%nat.
Definition NOSE_BRIDGE : list nat :=
  [10; 151; 9; 8; 168; 6; 197; 195; 5; 4]%nat.
Definition NOSE_BOTTOM : list nat :=
  [102; 219; 218; 237; 48; 49; 279; 420; 438; 457; 331]%nat.
Definition EYE_LEFT : list nat :=
  [263; 249; 390; 373; 374; 380; 381; 382; 362; 398; 384; 385; 386; 387; 388;
   466; 263]%nat.
Definition EYE_RIGHT : list nat :=
  [33; 7; 163; 144; 145; 153; 154; 155; 133; 173; 157; 158; 159; 160; 161;
   246; 33]%nat.
Definition LIPS_OUTER : list nat :=
  [61; 146; 91; 181; 84; 17; 314; 405; 321; 375; 291; 409; 270; 269; 267; 0;
   37; 39; 40; 185; 61]%nat.

Definition FOREHEAD_TOP : nat := 10%nat.
Definition CHIN_BOTTOM : nat := 152%nat.
Definition NOSE_BASE : nat := 2%nat.
Definition NOSE_TIP : nat := 0%nat.
Definition FACE_LEFT : nat := 234%nat.
Definition FACE_RIGHT : nat := 454%nat.
Definition EYE_LEFT_OUTER : nat := 263%nat.
Definition EYE_RIGHT_OUTER : nat := 33%nat.
Definition EYE_LEFT_INNER : nat := 362%nat.
Definition EYE_RIGHT_INNER : nat := 133%nat.

End INDICES.

Definition undefined_y : exn :=
  TypeError "Cannot read properties of undefined (reading 'y')".

Section Canvas.
Context {N : Type} `{Number N}.
Variable Math_PI : N.
Local Open Scope js_scope.
Local Open Scope eff_scope.

(** What the code does to the 2D context [ctx]: a method call, or the
    assignment of one of its properties. *)
Inductive call : Type :=
| clearRect (x y w h : N)
| set_lineCap (v : string)
| set_lineJoin (v : string)
| set_strokeStyle (v : string)
| set_lineWidth (v : N)
| set_fillStyle (v : string)
| setLineDash (segments : list N)
| beginPath
| moveTo (x y : N)
| lineTo (x y : N)
| closePath
| stroke
| fill
| arc (x y radius startAngle endAngle : N).

(** The context is what has been done to it, the oldest call first. *)
Definition canvas (A : Type) : Type := eff (list call) A.

Definition ctx (c : call) : canvas unit := fun done => (done ++ [c], Return tt).

(** [pt.x] and [pt.y], for [pt] an element of [landmarks] or [undefined]. *)
Definition get_x (pt : option (Point N)) : canvas N :=
  match pt with
  | Some k => ret (x k)
  | None => raise undefined_x
  end.

Definition get_y (pt : option (Point N)) : canvas N :=
  match pt with
  | Some k => ret (y k)
  | None => raise undefined_y
  end.

(** [drawPath], over the helper [p] that it closes over; [close] is an
    optional parameter, [false] when the caller omits it. An empty
    [indices] has [indices[0]] undefined, and so has [p] of it. *)
Definition drawPath (p : nat -> option (Point N)) (indices : list nat)
  (close : option bool) : canvas unit :=
  let close := match close with Some b => b | None => false end in
  ctx beginPath ;;
  let first := match indices with i :: _ => p i | [] => None end in
  first_x <- get_x first ;;
  first_y <- get_y first ;;
  ctx (moveTo first_x first_y) ;;
  for_each (tl indices) (fun i =>
    let pt := p i in
    pt_x <- get_x pt ;;
    pt_y <- get_y pt ;;
    ctx (lineTo pt_x pt_y)) ;;
  (if close then ctx closePath else ret tt) ;;
  ctx stroke.

(** [drawHLine], over the [xLeft] and [xRight] that it closes over. *)
Definition drawHLine (xLeft xRight : N) (y : N) : canvas unit :=
  ctx beginPath ;;
  ctx (moveTo xLeft y) ;;
  ctx (lineTo xRight y) ;;
  ctx stroke.

(** [drawVLine], over [yForehead] and [yChin]. *)
Definition drawVLine (yForehead yChin : N) (x : N) : canvas unit :=
  ctx beginPath ;;
  ctx (moveTo x yForehead) ;;
  ctx (lineTo x yChin) ;;
  ctx stroke.

Definition drawDot (p : nat -> option (Point N)) (idx : nat) : canvas unit :=
  let pt := p idx in
  ctx beginPath ;;
  pt_x <- get_x pt ;;
  pt_y <- get_y pt ;;
  ctx (arc pt_x pt_y (lit 4) (lit 0) (lit 2 * Math_PI)) ;;
  ctx fill.

(** The body of [drawAnalysis] from "Clear previous" on (lines 41 to 148),
    over the helper [p] that it closes over. *)
Definition drawing (p : nat -> option (Point N)) (width height : N)
  : canvas unit :=
  (* Clear previous *)
  ctx (clearRect (lit 0) (lit 0) width height) ;;
  (* Set styles *)
  ctx (set_lineCap "round") ;;
  ctx (set_lineJoin "round") ;;
  (* 1. Draw Mesh Contours *)
  ctx (set_strokeStyle "rgba(255, 255, 255, 0.3)") ;;
  ctx (set_lineWidth (lit 1)) ;;
  drawPath p INDICES.JAWLINE None ;;
  drawPath p INDICES.EYEBROW_LEFT None ;;
  drawPath p INDICES.EYEBROW_RIGHT None ;;
  drawPath p INDICES.NOSE_BRIDGE None ;;
  drawPath p INDICES.NOSE_BOTTOM None ;;
  drawPath p INDICES.EYE_LEFT (Some true) ;;
  drawPath p INDICES.EYE_RIGHT (Some true) ;;
  drawPath p INDICES.LIPS_OUTER (Some true) ;;
  (* 2. Draw Facial Thirds *)
  ctx (set_strokeStyle "rgba(20, 184, 166, 0.8)") ;;
  ctx (set_lineWidth (lit 2)) ;;
  ctx (setLineDash [lit 5; lit 5]) ;;
  yForehead <- get_y (p INDICES.FOREHEAD_TOP) ;;
  yBrows <- get_y (p 9%nat) ;;
  yNose <- get_y (p 2%nat) ;;
  yChin <- get_y (p INDICES.CHIN_BOTTOM) ;;
  xLeft <- get_x (p INDICES.FACE_LEFT) ;;
  xRight <- get_x (p INDICES.FACE_RIGHT) ;;
  drawHLine xLeft xRight yForehead ;;
  drawHLine xLeft xRight yBrows ;;
  drawHLine xLeft xRight yNose ;;
  drawHLine xLeft xRight yChin ;;
  (* 3. Draw Facial Fifths *)
  ctx (set_strokeStyle "rgba(99, 102, 241, 0.8)") ;;
  ctx (setLineDash [lit 2; lit 2]) ;;
  (v <- get_x (p INDICES.FACE_LEFT) ;; drawVLine yForehead yChin v) ;;
  (v <- get_x (p INDICES.EYE_RIGHT_OUTER) ;; drawVLine yForehead yChin v) ;;
  (v <- get_x (p INDICES.EYE_RIGHT_INNER) ;; drawVLine yForehead yChin v) ;;
  (v <- get_x (p INDICES.EYE_LEFT_INNER) ;; drawVLine yForehead yChin v) ;;
  (v <- get_x (p INDICES.EYE_LEFT_OUTER) ;; drawVLine yForehead yChin v) ;;
  (v <- get_x (p INDICES.FACE_RIGHT) ;; drawVLine yForehead yChin v) ;;
  (* 4. Symmetry Line *)
  ctx (set_strokeStyle "rgba(6, 182, 212, 0.8)") ;;
  ctx (set_lineWidth (lit 3)) ;;
  ctx (setLineDash []) ;;
  let top := p INDICES.FOREHEAD_TOP in
  let bottom := p INDICES.CHIN_BOTTOM in
  ctx beginPath ;;
  top_x <- get_x top ;;
  top_y <- get_y top ;;
  ctx (moveTo top_x top_y) ;;
  bottom_x <- get_x bottom ;;
  bottom_y <- get_y bottom ;;
  ctx (lineTo bottom_x bottom_y) ;;
  ctx stroke ;;
  (* 5. Highlights *)
  ctx (set_fillStyle "rgba(249, 115, 22, 1)") ;;
  drawDot p INDICES.FOREHEAD_TOP ;;
  drawDot p INDICES.CHIN_BOTTOM ;;
  drawDot p INDICES.NOSE_TIP ;;
  drawDot p INDICES.EYE_LEFT_OUTER ;;
  drawDot p INDICES.EYE_RIGHT_OUTER ;;
  drawDot p 61%nat ;;
  drawDot p 291%nat.

(** [drawAnalysis(ctx, landmarks, width, height)]; [landmarks] is [None]
    for a [null] or [undefined] argument. *)
Definition drawAnalysis (landmarks : option (list (Point N))) (width height : N)
  : canvas unit :=
  match landmarks with
  | None => ret tt
  | Some landmarks =>
      if Nat.eqb (length landmarks) 0%nat then ret tt
      else
        let p := fun idx : nat => index landmarks idx in
        drawing p width height
  end.

End Canvas.
Arguments call N : clear implicits.
Arguments canvas N : clear implicits.

(** *** Reading what was drawn *)

Section Reading.
Context {N : Type}.

(** What a call does, whatever its coordinates. *)
Inductive kind : Type :=
| Clears | Styles | Dashes | Begins | Moves | Lines | Closes | Strokes
| Fills | Arcs.

Definition kind_of (c : call N) : kind :=
  match c with
  | clearRect _ _ _ _ => Clears
  | set_lineCap _ | set_lineJoin _ | set_strokeStyle _ | set_lineWidth _
  | set_fillStyle _ => Styles
  | setLineDash _ => Dashes
  | beginPath => Begins
  | moveTo _ _ => Moves
  | lineTo _ _ => Lines
  | closePath => Closes
  | stroke => Strokes
  | fill => Fills
  | arc _ _ _ _ _ => Arcs
  end.

Definition kind_eqb (a b : kind) : bool :=
  match a, b with
  | Clears, Clears | Styles, Styles | Dashes, Dashes | Begins, Begins
  | Moves, Moves | Lines, Lines | Closes, Closes | Strokes, Strokes
  | Fills, Fills | Arcs, Arcs => true
  | _, _ => false
  end.

(** How many calls of kind [k] the list [done] holds. *)
Definition count (k : kind) (done : list (call N)) : nat :=
  length (filter (fun c => kind_eqb (kind_of c) k) done).

(** Contours only: nothing filled, no arc and no dash pattern. *)
Definition quiet (done : list (call N)) : Prop :=
  (count Fills done = 0 /\ count Arcs done = 0 /\ count Dashes done = 0)%nat.

(** Every path is begun, built and then painted once: [beginPath], then
    [moveTo], [lineTo], [arc] and [closePath] only, then [stroke] or [fill];
    nothing is built or painted outside a path, and no style is set inside
    one. [open] tells whether a path is under construction. *)
Fixpoint paths_painted (open : bool) (done : list kind) : bool :=
  match done with
  | [] => negb open
  | Begins :: rest => negb open && paths_painted true rest
  | (Moves | Lines | Arcs | Closes) :: rest => open && paths_painted true rest
  | (Strokes | Fills) :: rest => open && paths_painted false rest
  | (Clears | Styles | Dashes) :: rest => negb open && paths_painted false rest
  end.

(** The segments stroked as straight guide lines: a path of exactly one
    [moveTo] and one [lineTo]. *)
Fixpoint segments (done : list (call N)) : list ((N * N) * (N * N)) :=
  match done with
  | beginPath :: ((moveTo x0 y0 :: lineTo x1 y1 :: stroke :: _) as rest) =>
      ((x0, y0), (x1, y1)) :: segments rest
  | _ :: rest => segments rest
  | [] => []
  end.

(** The centres of the arcs. *)
Fixpoint dots (done : list (call N)) : list (N * N) :=
  match done with
  | arc x y _ _ _ :: rest => (x, y) :: dots rest
  | _ :: rest => dots rest
  | [] => []
  end.

End Reading.

End Visualize.

(** [Math.PI] as a JavaScript number: the double nearest to pi. *)
Definition Math_PI_binary64 : float :=
  FloatNum.lit (3141592653589793 # 1000000000000000).

(** ** [src/app/page.tsx]: the page and the result card *)

Module Page.
Import Eff.

Section Home.
Context {N : Type} `{Number N}.

(** What lies outside the page: the [img] elements, the detectors of the
    landmark library, and the rest of the world (network, GPU), whose
    state the library calls read and change. *)
Variables Image Detector World : Type.

(** [faceLandmarksDetection.createDetector(model, {...})] *)
Variable createDetector : World -> World * completion Detector.

(** [det.estimateFaces(img)]: the keypoints of each face. *)
Variable estimateFaces :
  Detector -> Image -> World -> World * completion (list (list (Point N))).

(** [getQualityMetrics(img)], the function of [./quality] (a file that is
    not part of the sources). *)
Variable getQualityMetrics : Image -> QualityMetrics N.

(** What [analyzeFace.ts] runs in: its module-level variable [detector],
    the world, and a count of the calls of [createDetector] made so far
    (the code keeps no such count; the properties read it). *)
Record Runtime : Type := {
  detector : option Detector;
  created : nat;
  world : World
}.

(** [getDetector] ([analyzeFace.ts], lines 36 to 45). *)
Definition getDetector : eff Runtime Detector :=
  fun rt =>
    match detector rt with
    | Some d => (rt, Return d)
    | None =>
        let '(w, c) := createDetector (world rt) in
        match c with
        | Return d =>
            ({| detector := Some d; created := S (created rt); world := w |},
             Return d)
        | Throw e =>
            ({| detector := None; created := S (created rt); world := w |},
             Throw e)
        end
    end.

(** [analyzeFace(img)] ([analyzeFace.ts], lines 47 to 142): the two awaited
    calls, then the scoring of [Basic.analyzeFace]. *)
Definition analyzeFace (img : Image) : eff Runtime (Basic.AnalysisResult N) :=
  (det <- getDetector ;;
   faces <- (fun rt =>
               let '(w, c) := estimateFaces det img (world rt) in
               ({| detector := detector rt; created := created rt;
                   world := w |}, c)) ;;
   pure (Basic.analyzeFace faces (getQualityMetrics img)))%eff.

(** The four [useState] cells of [Home]. *)
Record State : Type := {
  image : option string;
  loading : bool;
  result : option (Basic.AnalysisResult N);
  error : option string
}.

Definition setLoading (v : bool) (st : State) : State :=
  {| image := image st; loading := v; result := result st;
     error := error st |}.

Definition setResult (v : option (Basic.AnalysisResult N)) (st : State)
  : State :=
  {| image := image st; loading := loading st; result := v;
     error := error st |}.

Definition setError (v : option string) (st : State) : State :=
  {| image := image st; loading := loading st; result := result st;
     error := v |}.

(** [processImage]; [imageRef_current] is the [img] element, [None] while
    none is mounted. The 100 ms pause and the [console.error] of the source
    leave no trace on the state. *)
Definition processImage (imageRef_current : option Image)
  (st : State) (rt : Runtime) : State * Runtime :=
  match imageRef_current with
  | None => (st, rt)
  | Some img =>
      let st := setLoading true st in
      let st := setError None st in
      let '(rt, analysis) := analyzeFace img rt in
      let st :=
        match analysis with
        | Return analysis => setResult (Some analysis) st
        | Throw err =>
            if String.eqb (message err) "NO_FACE_DETECTED"
            then setError
                   (Some "NO_FACE_DETECTED: Please upload a clear photo of a face."%string)
                   st
            else setError
                   (Some "An error occurred during analysis. Please try again."%string)
                   st
        end in
      let st := setLoading false st in
      (st, rt)
  end.

(** [processImage] run once for each image of [imgs], a run starting when
    the one before has ended (the button is disabled while [loading]). *)
Fixpoint clicks (imgs : list Image) (st : State) (rt : Runtime)
  : State * Runtime :=
  match imgs with
  | [] => (st, rt)
  | img :: imgs' =>
      let '(st', rt') := processImage (Some img) st rt in
      clicks imgs' st' rt'
  end.

End Home.

Arguments Runtime Detector World : clear implicits.
Arguments State N : clear implicits.
Arguments detector {Detector World} r.
Arguments created {Detector World} r.
Arguments world {Detector World} r.
Arguments getDetector {Detector World} createDetector _.
Arguments analyzeFace {N H Image Detector World}
  createDetector estimateFaces getQualityMetrics img _.
Arguments processImage {N H Image Detector World}
  createDetector estimateFaces getQualityMetrics imageRef_current st rt.
Arguments clicks {N H Image Detector World}
  createDetector estimateFaces getQualityMetrics imgs st rt.

(** *** The result card (the component after [Home]) *)

Section Card.
Context {N : Type} `{Number N}.

(** [s.replace(pattern, replacement)] for a string [pattern] and a
    [replacement] without [$]: the first occurrence only. *)
Fixpoint replace (pattern replacement s : string) : string :=
  if String.prefix pattern s
  then replacement
       ++ String.substring (String.length pattern)
            (String.length s - String.length pattern) s
  else match s with
       | EmptyString => EmptyString
       | String c s' => String c (replace pattern replacement s')
       end.

(** [ProgressBar]: the width of the bar, in percent, and its colour. *)
Record Bar : Type := { width_percent : N; bar_color : string }.

Definition ProgressBar (value : N) (color : option string) : Bar :=
  {| width_percent := value;
     bar_color := match color with Some c => c | None => "bg-blue-500"%string end |}.

(** [Metric]: a label, the value shown and its bar. *)
Record Row : Type := { label : string; shown : N; bar : Bar }.

Definition Metric (label : string) (value : N) (color : option string) : Row :=
  {| label := label; shown := value; bar := ProgressBar value color |}.

(** A warning chip: its React key and its text. *)
Record Chip : Type := { key : string; text : string }.

(** What [ResultCard] renders: the headline, the five metrics, and the
    warning block, absent when there is no warning. *)
Record Card : Type := {
  headline : N;
  metrics : list Row;
  warning_block : option (list Chip)
}.

Definition ResultCard (result : Basic.AnalysisResult N) : Card :=
  {| headline := Basic.overall result;
     metrics :=
       [ Metric "Potential" (Basic.potential result) (Some "bg-green-500"%string);
         Metric "Masculinity" (Basic.masculinity result) (Some "bg-blue-600"%string);
         Metric "Skin Quality" (Basic.skin_quality result) (Some "bg-yellow-500"%string);
         Metric "Jawline" (Basic.jawline result) (Some "bg-purple-500"%string);
         Metric "Cheekbones" (Basic.cheekbones result) (Some "bg-pink-500"%string) ];
     warning_block :=
       if Nat.ltb 0%nat (length (Basic.warnings result))
       then Some (map (fun w => {| key := w; text := replace "_" " " w |})
                      (Basic.warnings result))
       else None |}.

End Card.
Arguments Bar N : clear implicits.
Arguments Row N : clear implicits.
Arguments Card N : clear implicits.

End Page.

(** ** What the analyses measure on a face *)

Module Measures.
Section Measures.
Context {N : Type} `{Number N}.
Local Open Scope js_scope.

(** The five distances between landmarks that the four-facet analysis
    takes: [face_width], [face_height], [jaw_width], [cheek_width] and
    [chin_length]. *)
Definition basic_measures (lm : Basic.Landmarks N) : list N :=
  [ Basic.dist (Basic.face_left lm) (Basic.face_right lm);
    Basic.dist (Basic.forehead_top lm) (Basic.chin_bottom lm);
    Basic.dist (Basic.jaw_left lm) (Basic.jaw_right lm);
    Basic.dist (Basic.cheek_left lm) (Basic.cheek_right lm);
    Basic.dist (Basic.mouth_bottom lm) (Basic.chin_bottom lm) ].

(** The distances that the ten-facet analysis takes, in the order of the
    source: the five above, the six from the nose bridge to the outer eye
    corners, cheekbones and jaw corners, the upper and the lower face, the
    three thirds, the five fifths, the nose and the mouth width. *)
Definition extended_distances (lm : Extended.Landmarks N) : list N :=
  [ Extended.dist (Extended.face_left lm) (Extended.face_right lm);
    Extended.dist (Extended.forehead_top lm) (Extended.chin_bottom lm);
    Extended.dist (Extended.jaw_left lm) (Extended.jaw_right lm);
    Extended.dist (Extended.cheek_left lm) (Extended.cheek_right lm);
    Extended.dist (Extended.mouth_bottom lm) (Extended.chin_bottom lm);
    Extended.dist (Extended.nose_center lm) (Extended.eye_left_outer lm);
    Extended.dist (Extended.nose_center lm) (Extended.eye_right_outer lm);
    Extended.dist (Extended.nose_center lm) (Extended.cheek_left lm);
    Extended.dist (Extended.nose_center lm) (Extended.cheek_right lm);
    Extended.dist (Extended.nose_center lm) (Extended.jaw_left lm);
    Extended.dist (Extended.nose_center lm) (Extended.jaw_right lm);
    Extended.dist (Extended.forehead_top lm) (Extended.nose_center lm);
    Extended.dist (Extended.nose_center lm) (Extended.chin_bottom lm);
    Extended.dist (Extended.forehead_top lm) (Extended.nose_base lm);
    Extended.dist (Extended.nose_base lm) (Extended.nose_tip lm);
    Extended.dist (Extended.nose_tip lm) (Extended.chin_bottom lm);
    Extended.dist (Extended.face_left lm) (Extended.eye_right_outer lm);
    Extended.dist (Extended.eye_right_outer lm) (Extended.eye_right_inner lm);
    Extended.dist (Extended.eye_right_inner lm) (Extended.eye_left_inner lm);
    Extended.dist (Extended.eye_left_inner lm) (Extended.eye_left_outer lm);
    Extended.dist (Extended.eye_left_outer lm) (Extended.face_right lm);
    Extended.dist (Extended.nose_left lm) (Extended.nose_right lm);
    Extended.dist (Extended.mouth_left lm) (Extended.mouth_right lm) ].

(** [leftTiltGood] and [rightTiltGood]: is the outer corner of an eye above
    its inner corner. *)
Definition eye_tilts (lm : Extended.Landmarks N) : bool * bool :=
  (y (Extended.eye_left_outer lm) <? y (Extended.eye_left_inner lm),
   y (Extended.eye_right_outer lm) <? y (Extended.eye_right_inner lm)).

End Measures.

(** The numbers of a result, without its warnings (and without the
    landmarks that the ten-facet result echoes). *)
Definition basic_scores {N : Type} (r : Basic.AnalysisResult N) : list N :=
  [ Basic.overall r; Basic.potential r; Basic.masculinity r;
    Basic.skin_quality r; Basic.jawline r; Basic.cheekbones r ].

Definition extended_scores {N : Type} (r : Extended.AnalysisResult N) : list N :=
  [ Extended.overall r; Extended.potential r; Extended.masculinity r;
    Extended.skin_quality r; Extended.jawline r; Extended.cheekbones r;
    Extended.symmetry r; Extended.golden_ratio r; Extended.facial_thirds r;
    Extended.facial_fifths r; Extended.eye_score r; Extended.nose_score r ].

End Measures.

(** ** Skin quality as a function of finite photo metrics *)

Module Photo.
Local Open Scope R_scope.

(** [clamp(100 - |norm(brightness, 80, 170) - 50| * 2, 0, 100)] *)
Definition bright_score (b : R) : R :=
  Spec.clamp (100 - Rabs (Spec.normalize b 80 170 - 50) * 2) 0 100.

(** [0.5 * sharp + 0.3 * contr + 0.2 * clamp(brightScore, 0, 100)] *)
Definition skin_score (s b c : R) : R :=
  0.5 * Spec.normalize s 50 250 + 0.3 * Spec.normalize c 20 70
  + 0.2 * bright_score b.

End Photo.

(** ** Intervals of scores *)

Module Interval.
Local Open Scope R_scope.

(** A value between [lo] and [hi], or [NaN]. *)
Definition between (lo hi : R) (v : Exact.xreal) : Prop :=
  match v with
  | Exact.Fin r => lo <= r <= hi
  | Exact.Nan => True
  | Exact.Inf | Exact.NegInf => False
  end.

(** An integer between [lo] and [hi], or [NaN]. *)
Definition int_between (lo hi : Z) (v : Exact.xreal) : Prop :=
  match v with
  | Exact.Fin r => exists z : Z, r = IZR z /\ (lo <= z <= hi)%Z
  | Exact.Nan => True
  | Exact.Inf | Exact.NegInf => False
  end.

End Interval.

(** ** Reading the landmarks: when the analysis returns and when it throws *)

Section Lookups.
Context {N : Type} `{Number N}.

Lemma index_within (keypoints : list (Point N)) (idx : nat) :
  (idx < length keypoints)%nat -> exists k, index keypoints idx = Some k.
Proof.
  intros Hlt. unfold index.
  destruct (nth_error keypoints idx) as [k|] eqn:E.
  - now exists k.
  - apply nth_error_None in E. lia.
Qed.

Lemma index_beyond (keypoints : list (Point N)) (idx : nat) :
  (length keypoints <= idx)%nat -> index keypoints idx = None.
Proof. intros Hle. unfold index. now apply nth_error_None. Qed.

Lemma basic_getKeypoint_within (keypoints : list (Point N)) (idx : nat) :
  (idx < length keypoints)%nat ->
  Basic.getKeypoint keypoints idx = Return (keypoint_at keypoints idx).
Proof.
  intros Hlt. destruct (index_within keypoints idx Hlt) as [k E].
  unfold Basic.getKeypoint, keypoint_at. now rewrite E.
Qed.

Lemma basic_getKeypoint_beyond (keypoints : list (Point N)) (idx : nat) :
  (length keypoints <= idx)%nat ->
  Basic.getKeypoint keypoints idx = Throw undefined_x.
Proof.
  intros Hle. unfold Basic.getKeypoint. now rewrite index_beyond.
Qed.

Lemma extended_getKeypoint_within (keypoints : list (Point N)) (idx : nat) :
  (idx < length keypoints)%nat ->
  Extended.getKeypoint keypoints idx = Return (keypoint_at keypoints idx).
Proof.
  intros Hlt. destruct (index_within keypoints idx Hlt) as [k E].
  unfold Extended.getKeypoint, keypoint_at. now rewrite E.
Qed.

Lemma extended_getKeypoint_beyond (keypoints : list (Point N)) (idx : nat) :
  (length keypoints <= idx)%nat ->
  Extended.getKeypoint keypoints idx = Throw undefined_x.
Proof.
  intros Hle. unfold Extended.getKeypoint. now rewrite index_beyond.
Qed.

(** A lookup within the sequence hands its point to the rest of the call. *)
Lemma basic_bind_getKeypoint {A : Type} (keypoints : list (Point N)) idx
  (k : Point N -> completion A) :
  (454 < length keypoints)%nat ->
  Nat.leb idx 454 = true ->
  bind (Basic.getKeypoint keypoints idx) k = k (keypoint_at keypoints idx).
Proof.
  intros Hlen Hidx. apply Nat.leb_le in Hidx.
  rewrite basic_getKeypoint_within by lia. reflexivity.
Qed.

Lemma extended_bind_getKeypoint {A : Type} (keypoints : list (Point N)) idx
  (k : Point N -> completion A) :
  (454 < length keypoints)%nat ->
  Nat.leb idx 454 = true ->
  bind (Extended.getKeypoint keypoints idx) k = k (keypoint_at keypoints idx).
Proof.
  intros Hlen Hidx. apply Nat.leb_le in Hidx.
  rewrite extended_getKeypoint_within by lia. reflexivity.
Qed.

(** A lookup past the end throws, whatever would follow. *)
Lemma basic_bind_getKeypoint_beyond {A : Type} (keypoints : list (Point N)) idx
  (k : Point N -> completion A) :
  (length keypoints <= idx)%nat ->
  bind (Basic.getKeypoint keypoints idx) k = Throw undefined_x.
Proof.
  intros Hout. now rewrite basic_getKeypoint_beyond.
Qed.

Lemma extended_bind_getKeypoint_beyond {A : Type} (keypoints : list (Point N))
  idx (k : Point N -> completion A) :
  (length keypoints <= idx)%nat ->
  bind (Extended.getKeypoint keypoints idx) k = Throw undefined_x.
Proof.
  intros Hout. now rewrite extended_getKeypoint_beyond.
Qed.

(** The first lookup that fails ends the call; a lookup that succeeds hands
    its point to the rest. *)
Lemma basic_bind_getKeypoint_cases {A : Type} (keypoints : list (Point N)) idx
  (k : Point N -> completion A) :
  bind (Basic.getKeypoint keypoints idx) k = Throw undefined_x \/
  bind (Basic.getKeypoint keypoints idx) k = k (keypoint_at keypoints idx).
Proof.
  destruct (le_lt_dec (length keypoints) idx) as [Hout|Hin].
  - left. now apply basic_bind_getKeypoint_beyond.
  - right. now rewrite basic_getKeypoint_within.
Qed.

Lemma extended_bind_getKeypoint_cases {A : Type} (keypoints : list (Point N))
  idx (k : Point N -> completion A) :
  bind (Extended.getKeypoint keypoints idx) k = Throw undefined_x \/
  bind (Extended.getKeypoint keypoints idx) k = k (keypoint_at keypoints idx).
Proof.
  destruct (le_lt_dec (length keypoints) idx) as [Hout|Hin].
  - left. now apply extended_bind_getKeypoint_beyond.
  - right. now rewrite extended_getKeypoint_within.
Qed.

Ltac lookup_or_throw :=
  match goal with
  | |- bind (Basic.getKeypoint ?kp ?idx) ?k = _ =>
      destruct (basic_bind_getKeypoint_cases kp idx k) as [Hthrow|Hnext];
      [exact Hthrow | rewrite Hnext; cbv beta; clear Hnext]
  | |- bind (Extended.getKeypoint ?kp ?idx) ?k = _ =>
      destruct (extended_bind_getKeypoint_cases kp idx k) as [Hthrow|Hnext];
      [exact Hthrow | rewrite Hnext; cbv beta; clear Hnext]
  end.

Lemma basic_mapLandmarks_within (keypoints : list (Point N)) :
  (454 < length keypoints)%nat ->
  Basic.mapLandmarks keypoints = Return (basic_landmarks keypoints).
Proof.
  intros Hlen. unfold Basic.mapLandmarks.
  repeat (rewrite (basic_bind_getKeypoint keypoints _ _ Hlen) by reflexivity;
          cbv beta).
  reflexivity.
Qed.

Lemma basic_mapLandmarks_beyond (keypoints : list (Point N)) :
  (length keypoints <= 454)%nat ->
  Basic.mapLandmarks keypoints = Throw undefined_x.
Proof.
  intros Hlen. unfold Basic.mapLandmarks.
  do 3 lookup_or_throw.
  now apply basic_bind_getKeypoint_beyond.
Qed.

Lemma extended_mapLandmarks_within (keypoints : list (Point N)) :
  (454 < length keypoints)%nat ->
  Extended.mapLandmarks keypoints = Return (extended_landmarks keypoints).
Proof.
  intros Hlen. unfold Extended.mapLandmarks.
  repeat (rewrite (extended_bind_getKeypoint keypoints _ _ Hlen) by reflexivity;
          cbv beta).
  reflexivity.
Qed.

Lemma extended_mapLandmarks_beyond (keypoints : list (Point N)) :
  (length keypoints <= 454)%nat ->
  Extended.mapLandmarks keypoints = Throw undefined_x.
Proof.
  intros Hlen. unfold Extended.mapLandmarks.
  do 3 lookup_or_throw.
  now apply extended_bind_getKeypoint_beyond.
Qed.

(** [analyzeFace] on a detected face: it returns the scores of the
    landmarks when index 454 exists, and throws otherwise. *)
Lemma basic_analyzeFace_within keypoints rest (q : QualityMetrics N) :
  (454 < length keypoints)%nat ->
  Basic.analyzeFace (keypoints :: rest) q
  = Return (Basic.score (basic_landmarks keypoints) q).
Proof.
  intros Hlen. unfold Basic.analyzeFace.
  now rewrite basic_mapLandmarks_within.
Qed.

Lemma basic_analyzeFace_beyond keypoints rest (q : QualityMetrics N) :
  (length keypoints <= 454)%nat ->
  Basic.analyzeFace (keypoints :: rest) q = Throw undefined_x.
Proof.
  intros Hlen. unfold Basic.analyzeFace.
  now rewrite basic_mapLandmarks_beyond.
Qed.

Lemma extended_analyzeFace_within keypoints rest (q : QualityMetrics N) :
  (454 < length keypoints)%nat ->
  Extended.analyzeFace (keypoints :: rest) q
  = Return (Extended.score (extended_landmarks keypoints) q keypoints).
Proof.
  intros Hlen. unfold Extended.analyzeFace.
  now rewrite extended_mapLandmarks_within.
Qed.

Lemma extended_analyzeFace_beyond keypoints rest (q : QualityMetrics N) :
  (length keypoints <= 454)%nat ->
  Extended.analyzeFace (keypoints :: rest) q = Throw undefined_x.
Proof.
  intros Hlen. unfold Extended.analyzeFace.
  now rewrite extended_mapLandmarks_beyond.
Qed.

(** A keypoint of a mesh is the point its table places there. *)
Lemma keypoint_at_mesh t d n idx :
  (idx < n)%nat ->
  keypoint_at (N := N) (mesh t d n) idx = point_of (lookup t idx d).
Proof.
  intros Hlt. unfold keypoint_at, index, mesh.
  rewrite nth_error_map, nth_error_seq.
  - destruct (Nat.ltb idx n) eqn:E.
    + reflexivity.
    + apply Nat.ltb_ge in E. lia.
Qed.

Lemma length_mesh t d n : length (mesh (N := N) t d n) = n.
Proof. unfold mesh. now rewrite length_map, length_seq. Qed.

End Lookups.

(** ** The two analyses side by side *)

Section Profiles.
Context {N : Type} `{Number N}.
Local Open Scope js_scope.

(** C3 (as amended). A landmark sequence in which a required index is out of
    range, that is one of at most 454 keypoints, makes both analyses throw
    the [TypeError] of reading [x] of [undefined]: nothing is read past the
    end and no result is returned. The code has no [ContractError], and it
    compares no length with 468 or 478. *)
Theorem out_of_range_throws_TypeError :
  forall (keypoints : list (Point N)) (rest : list (list (Point N)))
         (q : QualityMetrics N),
    (length keypoints <= 454)%nat ->
    Basic.analyzeFace (keypoints :: rest) q = Throw undefined_x /\
    Extended.analyzeFace (keypoints :: rest) q = Throw undefined_x /\
    name undefined_x = "TypeError"%string.
Proof.
  intros keypoints rest q Hlen. split; [|split].
  - now apply basic_analyzeFace_beyond.
  - now apply extended_analyzeFace_beyond.
  - reflexivity.
Qed.

(** A sequence that has all the required indices is scored whatever its
    geometry: both analyses return the scores computed from the unguarded
    quotients, and neither throws. *)
Lemma every_geometry_is_scored :
  forall (keypoints : list (Point N)) (rest : list (list (Point N)))
         (q : QualityMetrics N),
    (454 < length keypoints)%nat ->
    Basic.analyzeFace (keypoints :: rest) q
    = Return (Basic.score (basic_landmarks keypoints) q) /\
    Extended.analyzeFace (keypoints :: rest) q
    = Return (Extended.score (extended_landmarks keypoints) q keypoints).
Proof.
  intros keypoints rest q Hlen. split.
  - now apply basic_analyzeFace_within.
  - now apply extended_analyzeFace_within.
Qed.

(** The only exceptions of the two analyses. *)
Lemma basic_throws_only faces (q : QualityMetrics N) e :
  Basic.analyzeFace faces q = Throw e ->
  e = Error "NO_FACE_DETECTED" \/ e = undefined_x.
Proof.
  destruct faces as [|keypoints rest]; cbn.
  - intros [= <-]. now left.
  - destruct (le_lt_dec (length keypoints) 454) as [Hout|Hin].
    + rewrite basic_mapLandmarks_beyond by assumption. cbn.
      intros [= <-]. now right.
    + rewrite basic_mapLandmarks_within by assumption. cbn. discriminate.
Qed.

Lemma extended_throws_only faces (q : QualityMetrics N) e :
  Extended.analyzeFace faces q = Throw e ->
  e = Error "NO_FACE_DETECTED" \/ e = undefined_x.
Proof.
  destruct faces as [|keypoints rest]; cbn.
  - intros [= <-]. now left.
  - destruct (le_lt_dec (length keypoints) 454) as [Hout|Hin].
    + rewrite extended_mapLandmarks_beyond by assumption. cbn.
      intros [= <-]. now right.
    + rewrite extended_mapLandmarks_within by assumption. cbn. discriminate.
Qed.

(** C5. Whenever the analyses return, [overall] is [Math.round] of the
    weighted sum of the returned facets: weights 0.30, 0.25, 0.20, 0.25 on
    jawline, cheekbones, skin quality and masculinity in the four-facet
    profile, and 0.15 on each of these four, 0.10 on symmetry and on the eye
    score, 0.05 on golden ratio, thirds, fifths and nose score in the
    ten-facet profile. *)
Theorem overall_weights :
  forall (faces : list (list (Point N))) (q : QualityMetrics N)
         (b : Basic.AnalysisResult N) (r : Extended.AnalysisResult N),
    Basic.analyzeFace faces q = Return b ->
    Extended.analyzeFace faces q = Return r ->
    Basic.overall b
    = Math_round (lit 0.30 * Basic.jawline b + lit 0.25 * Basic.cheekbones b +
                  lit 0.20 * Basic.skin_quality b +
                  lit 0.25 * Basic.masculinity b) /\
    Extended.overall r
    = Math_round (lit 0.15 * Extended.jawline r + lit 0.15 * Extended.cheekbones r +
                  lit 0.15 * Extended.skin_quality r +
                  lit 0.15 * Extended.masculinity r +
                  lit 0.10 * Extended.symmetry r +
                  lit 0.05 * Extended.golden_ratio r +
                  lit 0.05 * Extended.facial_thirds r +
                  lit 0.05 * Extended.facial_fifths r +
                  lit 0.10 * Extended.eye_score r +
                  lit 0.05 * Extended.nose_score r).
Proof.
  intros faces q b r Hb Hr.
  destruct faces as [|keypoints rest]; [discriminate Hb|].
  destruct (le_lt_dec (length keypoints) 454) as [Hout|Hin].
  - rewrite basic_analyzeFace_beyond in Hb by assumption. discriminate Hb.
  - rewrite basic_analyzeFace_within in Hb by assumption.
    rewrite extended_analyzeFace_within in Hr by assumption.
    injection Hb as <-. injection Hr as <-. split; reflexivity.
Qed.

(** C10. On the same detected faces and the same quality metrics the two
    analyses fail alike or return alike: the same exception, or results with
    equal jawline, cheekbones, skin quality and masculinity and the same
    warning list, computed with the same photo penalty. The ten-facet result
    also echoes the keypoints it was given. *)
Theorem basic_extended_agree :
  forall (faces : list (list (Point N))) (q : QualityMetrics N),
    Basic.photo_checks q = Extended.photo_checks q /\
    match Basic.analyzeFace faces q, Extended.analyzeFace faces q with
    | Return b, Return r =>
        Basic.jawline b = Extended.jawline r /\
        Basic.cheekbones b = Extended.cheekbones r /\
        Basic.skin_quality b = Extended.skin_quality r /\
        Basic.masculinity b = Extended.masculinity r /\
        Basic.warnings b = Extended.warnings r /\
        Basic.warnings b = snd (Basic.photo_checks q) /\
        [Extended.landmarks r] = firstn 1 faces
    | Throw e1, Throw e2 => e1 = e2
    | _, _ => False
    end.
Proof.
  intros faces q. split; [reflexivity|].
  destruct faces as [|keypoints rest]; [reflexivity|].
  destruct (le_lt_dec (length keypoints) 454) as [Hout|Hin].
  - rewrite basic_analyzeFace_beyond, extended_analyzeFace_beyond by assumption.
    reflexivity.
  - rewrite basic_analyzeFace_within, extended_analyzeFace_within by assumption.
    repeat split; reflexivity.
Qed.

End Profiles.

(** ** Exact arithmetic: the operations on finite values *)

(** Unfolds the operations of the exact instance down to the reals. *)
Ltac xeval :=
  cbv beta iota zeta delta
    [Basic.norm Basic.clamp Extended.norm Extended.clamp
     JS.lit JS.add JS.sub JS.mul JS.div JS.lt JS.le JS.gt
     JS.Math_abs JS.Math_sqrt JS.Math_round JS.Math_max JS.Math_min
     JS.Math_max3 JS.Math_max5 JS.Math_pow2
     Exact.number Exact.xadd Exact.xsub Exact.xmul Exact.xdiv Exact.xlt
     Exact.xle Exact.xabs Exact.xsqrt Exact.xround Exact.xmax Exact.xmin
     Exact.xopp Exact.inf_of_sign Exact.Rltb Exact.Rleb].

(** Decides the tests on reals that the operations leave, innermost
    first. *)
Ltac no_test t :=
  lazymatch t with
  | context [Rle_dec _ _] => fail
  | context [Rlt_dec _ _] => fail
  | context [Req_dec_T _ _] => fail
  | context [Rcase_abs _] => fail
  | _ => idtac
  end.

Ltac rcases :=
  repeat match goal with
  | |- context [Req_dec_T ?a ?b] =>
      no_test a; no_test b; destruct (Req_dec_T a b); try lra
  | |- context [Rlt_dec ?a ?b] =>
      no_test a; no_test b; destruct (Rlt_dec a b); try lra
  | |- context [Rle_dec ?a ?b] =>
      no_test a; no_test b; destruct (Rle_dec a b); try lra
  | |- context [Rcase_abs ?a] =>
      no_test a; destruct (Rcase_abs a); try lra
  end.

Section ExactArithmetic.
Import Exact.
Local Open Scope R_scope.

Lemma Q2R_inject_Z_IZR (z : Z) : Q2R (inject_Z z) = IZR z.
Proof. unfold Q2R. cbn [Qnum Qden inject_Z]. lra. Qed.

Lemma Q2R_100 : Q2R 100 = 100.
Proof. apply Q2R_inject_Z_IZR. Qed.

Lemma Q2R_0 : Q2R 0 = 0.
Proof. apply Q2R_inject_Z_IZR. Qed.

Lemma spec_clamp_range v a b : a <= b -> a <= Spec.clamp v a b <= b.
Proof.
  intros Hab. unfold Spec.clamp, Rmax, Rmin.
  destruct (Rle_dec v b); destruct (Rle_dec a _); lra.
Qed.

Lemma spec_clamp_mono v w a b : v <= w -> Spec.clamp v a b <= Spec.clamp w a b.
Proof.
  intros Hvw. unfold Spec.clamp, Rmax, Rmin.
  destruct (Rle_dec v b); destruct (Rle_dec w b);
    repeat destruct (Rle_dec a _); lra.
Qed.

Lemma spec_clamp_inside v a b : a <= v <= b -> Spec.clamp v a b = v.
Proof.
  intros Hv. unfold Spec.clamp, Rmax, Rmin.
  destruct (Rle_dec v b); destruct (Rle_dec a _); lra.
Qed.

Lemma spec_clamp_below v a b : v <= a -> a <= b -> Spec.clamp v a b = a.
Proof.
  intros Hv Hab. unfold Spec.clamp, Rmax, Rmin.
  destruct (Rle_dec v b); destruct (Rle_dec a _); lra.
Qed.

Lemma spec_clamp_above v a b : b <= v -> a <= b -> Spec.clamp v a b = b.
Proof.
  intros Hv Hab. unfold Spec.clamp, Rmax, Rmin.
  destruct (Rle_dec v b); destruct (Rle_dec a _); lra.
Qed.

(** The linear part of [normalize] and its sign. *)
Lemma slope_sign v lo hi :
  lo < hi ->
  (v <= lo -> (v - lo) / (hi - lo) * 100 <= 0) /\
  (hi <= v -> 100 <= (v - lo) / (hi - lo) * 100) /\
  (lo <= v <= hi -> 0 <= (v - lo) / (hi - lo) * 100 <= 100).
Proof.
  intros Hlt.
  assert (Hd : 0 < / (hi - lo)) by (apply Rinv_0_lt_compat; lra).
  assert (Hone : (hi - lo) * / (hi - lo) = 1) by (apply Rinv_r; lra).
  unfold Rdiv. repeat split; intros; nra.
Qed.

Lemma slope_mono v w lo hi :
  lo < hi -> v <= w ->
  (v - lo) / (hi - lo) * 100 <= (w - lo) / (hi - lo) * 100.
Proof.
  intros Hlt Hvw.
  assert (Hd : 0 < / (hi - lo)) by (apply Rinv_0_lt_compat; lra).
  unfold Rdiv. nra.
Qed.

(** [norm] at each kind of argument, for finite bounds [lo < hi]. *)
Lemma basic_norm_cases lo hi (x : xreal) :
  lo < hi ->
  Basic.norm x (Fin lo) (Fin hi)
  = match x with
    | Fin v => Fin (Spec.normalize v lo hi)
    | Inf => Fin 100
    | NegInf => Fin 0
    | Nan => Nan
    end.
Proof.
  intros Hlt. destruct x as [v| | |]; xeval.
  all: rewrite ?Q2R_100, ?Q2R_0; rcases; try reflexivity.
  f_equal. unfold Rmax. rcases.
Qed.

End ExactArithmetic.

(** ** [norm]: saturation, linearity and monotonicity *)

Section Normalisation.
Import Exact.
Local Open Scope R_scope.

Lemma le_fin a b : le (Fin a) (Fin b) = true <-> a <= b.
Proof.
  cbn. unfold Rleb. destruct (Rle_dec a b); split; intros; try easy.
Qed.

Lemma normalize_range v lo hi : 0 <= Spec.normalize v lo hi <= 100.
Proof. unfold Spec.normalize. apply spec_clamp_range. lra. Qed.

Lemma normalize_mono v w lo hi :
  lo < hi -> v <= w -> Spec.normalize v lo hi <= Spec.normalize w lo hi.
Proof.
  intros Hlt Hvw. unfold Spec.normalize.
  apply spec_clamp_mono. now apply slope_mono.
Qed.

(** C6. For finite bounds [lo < hi], [norm] is the clamped linear map of
    the specification; it does not decrease when its argument grows (in the
    order [<=] of the numbers, infinities included), it is 0 at every
    argument [<= lo], 100 at every argument [>= hi], and the linear
    expression [((x - lo) / (hi - lo)) * 100] in between. The two files
    define the same [norm]. *)
Theorem norm_saturates_and_is_linear :
  forall lo hi : R,
    lo < hi ->
    (forall x, Extended.norm x (Fin lo) (Fin hi) = Basic.norm x (Fin lo) (Fin hi)) /\
    (forall v, Basic.norm (Fin v) (Fin lo) (Fin hi) = Fin (Spec.normalize v lo hi)) /\
    (forall x y,
        le x y = true ->
        le (Basic.norm x (Fin lo) (Fin hi)) (Basic.norm y (Fin lo) (Fin hi)) = true) /\
    (forall x, le x (Fin lo) = true -> Basic.norm x (Fin lo) (Fin hi) = Fin 0) /\
    (forall x, le (Fin hi) x = true -> Basic.norm x (Fin lo) (Fin hi) = Fin 100) /\
    (forall x,
        le (Fin lo) x = true -> le x (Fin hi) = true ->
        Basic.norm x (Fin lo) (Fin hi)
        = mul (div (sub x (Fin lo)) (sub (Fin hi) (Fin lo))) (lit 100)).
Proof.
  intros lo hi Hlt.
  pose proof (slope_sign) as Hs.
  split; [reflexivity|]. split; [|split; [|split; [|split]]].
  - intros v. now rewrite basic_norm_cases.
  - intros x y Hxy. rewrite !basic_norm_cases by assumption.
    destruct x as [v| | |], y as [w| | |]; try discriminate Hxy;
      apply le_fin; try lra.
    + apply normalize_mono; [assumption | now apply le_fin].
    + apply normalize_range.
    + apply normalize_range.
  - intros x Hx. rewrite basic_norm_cases by assumption.
    destruct x as [v| | |]; try discriminate Hx; [|reflexivity].
    apply le_fin in Hx. f_equal. unfold Spec.normalize.
    apply spec_clamp_below; [|lra]. now apply (Hs v lo hi).
  - intros x Hx. rewrite basic_norm_cases by assumption.
    destruct x as [v| | |]; try discriminate Hx; [|reflexivity].
    apply le_fin in Hx. f_equal. unfold Spec.normalize.
    apply spec_clamp_above; [|lra]. now apply (Hs v lo hi).
  - intros x Hlo Hhi. rewrite basic_norm_cases by assumption.
    destruct x as [v| | |]; try discriminate Hlo; try discriminate Hhi.
    apply le_fin in Hlo. apply le_fin in Hhi.
    xeval. rcases. rewrite Q2R_100. f_equal. unfold Spec.normalize.
    apply spec_clamp_inside. apply (Hs v lo hi); [assumption | lra].
Qed.

(** The window of the jaw ratio, 0.60 to 0.85. *)
Lemma norm_saturates_and_is_linear_witness :
  0.60 < 0.85 /\
  (forall x, Extended.norm x (Fin 0.60) (Fin 0.85) = Basic.norm x (Fin 0.60) (Fin 0.85)) /\
  (forall v, Basic.norm (Fin v) (Fin 0.60) (Fin 0.85) = Fin (Spec.normalize v 0.60 0.85)) /\
  (forall x y,
      le x y = true ->
      le (Basic.norm x (Fin 0.60) (Fin 0.85)) (Basic.norm y (Fin 0.60) (Fin 0.85)) = true) /\
  (forall x, le x (Fin 0.60) = true -> Basic.norm x (Fin 0.60) (Fin 0.85) = Fin 0) /\
  (forall x, le (Fin 0.85) x = true -> Basic.norm x (Fin 0.60) (Fin 0.85) = Fin 100) /\
  (forall x,
      le (Fin 0.60) x = true -> le x (Fin 0.85) = true ->
      Basic.norm x (Fin 0.60) (Fin 0.85)
      = mul (div (sub x (Fin 0.60)) (sub (Fin 0.85) (Fin 0.60))) (lit 100)).
Proof.
  assert (H : 0.60 < 0.85) by lra.
  exact (conj H (norm_saturates_and_is_linear 0.60 0.85 H)).
Defined.

End Normalisation.

(** ** The golden-ratio facet *)

Section GoldenRatio.
Import Exact.
Local Open Scope R_scope.

(** [calculateGoldenRatioScore] on a finite ratio: the [Math.max] with 0
    and the final [clamp] of the source amount to the clamp of the
    specification. *)
Lemma golden_fin v :
  Extended.calculateGoldenRatioScore (Fin v) None = Fin (Spec.golden_score v).
Proof.
  unfold Extended.calculateGoldenRatioScore, Extended.PHI. xeval.
  rcases. f_equal. rewrite Q2R_100, Q2R_0.
  unfold Spec.golden_score, Spec.clamp.
  pose proof (Rabs_pos (v - 1.618)) as Habs.
  replace (Q2R 1) with 1 by (symmetry; apply (Q2R_inject_Z_IZR 1)).
  unfold Rmax, Rmin. rcases.
Qed.

Lemma golden_is_100 v : Spec.golden_score v = 100 <-> v = 1.618.
Proof.
  unfold Spec.golden_score, Spec.clamp.
  pose proof (Rabs_pos (v - 1.618)) as Habs.
  split.
  - intros Hs.
    assert (Hz : Rabs (v - 1.618) = 0) by (revert Hs; unfold Rmax, Rmin; rcases).
    destruct (Req_dec_T (v - 1.618) 0) as [E|E]; [lra|].
    now apply Rabs_no_R0 in E.
  - intros ->. replace (1.618 - 1.618) with 0 by lra. rewrite Rabs_R0.
    unfold Rmax, Rmin. rcases.
Qed.

Lemma golden_is_0 v : 0.5 <= Rabs (v - 1.618) -> Spec.golden_score v = 0.
Proof.
  intros Hs. unfold Spec.golden_score, Spec.clamp, Rmax, Rmin. rcases.
Qed.

(** C9. In any arithmetic the golden-ratio facet is [Math.round] of the
    mean of two sub-scores, that of face height over face width and that of
    the segment forehead top to nose bridge over the segment nose bridge to
    chin, and a sub-score is [clamp(max(0, 1 - |ratio - 1.618| / 0.5) * 100,
    0, 100)].  On exact values this is
    [clamp(1 - |ratio - 1.618| / 0.5, 0, 1) * 100]: 100 exactly at 1.618 and
    0 once [|ratio - 1.618| >= 0.5] (also at an infinite ratio).  In
    binary64 the sub-score is 100 at the literal 1.618 and 0 at 1.1 and at
    2.2; on a face 1513 high and 1000 wide, with the nose bridge 756 below
    the forehead and 757 above the chin, the sub-scores are just below 79
    (79 on exact values) and 0, and the facet returned is 39. *)
Theorem golden_ratio_facet :
  (forall (N : Type) (number : Number N) (lm : Extended.Landmarks N) q keypoints,
      Extended.golden_ratio (Extended.score lm q keypoints)
      = Math_round
          (div (add (Extended.calculateGoldenRatioScore
                       (div (Extended.dist (Extended.forehead_top lm)
                                           (Extended.chin_bottom lm))
                            (Extended.dist (Extended.face_left lm)
                                           (Extended.face_right lm)))
                       None)
                    (Extended.calculateGoldenRatioScore
                       (div (Extended.dist (Extended.forehead_top lm)
                                           (Extended.nose_center lm))
                            (Extended.dist (Extended.nose_center lm)
                                           (Extended.chin_bottom lm)))
                       None))
               (lit 2))) /\
  (forall (N : Type) (number : Number N) (ratio : N),
      Extended.calculateGoldenRatioScore ratio None
      = Math_max (lit 0)
          (Math_min
             (mul (Math_max (lit 0)
                     (sub (lit 1)
                          (div (Math_abs (sub ratio (lit 1.618))) (lit 0.5))))
                  (lit 100))
             (lit 100))) /\
  (forall ratio : R,
      Extended.calculateGoldenRatioScore (Fin ratio) None
      = Fin (Spec.golden_score ratio)) /\
  (forall ratio : R,
      Extended.calculateGoldenRatioScore (Fin ratio) None = Fin 100
      <-> ratio = 1.618) /\
  (forall ratio : R,
      0.5 <= Rabs (ratio - 1.618) ->
      Extended.calculateGoldenRatioScore (Fin ratio) None = Fin 0) /\
  Extended.calculateGoldenRatioScore Inf None = Fin 0 /\
  Extended.calculateGoldenRatioScore NegInf None = Fin 0 /\
  Extended.calculateGoldenRatioScore (N := float) (lit 1.618) None = 100%float /\
  Extended.calculateGoldenRatioScore (N := float) (lit 1.1) None = 0%float /\
  Extended.calculateGoldenRatioScore (N := float) (lit 2.2) None = 0%float /\
  (let keypoints := mesh (N := float) golden_tie_face (200, 200)%Z 478 in
   let lm := extended_landmarks keypoints in
   let height := Extended.dist (Extended.forehead_top lm) (Extended.chin_bottom lm) in
   let width := Extended.dist (Extended.face_left lm) (Extended.face_right lm) in
   let upper := Extended.dist (Extended.forehead_top lm) (Extended.nose_center lm) in
   let lower := Extended.dist (Extended.nose_center lm) (Extended.chin_bottom lm) in
   height = 1513%float /\ width = 1000%float /\
   upper = 756%float /\ lower = 757%float /\
   lt (Extended.calculateGoldenRatioScore (div height width) None) 79%float
   = true /\
   Extended.calculateGoldenRatioScore (div upper lower) None = 0%float /\
   bind (Extended.analyzeFace [keypoints] (quality_of 200 120 50))
        (fun r => Return (Extended.golden_ratio r))
   = Return 39%float) /\
  Spec.golden_score (1513 / 1000) = 79 /\
  Spec.golden_score (756 / 757) = 0.
Proof.
  split; [reflexivity|]. split; [reflexivity|]. split; [exact golden_fin|].
  split; [|split; [|split]].
  - intros ratio. rewrite golden_fin. split.
    + intros [= Hs]. now apply golden_is_100.
    + intros Hr. f_equal. now apply golden_is_100.
  - intros ratio Hr. rewrite golden_fin. f_equal. now apply golden_is_0.
  - unfold Extended.calculateGoldenRatioScore, Extended.PHI. xeval. rcases.
    rewrite Q2R_100, Q2R_0. f_equal. unfold Rmax, Rmin. rcases.
  - split.
    { unfold Extended.calculateGoldenRatioScore, Extended.PHI. xeval. rcases.
      rewrite Q2R_100, Q2R_0. f_equal. unfold Rmax, Rmin. rcases. }
    do 3 (split; [vm_compute; reflexivity|]).
    split; [repeat split; vm_compute; reflexivity|].
    split.
    + unfold Spec.golden_score, Spec.clamp.
      replace (Rabs (1513 / 1000 - 1.618)) with 0.105
        by (unfold Rabs; destruct (Rcase_abs (1513 / 1000 - 1.618)); lra).
      unfold Rmax, Rmin. rcases.
    + apply golden_is_0.
      unfold Rabs; destruct (Rcase_abs (756 / 757 - 1.618)); lra.
Qed.

End GoldenRatio.

(** ** Distances and [Math.round] in exact arithmetic *)

Section Distances.
Import Exact.
Local Open Scope R_scope.

Lemma Q2R_int (z : Z) : Q2R (z # 1) = IZR z.
Proof. exact (Q2R_inject_Z_IZR z). Qed.

Lemma point_of_exact (c : Z * Z) :
  point_of (N := xreal) c = pt (IZR (fst c)) (IZR (snd c)).
Proof. unfold point_of, pt. cbn [lit number]. now rewrite !Q2R_inject_Z_IZR. Qed.

Lemma Rdist_nonneg a b c d : 0 <= Rdist a b c d.
Proof. unfold Rdist. apply sqrt_pos. Qed.

(** A distance is known once its square is. *)
Lemma Rdist_eq a b c d l :
  0 <= l -> l * l = (a - c) * (a - c) + (b - d) * (b - d) -> Rdist a b c d = l.
Proof.
  intros Hl Hsq. unfold Rdist. rewrite <- Hsq. now apply sqrt_square.
Qed.

Lemma extended_dist_pt a b c d :
  Extended.dist (pt a b) (pt c d) = Fin (Rdist a b c d).
Proof.
  unfold Extended.dist, pt, Rdist. cbn [x y]. xeval.
  destruct (Rlt_dec _ 0) as [Hneg|_]; [exfalso | reflexivity].
  pose proof (Rle_0_sqr (a - c)) as Ha. pose proof (Rle_0_sqr (b - d)) as Hb.
  unfold Rsqr in Ha, Hb. lra.
Qed.

(** [Math.round] on a finite value, and on an integer. *)
Lemma round_fin v : Math_round (Fin v) = Fin (IZR (Spec.round_half_up v)).
Proof. reflexivity. Qed.

Lemma round_half_up_eq v z : IZR z <= v + / 2 < IZR z + 1 -> Spec.round_half_up v = z.
Proof. intros Hb. unfold Spec.round_half_up. now apply Zfloor_eq. Qed.

Lemma round_half_up_IZR z : Spec.round_half_up (IZR z) = z.
Proof. apply round_half_up_eq. lra. Qed.

Lemma round_half_up_range v : 0 <= v <= 100 ->
  (0 <= Spec.round_half_up v <= 100)%Z.
Proof.
  intros Hv. unfold Spec.round_half_up.
  pose proof (Zfloor_bound (v + / 2)) as [Hlo Hhi].
  split.
  - apply Zfloor_lub. simpl. lra.
  - apply Z.lt_succ_r. apply lt_IZR. rewrite succ_IZR. lra.
Qed.

Lemma round_policies_agree v :
  0 <= v -> Spec.round_half_away v = Spec.round_half_up v.
Proof.
  intros Hv. unfold Spec.round_half_away, Spec.round_half_up.
  destruct (Rle_dec 0 v); [reflexivity | contradiction].
Qed.

End Distances.

(** ** The symmetry facet *)

Section Symmetry.
Import Exact.
Local Open Scope R_scope.

Lemma distance_nonneg p1 p2 : 0 <= distance p1 p2.
Proof. apply Rdist_nonneg. Qed.

Lemma extended_dist_point p1 p2 :
  Extended.dist (point p1) (point p2) = Fin (distance p1 p2).
Proof. apply extended_dist_pt. Qed.

(** [calculateSymmetry] on finite points: the test [average > 0] of the
    source separates the same two cases as [avg = 0] of the specification,
    distances being non-negative. *)
Lemma symmetry_point c l r :
  Extended.calculateSymmetry (point c) (point l) (point r)
  = Fin (Spec.symmetry_score (distance c l) (distance c r)).
Proof.
  unfold Extended.calculateSymmetry. rewrite !extended_dist_point.
  pose proof (distance_nonneg c l) as Hl. pose proof (distance_nonneg c r) as Hr.
  unfold Spec.symmetry_score. xeval. rewrite !Q2R_int.
  rcases; reflexivity.
Qed.

Lemma symmetry_score_100 dL dR :
  0 <= dL -> 0 <= dR -> (Spec.symmetry_score dL dR = 100 <-> dL = dR).
Proof.
  intros HL HR. unfold Spec.symmetry_score.
  destruct (Req_dec_T ((dL + dR) / 2) 0) as [Hz|Hnz].
  - split; [lra | reflexivity].
  - assert (Ha : 0 < (dL + dR) / 2) by lra.
    assert (Hi : 0 < / ((dL + dR) / 2)) by now apply Rinv_0_lt_compat.
    pose proof (Rabs_pos (dL - dR)) as Hp. unfold Rdiv at 1. split.
    + intros Hs.
      assert (Hq : Rabs (dL - dR) * / ((dL + dR) / 2) = 0) by lra.
      apply Rmult_integral in Hq. destruct Hq as [Hq|Hq]; [|lra].
      destruct (Req_dec_T (dL - dR) 0) as [E|E]; [lra|].
      now apply Rabs_no_R0 in E.
    + intros ->. replace (dR - dR) with 0 by lra. rewrite Rabs_R0. lra.
Qed.

Lemma symmetry_score_decreases dL dR dL' dR' :
  (dL + dR) / 2 = (dL' + dR') / 2 ->
  0 < (dL + dR) / 2 ->
  Rabs (dL - dR) < Rabs (dL' - dR') ->
  Spec.symmetry_score dL' dR' < Spec.symmetry_score dL dR.
Proof.
  intros Havg Hpos Hdiff. unfold Spec.symmetry_score. rewrite <- Havg.
  destruct (Req_dec_T ((dL + dR) / 2) 0) as [Hz|_]; [lra|].
  assert (Hi : 0 < / ((dL + dR) / 2)) by now apply Rinv_0_lt_compat.
  unfold Rdiv at 1 3.
  assert (Rabs (dL - dR) * / ((dL + dR) / 2) < Rabs (dL' - dR') * / ((dL + dR) / 2))
    by now apply Rmult_lt_compat_r.
  lra.
Qed.

(** A sub-score is never below -100 nor above 100. *)
Lemma symmetry_score_range dL dR :
  0 <= dL -> 0 <= dR -> -100 <= Spec.symmetry_score dL dR <= 100.
Proof.
  intros HL HR. unfold Spec.symmetry_score.
  destruct (Req_dec_T ((dL + dR) / 2) 0) as [Hz|Hnz]; [lra|].
  assert (Ha : 0 < (dL + dR) / 2) by lra.
  assert (Hi : 0 < / ((dL + dR) / 2)) by now apply Rinv_0_lt_compat.
  assert (Hone : (dL + dR) / 2 * / ((dL + dR) / 2) = 1) by (apply Rinv_r; lra).
  pose proof (Rabs_pos (dL - dR)) as Hp.
  assert (Hb : Rabs (dL - dR) <= 2 * ((dL + dR) / 2)).
  { unfold Rabs. destruct (Rcase_abs (dL - dR)); lra. }
  unfold Rdiv at 1 3. split; nra.
Qed.

(** The facet from the three sub-scores. *)
Lemma symmetry_from_triads lm (q : QualityMetrics xreal) keypoints :
  Extended.symmetry (Extended.score lm q keypoints)
  = Math_round
      (div (add (add (Extended.calculateSymmetry
                        (Extended.nose_center lm)
                        (Extended.eye_left_outer lm)
                        (Extended.eye_right_outer lm))
                     (Extended.calculateSymmetry
                        (Extended.nose_center lm)
                        (Extended.cheek_left lm)
                        (Extended.cheek_right lm)))
                (Extended.calculateSymmetry
                   (Extended.nose_center lm)
                   (Extended.jaw_left lm)
                   (Extended.jaw_right lm)))
           (lit 3)).
Proof. reflexivity. Qed.

Lemma sqrt_of_square_times (k n : R) : 0 <= k -> 0 <= n -> R_sqrt.sqrt (k * k * n) = k * R_sqrt.sqrt n.
Proof.
  intros Hk Hn. rewrite sqrt_mult by nra. now rewrite sqrt_square.
Qed.

(** X18. In any arithmetic the symmetry facet is [Math.round] of the mean of
    the sub-scores of the three triads centred on the nose bridge (outer eye
    corners, cheekbones, jaw corners), and a sub-score is
    [(1 - |dL - dR| / avg) * 100] when [avg > 0] and 100 otherwise.  On
    exact values a sub-score is 100 when the mean of the two distances is 0
    and [(1 - |dL - dR| / avg) * 100] otherwise; it is 100 exactly when the
    two distances are equal; at a fixed positive mean it strictly decreases
    as [|dL - dR|] grows; and [Math.round] of a mean that is not negative is
    that mean rounded half away from zero.  In binary64 [Math.round] sends
    0.5, 1.5, 2.5 and 87.5 to 1, 2, 3 and 88; on the face whose three
    triads measure 17 and 15 times the square root of 10, where the
    sub-scores are 87.5 on exact values, they are just below 87.5 and the
    facet returned is 87. *)
Theorem symmetry_facet :
  (forall (N : Type) (number : Number N) (lm : Extended.Landmarks N) q keypoints,
      Extended.symmetry (Extended.score lm q keypoints)
      = Math_round
          (div (add (add (Extended.calculateSymmetry
                            (Extended.nose_center lm)
                            (Extended.eye_left_outer lm)
                            (Extended.eye_right_outer lm))
                         (Extended.calculateSymmetry
                            (Extended.nose_center lm)
                            (Extended.cheek_left lm)
                            (Extended.cheek_right lm)))
                    (Extended.calculateSymmetry
                       (Extended.nose_center lm)
                       (Extended.jaw_left lm)
                       (Extended.jaw_right lm)))
               (lit 3))) /\
  (forall (N : Type) (number : Number N) (c l r : Point N),
      let dL := Extended.dist c l in
      let dR := Extended.dist c r in
      let avg := div (add dL dR) (lit 2) in
      Extended.calculateSymmetry c l r
      = if gt avg (lit 0)
        then mul (sub (lit 1) (div (Math_abs (sub dL dR)) avg)) (lit 100)
        else lit 100) /\
  (forall c l r,
      Extended.calculateSymmetry (point c) (point l) (point r)
      = Fin (Spec.symmetry_score (distance c l) (distance c r))) /\
  (forall c l r,
      Extended.calculateSymmetry (point c) (point l) (point r) = Fin 100
      <-> distance c l = distance c r) /\
  (forall c l r c' l' r' s s',
      (distance c l + distance c r) / 2 = (distance c' l' + distance c' r') / 2 ->
      0 < (distance c l + distance c r) / 2 ->
      Rabs (distance c l - distance c r) < Rabs (distance c' l' - distance c' r') ->
      Extended.calculateSymmetry (point c) (point l) (point r) = Fin s ->
      Extended.calculateSymmetry (point c') (point l') (point r') = Fin s' ->
      s' < s) /\
  (forall mean : R,
      0 <= mean ->
      Math_round (Fin mean) = Fin (IZR (Spec.round_half_away mean))) /\
  (Math_round 0.5 = 1 /\ Math_round 1.5 = 2 /\ Math_round 2.5 = 3
   /\ Math_round 87.5 = 88)%float /\
  (let keypoints := mesh (N := float) symmetry_tie_face (200, 200)%Z 478 in
   let lm := extended_landmarks keypoints in
   let nose := Extended.nose_center lm in
   lt (Extended.calculateSymmetry nose (Extended.eye_left_outer lm)
                                  (Extended.eye_right_outer lm)) 87.5%float
   = true /\
   lt (Extended.calculateSymmetry nose (Extended.cheek_left lm)
                                  (Extended.cheek_right lm)) 87.5%float
   = true /\
   lt (Extended.calculateSymmetry nose (Extended.jaw_left lm)
                                  (Extended.jaw_right lm)) 87.5%float
   = true /\
   bind (Extended.analyzeFace [keypoints] (quality_of 200 120 50))
        (fun r => Return (Extended.symmetry r))
   = Return 87%float) /\
  distance (200, 200) (217, 251) = 17 * R_sqrt.sqrt 10 /\
  distance (200, 200) (185, 155) = 15 * R_sqrt.sqrt 10 /\
  Spec.symmetry_score (17 * R_sqrt.sqrt 10) (15 * R_sqrt.sqrt 10) = 87.5.
Proof.
  split; [reflexivity|]. split; [reflexivity|].
  split; [exact symmetry_point|]. split; [|split; [|split]].
  - intros c l r. rewrite symmetry_point. split.
    + intros [= Hs].
      now apply (symmetry_score_100 _ _ (distance_nonneg c l) (distance_nonneg c r)).
    + intros Hd. f_equal.
      now apply (symmetry_score_100 _ _ (distance_nonneg c l) (distance_nonneg c r)).
  - intros c l r c' l' r' s s' Havg Hpos Hdiff Hs Hs'.
    rewrite symmetry_point in Hs, Hs'. injection Hs as <-. injection Hs' as <-.
    now apply symmetry_score_decreases.
  - intros mean Hm. rewrite round_fin. do 2 f_equal. symmetry.
    now apply round_policies_agree.
  - split; [repeat split; vm_compute; reflexivity|].
    split; [repeat split; vm_compute; reflexivity|].
    assert (Hs : 0 < R_sqrt.sqrt 10) by (apply sqrt_lt_R0; lra).
    split; [|split].
    + unfold distance, Rdist. cbn [fst snd].
      replace ((200 - 217) * (200 - 217) + (200 - 251) * (200 - 251))
        with (17 * 17 * 10) by ring.
      apply sqrt_of_square_times; lra.
    + unfold distance, Rdist. cbn [fst snd].
      replace ((200 - 185) * (200 - 185) + (200 - 155) * (200 - 155))
        with (15 * 15 * 10) by ring.
      apply sqrt_of_square_times; lra.
    + unfold Spec.symmetry_score.
      destruct (Req_dec_T ((17 * R_sqrt.sqrt 10 + 15 * R_sqrt.sqrt 10) / 2) 0) as [Hz|_]; [lra|].
      replace (17 * R_sqrt.sqrt 10 - 15 * R_sqrt.sqrt 10) with (2 * R_sqrt.sqrt 10) by ring.
      rewrite Rabs_pos_eq by lra.
      replace (2 * R_sqrt.sqrt 10 / ((17 * R_sqrt.sqrt 10 + 15 * R_sqrt.sqrt 10) / 2))
        with (1 / 8) by (field; lra).
      lra.
Qed.

End Symmetry.

(** ** Facial thirds and fifths *)

Section Proportions.
Import Exact.
Local Open Scope R_scope.



(** The deviation score on a finite deviation and a mean other than 0. *)
Lemma deviation_fin dev mean :
  mean <> 0 ->
  Math_max (lit 0) (sub (lit 100) (mul (div (Fin dev) (Fin mean)) (lit 300)))
  = Fin (Spec.deviation_score dev mean).
Proof.
  intros Hm. xeval. rewrite !Q2R_int. rcases.
  unfold Spec.deviation_score. do 2 f_equal. unfold Rdiv. ring.
Qed.



(** The thirds facet from its three segments. *)
Lemma thirds_from_segments lm (q : QualityMetrics xreal) keypoints u m l :
  Extended.dist (Extended.forehead_top lm) (Extended.nose_base lm) = Fin u ->
  Extended.dist (Extended.nose_base lm) (Extended.nose_tip lm) = Fin m ->
  Extended.dist (Extended.nose_tip lm) (Extended.chin_bottom lm) = Fin l ->
  Spec.mean3 u m l <> 0 ->
  Extended.facial_thirds (Extended.score lm q keypoints)
  = Fin (IZR (Spec.round_half_up
                (Spec.deviation_score (Spec.dev_max3 u m l) (Spec.mean3 u m l)))).
Proof.
  intros Hu Hm Hl Hmean.
  change (Extended.facial_thirds (Extended.score lm q keypoints))
    with (let upperThird := Extended.dist (Extended.forehead_top lm) (Extended.nose_base lm) in
          let midThird := Extended.dist (Extended.nose_base lm) (Extended.nose_tip lm) in
          let lowerThird := Extended.dist (Extended.nose_tip lm) (Extended.chin_bottom lm) in
          let avgThird := div (add (add upperThird midThird) lowerThird) (lit 3) in
          let maxDev :=
            Math_max3 (Math_abs (sub upperThird avgThird))
                      (Math_abs (sub midThird avgThird))
                      (Math_abs (sub lowerThird avgThird)) in
          Math_round
            (Math_max (lit 0)
                      (sub (lit 100) (mul (div maxDev avgThird) (lit 300))))).
  cbv zeta. rewrite Hu, Hm, Hl.
  replace (div (add (add (Fin u) (Fin m)) (Fin l)) (lit 3))
    with (Fin (Spec.mean3 u m l)).
  - rewrite <- round_fin, <- deviation_fin by assumption. reflexivity.
  - xeval. rewrite Q2R_int. rcases. reflexivity.
Qed.


Lemma dev_max5_nonneg a b c d e : 0 <= Spec.dev_max5 a b c d e.
Proof.
  unfold Spec.dev_max5.
  eapply Rle_trans; [apply Rabs_pos | apply Rmax_r].
Qed.



End Proportions.

(** ** Concrete faces in exact arithmetic *)

Section MeshPoints.
Import Exact.

Lemma mesh_point t d n idx :
  (idx < n)%nat ->
  keypoint_at (mesh (N := xreal) t d n) idx
  = point (IZR (fst (lookup t idx d)), IZR (snd (lookup t idx d))).
Proof.
  intros Hlt. rewrite keypoint_at_mesh by assumption. apply point_of_exact.
Qed.

End MeshPoints.

(** Looks the landmarks of a mesh up in its table. *)
Ltac place_landmarks :=
  cbn [extended_landmarks basic_landmarks
       Extended.forehead_top Extended.chin_bottom Extended.face_left
       Extended.face_right Extended.cheek_left Extended.cheek_right
       Extended.jaw_left Extended.jaw_right Extended.mouth_bottom
       Extended.eye_right_outer Extended.eye_right_inner
       Extended.eye_left_inner Extended.eye_left_outer Extended.nose_center
       Extended.nose_base Extended.nose_tip Extended.mouth_left
       Extended.mouth_right Extended.nose_left Extended.nose_right
       Basic.forehead_top Basic.chin_bottom Basic.face_left Basic.face_right
       Basic.cheek_left Basic.cheek_right Basic.jaw_left Basic.jaw_right
       Basic.mouth_bottom];
  rewrite !mesh_point by lia;
  cbv [lookup long_face thirds_tie_face turned_face place Nat.eqb fst snd app].

(** The distance between two placed points, from its square. *)
Ltac placed_distance :=
  rewrite extended_dist_point; f_equal;
  unfold Exact.distance; cbn [fst snd]; apply Rdist_eq; lra.

Section TurnedFace.
Import Exact.
Local Open Scope R_scope.

(** The three symmetry sub-scores of the turned face. *)
Lemma turned_face_triads :
  let lm := extended_landmarks (mesh (N := xreal) turned_face (200, 200)%Z 478) in
  Extended.calculateSymmetry (Extended.nose_center lm)
    (Extended.eye_left_outer lm) (Extended.eye_right_outer lm) = Fin (-12.5) /\
  Extended.calculateSymmetry (Extended.nose_center lm)
    (Extended.cheek_left lm) (Extended.cheek_right lm) = Fin (-12.5) /\
  Extended.calculateSymmetry (Extended.nose_center lm)
    (Extended.jaw_left lm) (Extended.jaw_right lm) = Fin (-12.5).
Proof.
  intros lm.
  assert (Hscore : forall dL dR, dL = 125 -> dR = 35 ->
            Spec.symmetry_score dL dR = -12.5).
  { intros dL dR -> ->. unfold Spec.symmetry_score.
    destruct (Req_dec_T _ 0); [lra|].
    rewrite Rabs_pos_eq by lra. lra. }
  subst lm. place_landmarks. rewrite !symmetry_point.
  repeat split; f_equal; apply Hscore;
    unfold distance; cbn [fst snd]; apply Rdist_eq; lra.
Qed.

(** Its symmetry facet, in exact arithmetic. *)
Lemma turned_face_symmetry (q : QualityMetrics xreal) :
  let keypoints := mesh (N := xreal) turned_face (200, 200)%Z 478 in
  Extended.symmetry (Extended.score (extended_landmarks keypoints) q keypoints)
  = Fin (-12).
Proof.
  intros keypoints. destruct turned_face_triads as (Heye & Hcheek & Hjaw).
  rewrite symmetry_from_triads. subst keypoints. rewrite Heye, Hcheek, Hjaw.
  xeval. rewrite Q2R_int.
  destruct (Req_dec_T 3 0); [lra|]. do 2 f_equal.
  apply Zfloor_eq. simpl. lra.
Qed.


End TurnedFace.

Section TurnedFaceProportions.
Import Exact.
Local Open Scope R_scope.




(** Thirds of 80, 80 and 96 pixels: the formula gives 62.5, which
    [Math.round] takes to 63; binary64 computes a value just below 62.5 and
    the analysis returns 62. *)
Lemma thirds_tie_in_both_arithmetics :
  Spec.deviation_score (Spec.dev_max3 80 80 96) (Spec.mean3 80 80 96) = 62.5 /\
  (let tie := mesh (N := xreal) thirds_tie_face (200, 200)%Z 478 in
   Extended.facial_thirds
     (Extended.score (extended_landmarks tie) (quality_of 200 120 50) tie)
   = Fin 63) /\
  (let tie := mesh (N := float) thirds_tie_face (200, 200)%Z 478 in
   bind (Extended.analyzeFace [tie] (quality_of 200 120 50))
        (fun r => Return (Extended.facial_thirds r))
   = Return 62%float).
Proof.
  assert (Hscore : Spec.deviation_score (Spec.dev_max3 80 80 96)
                     (Spec.mean3 80 80 96) = 62.5).
  { unfold Spec.deviation_score, Spec.dev_max3, Spec.mean3, Rmax, Rabs.
    rcases. }
  split; [exact Hscore|]. split; [|vm_compute; reflexivity].
  intros tie. rewrite (thirds_from_segments _ _ _ 80 80 96).
  - rewrite Hscore. do 2 f_equal. apply round_half_up_eq. simpl. lra.
  - subst tie. place_landmarks. placed_distance.
  - subst tie. place_landmarks. placed_distance.
  - subst tie. place_landmarks. placed_distance.
  - unfold Spec.mean3. lra.
Qed.

End TurnedFaceProportions.

(** ** Photo warnings, penalty and potential *)

Section Warnings.
Import Exact.
Local Open Scope R_scope.

Lemma photo_checks_exact (q : QualityMetrics xreal) :
  Basic.photo_checks q
  = (Fin (IZR (Spec.penalty
                 (le (sharpness q) (lit 150))
                 (lt (brightness q) (lit 90) || gt (brightness q) (lit 160))
                 (le (contrast q) (lit 35)))),
     Spec.tags
       (le (sharpness q) (lit 150))
       (lt (brightness q) (lit 90) || gt (brightness q) (lit 160))
       (le (contrast q) (lit 35))).
Proof.
  unfold Basic.photo_checks.
  destruct (le (sharpness q) (lit 150));
    destruct (lt (brightness q) (lit 90) || gt (brightness q) (lit 160))%bool;
    destruct (le (contrast q) (lit 35));
    cbn [Spec.tags app]; xeval; rewrite !Q2R_int;
    do 2 f_equal; unfold Spec.penalty; rewrite !plus_IZR; lra.
Qed.

Lemma tags_NoDup ls bb lc : NoDup (Spec.tags ls bb lc).
Proof.
  destruct ls, bb, lc; cbn [Spec.tags app];
    repeat constructor; cbn [In]; intuition discriminate.
Qed.

Lemma tags_In ls bb lc :
  (In "low_sharpness"%string (Spec.tags ls bb lc) <-> ls = true) /\
  (In "bad_brightness"%string (Spec.tags ls bb lc) <-> bb = true) /\
  (In "low_contrast"%string (Spec.tags ls bb lc) <-> lc = true).
Proof.
  destruct ls, bb, lc; cbn [Spec.tags app In];
    repeat split; intros; try reflexivity; try discriminate;
    intuition discriminate.
Qed.

(** [Math.round] changes nothing in [clamp(overall + photo_penalty, 0, 100)]:
    [overall] comes out of [Math.round] and the penalty is an integer. *)
Lemma round_of_clamped_sum (e : xreal) (k : Z) :
  Math_round (Basic.clamp (add (Math_round e) (Fin (IZR k))) (lit 0) (lit 100))
  = Basic.clamp (add (Math_round e) (Fin (IZR k))) (lit 0) (lit 100).
Proof.
  destruct e as [v| | |]; xeval; rewrite ?Q2R_int; try reflexivity.
  - rewrite <- plus_IZR. unfold Rmax, Rmin.
    rcases; f_equal; exact (f_equal IZR (round_half_up_IZR _)).
  - unfold Rmax. rcases. f_equal. exact (f_equal IZR (round_half_up_IZR 100)).
  - f_equal. exact (f_equal IZR (round_half_up_IZR 0)).
Qed.

(** [potential] from a finite [overall]: the sum with the penalty, clamped
    as the specification words it. *)
Lemma potential_of_overall (e : xreal) (k : Z) (o : R) :
  Math_round e = Fin o ->
  Math_round (Basic.clamp (add (Math_round e) (Fin (IZR k))) (lit 0) (lit 100))
  = Fin (Spec.clamp (o + IZR k) 0 100).
Proof.
  intros Ho. rewrite round_of_clamped_sum, Ho. xeval. now rewrite !Q2R_int.
Qed.

Lemma potential_of_NaN (e : xreal) (k : Z) :
  Math_round e = Nan ->
  Math_round (Basic.clamp (add (Math_round e) (Fin (IZR k))) (lit 0) (lit 100))
  = Nan.
Proof. intros Ho. rewrite round_of_clamped_sum, Ho. reflexivity. Qed.

(** C4. The three tests run in the order sharpness, brightness, contrast.
    The tag [low_sharpness] is pushed, and 15 added, exactly when
    [sharpness <= 150]; [bad_brightness], and 10, exactly when
    [brightness < 90] or [brightness > 160]; [low_contrast], and 10,
    exactly when [contrast <= 35]. No tag is repeated, the penalties add,
    and in both analyses [potential] is [overall + penalty] held between 0
    and 100 ([NaN] when [overall] is).  Sharpness 100, brightness 200 and
    contrast 20 give the three tags and penalty 35.  In binary64, on the
    turned face with that photo the four-facet analysis returns overall 43
    and potential 78, the ten-facet one 35 and 70; on the strong face with a
    photo that is soft and flat, penalty 25, they return overall 91 and 67
    and potential 100 and 92. *)
Theorem photo_warnings_and_penalty :
  forall q : QualityMetrics xreal,
    let low_sharpness := le (sharpness q) (lit 150) in
    let bad_brightness :=
      (lt (brightness q) (lit 90) || gt (brightness q) (lit 160))%bool in
    let low_contrast := le (contrast q) (lit 35) in
    let penalty := Spec.penalty low_sharpness bad_brightness low_contrast in
    Basic.photo_checks q
    = (Fin (IZR penalty), Spec.tags low_sharpness bad_brightness low_contrast) /\
    Extended.photo_checks q = Basic.photo_checks q /\
    (In "low_sharpness"%string (snd (Basic.photo_checks q))
     <-> low_sharpness = true) /\
    (In "bad_brightness"%string (snd (Basic.photo_checks q))
     <-> bad_brightness = true) /\
    (In "low_contrast"%string (snd (Basic.photo_checks q))
     <-> low_contrast = true) /\
    NoDup (snd (Basic.photo_checks q)) /\
    (forall s b c : R,
        sharpness q = Fin s -> brightness q = Fin b -> contrast q = Fin c ->
        (low_sharpness = true <-> s <= 150) /\
        (bad_brightness = true <-> b < 90 \/ 160 < b) /\
        (low_contrast = true <-> c <= 35)) /\
    (forall lm,
        Basic.warnings (Basic.score lm q) = snd (Basic.photo_checks q) /\
        (forall overall : R,
            Basic.overall (Basic.score lm q) = Fin overall ->
            Basic.potential (Basic.score lm q)
            = Fin (Spec.clamp (overall + IZR penalty) 0 100)) /\
        (Basic.overall (Basic.score lm q) = Nan ->
         Basic.potential (Basic.score lm q) = Nan)) /\
    (forall lm keypoints,
        Extended.warnings (Extended.score lm q keypoints)
        = snd (Extended.photo_checks q) /\
        (forall overall : R,
            Extended.overall (Extended.score lm q keypoints) = Fin overall ->
            Extended.potential (Extended.score lm q keypoints)
            = Fin (Spec.clamp (overall + IZR penalty) 0 100)) /\
        (Extended.overall (Extended.score lm q keypoints) = Nan ->
         Extended.potential (Extended.score lm q keypoints) = Nan)) /\
    Basic.photo_checks (N := xreal) (quality_of 100 200 20)
    = (Fin 35, ["low_sharpness"; "bad_brightness"; "low_contrast"]%string) /\
    Basic.photo_checks (N := float) (quality_of 100 200 20)
    = (35%float, ["low_sharpness"; "bad_brightness"; "low_contrast"]%string) /\
    (let basic_run t q :=
       bind (Basic.analyzeFace [mesh (N := float) t (200, 200)%Z 478] q)
            (fun r => Return (Basic.overall r, Basic.potential r,
                              Basic.warnings r)) in
     let extended_run t q :=
       bind (Extended.analyzeFace [mesh (N := float) t (200, 200)%Z 478] q)
            (fun r => Return (Extended.overall r, Extended.potential r,
                              Extended.warnings r)) in
     basic_run turned_face (quality_of 100 200 20)
     = Return (43%float, 78%float,
               ["low_sharpness"; "bad_brightness"; "low_contrast"]%string) /\
     extended_run turned_face (quality_of 100 200 20)
     = Return (35%float, 70%float,
               ["low_sharpness"; "bad_brightness"; "low_contrast"]%string) /\
     basic_run strong_face (quality_of 150 125 35)
     = Return (91%float, 100%float, ["low_sharpness"; "low_contrast"]%string) /\
     extended_run strong_face (quality_of 150 125 35)
     = Return (67%float, 92%float, ["low_sharpness"; "low_contrast"]%string)).
Proof.
  intros q low_sharpness bad_brightness low_contrast penalty.
  pose proof (photo_checks_exact q) as Hchecks.
  fold low_sharpness bad_brightness low_contrast in Hchecks.
  fold penalty in Hchecks.
  pose proof (tags_In low_sharpness bad_brightness low_contrast)
    as (Hs & Hb & Hc).
  split; [exact Hchecks|]. split; [reflexivity|].
  split; [now rewrite Hchecks|]. split; [now rewrite Hchecks|].
  split; [now rewrite Hchecks|].
  split; [rewrite Hchecks; apply tags_NoDup|].
  split; [|split; [|split; [|split; [|split]]]].
  - intros s b c Es Eb Ec. subst low_sharpness bad_brightness low_contrast.
    rewrite Es, Eb, Ec. xeval. rewrite !Q2R_int.
    repeat split; intros Ht; revert Ht; rcases; intros; try easy;
      try (left; lra); try (right; lra); try (destruct Ht; lra).
  - intros lm. split; [reflexivity|].
    assert (Hpot : Basic.potential (Basic.score lm q)
              = Math_round (Basic.clamp (add (Basic.overall (Basic.score lm q))
                                             (Fin (IZR penalty)))
                                        (lit 0) (lit 100))).
    { change (Basic.potential (Basic.score lm q))
        with (Math_round (Basic.clamp (add (Basic.overall (Basic.score lm q))
                                           (fst (Basic.photo_checks q)))
                                      (lit 0) (lit 100))).
      now rewrite Hchecks. }
    split.
    + intros overall Ho. rewrite Hpot. now apply potential_of_overall.
    + intros Ho. rewrite Hpot. now apply potential_of_NaN.
  - intros lm keypoints. split; [reflexivity|].
    assert (Hpot : Extended.potential (Extended.score lm q keypoints)
              = Math_round
                  (Basic.clamp (add (Extended.overall (Extended.score lm q keypoints))
                                    (Fin (IZR penalty)))
                               (lit 0) (lit 100))).
    { change (Extended.potential (Extended.score lm q keypoints))
        with (Math_round
                (Basic.clamp (add (Extended.overall (Extended.score lm q keypoints))
                                  (fst (Basic.photo_checks q)))
                             (lit 0) (lit 100))).
      now rewrite Hchecks. }
    split.
    + intros overall Ho. rewrite Hpot. now apply potential_of_overall.
    + intros Ho. rewrite Hpot. now apply potential_of_NaN.
  - rewrite photo_checks_exact. unfold quality_of.
    cbn [sharpness brightness contrast]. xeval.
    rewrite !Q2R_inject_Z_IZR, !Q2R_int. rcases. reflexivity.
  - vm_compute. reflexivity.
  - cbv zeta. repeat split; vm_compute; reflexivity.
Qed.

End Warnings.

(** ** The range of the scores *)

Section Ranges.
Import Exact.
Local Open Scope R_scope.

Lemma bounded_le h h' v : bounded h v -> h <= h' -> bounded h' v.
Proof. destruct v; cbn; intros; try easy. lra. Qed.

Lemma bounded_add h1 h2 a b :
  bounded h1 a -> bounded h2 b -> bounded (h1 + h2) (add a b).
Proof. destruct a, b; cbn; intros; try easy. lra. Qed.

Lemma bounded_mul_lit q h a :
  0 <= Q2R q -> bounded h a -> bounded (Q2R q * h) (mul (lit q) a).
Proof. destruct a; cbn; intros; try easy. nra. Qed.

Lemma bounded_div_lit q h a :
  0 < Q2R q -> bounded h a -> bounded (h / Q2R q) (div a (lit q)).
Proof.
  intros Hq Ha. destruct a as [r| | |]; cbn in *; try easy.
  destruct (Req_dec_T (Q2R q) 0); [lra|]. cbn.
  assert (Hi : 0 < / Q2R q) by now apply Rinv_0_lt_compat.
  unfold Rdiv. nra.
Qed.

Lemma clamp_bounded x : bounded 100 (Basic.clamp x (lit 0) (lit 100)).
Proof.
  destruct x as [r| | |]; xeval; rewrite ?Q2R_int; cbn; try easy;
    unfold Rmax, Rmin; rcases; lra.
Qed.

Lemma norm_bounded x lo hi :
  Q2R lo < Q2R hi -> bounded 100 (Basic.norm x (lit lo) (lit hi)).
Proof.
  intros Hlt. change (lit lo) with (Fin (Q2R lo)). change (lit hi) with (Fin (Q2R hi)).
  rewrite basic_norm_cases by assumption.
  destruct x as [r| | |]; cbn; try easy; try lra. apply normalize_range.
Qed.

Lemma round_is_score v : bounded 100 v -> is_score (Math_round v).
Proof.
  destruct v as [r| | |]; cbn; try easy. intros Hr.
  exists (Spec.round_half_up r). split; [reflexivity|].
  now apply round_half_up_range.
Qed.

Lemma is_score_bounded v : is_score v -> bounded 100 v.
Proof.
  destruct v as [r| | |]; cbn; try easy. intros (z & -> & Hz).
  split; apply IZR_le; lia.
Qed.

Lemma round_bounded h v : bounded h v -> h <= 100 -> bounded 100 (Math_round v).
Proof.
  intros Hv Hh. apply is_score_bounded, round_is_score.
  now apply bounded_le with (h := h).
Qed.

Lemma choice_bounded (c : bool) q1 q2 :
  0 <= Q2R q1 <= 100 -> 0 <= Q2R q2 <= 100 ->
  bounded 100 (if c then lit q1 else lit q2).
Proof. destruct c; cbn; easy. Qed.

Lemma golden_bounded x o :
  bounded 100 (Extended.calculateGoldenRatioScore x o).
Proof. unfold Extended.calculateGoldenRatioScore. apply clamp_bounded. Qed.

Lemma nonneg_sqrt x : nonneg (Math_sqrt x).
Proof.
  destruct x as [r| | |]; cbn; try easy.
  destruct (Rlt_dec r 0); cbn; [easy | apply sqrt_pos].
Qed.

Lemma nonneg_abs x : nonneg (Math_abs x).
Proof. destruct x as [r| | |]; cbn; try easy. apply Rabs_pos. Qed.

Lemma nonneg_add a b : nonneg a -> nonneg b -> nonneg (add a b).
Proof. destruct a, b; cbn; intros; try easy. lra. Qed.

Lemma nonneg_max a b : nonneg a -> nonneg b -> nonneg (Math_max a b).
Proof.
  destruct a, b; cbn; intros; try easy. unfold Rmax. rcases; lra.
Qed.

Lemma nonneg_div a b : nonneg a -> nonneg b -> nonneg (div a b).
Proof.
  destruct a as [u| | |], b as [v| | |]; cbn; intros Ha Hb; try easy; try lra.
  - destruct (Req_dec_T v 0); [|cbn].
    + destruct (Req_dec_T u 0); [easy|]. unfold inf_of_sign.
      destruct (Rlt_dec 0 u); [easy | lra].
    + assert (Hi : 0 < / v) by (apply Rinv_0_lt_compat; lra).
      unfold Rdiv. nra.
  - destruct (Rle_dec 0 v); [easy | lra].
Qed.

Lemma nonneg_div_lit a q : nonneg a -> 0 < Q2R q -> nonneg (div a (lit q)).
Proof. intros Ha Hq. apply nonneg_div; [assumption | cbn; lra]. Qed.

Lemma nonneg_mul_lit a q : nonneg a -> 0 < Q2R q -> nonneg (mul a (lit q)).
Proof.
  destruct a as [u| | |]; cbn; intros Ha Hq; try easy.
  - nra.
  - destruct (Req_dec_T (Q2R q) 0); [lra|]. unfold inf_of_sign.
    destruct (Rlt_dec 0 (Q2R q)); [easy | lra].
Qed.

(** [Math.max(0, 100 - t)] for a [t] that is not negative. *)
Lemma deviation_bounded t :
  nonneg t -> bounded 100 (Math_max (lit 0) (sub (lit 100) t)).
Proof.
  destruct t as [r| | |]; xeval; rewrite ?Q2R_int; cbn; try easy.
  - intros Hr. unfold Rmax. rcases; lra.
  - lra.
Qed.

(** Builds the bound of a weighted sum of bounded values, by the shape of
    the value. *)
Ltac constants := cbv [Q2R Qnum Qden]; lra.

Ltac bound_step :=
  lazymatch goal with
  | |- bounded _ (Basic.clamp _ _ _) => apply clamp_bounded
  | |- bounded _ (Extended.clamp _ _ _) => apply clamp_bounded
  | |- bounded _ (Extended.calculateGoldenRatioScore _ _) => apply golden_bounded
  | |- bounded _ (Basic.norm _ _ _) => apply norm_bounded; constants
  | |- bounded _ (Extended.norm _ _ _) => apply norm_bounded; constants
  | |- bounded _ (Math_round _) => eapply round_bounded
  | |- bounded _ (add _ _) => eapply bounded_add
  | |- bounded _ (mul (lit _) _) => eapply bounded_mul_lit; [constants|]
  | |- bounded _ (div _ (lit _)) => eapply bounded_div_lit; [constants|]
  | |- bounded _ (if _ then lit _ else lit _) =>
      apply choice_bounded; constants
  end.

Ltac bound := repeat bound_step.

(** Shows a value built from distances not negative. *)
Ltac positive_step :=
  lazymatch goal with
  | |- nonneg (Basic.dist _ _) => apply nonneg_sqrt
  | |- nonneg (Extended.dist _ _) => apply nonneg_sqrt
  | |- nonneg (Math_abs _) => apply nonneg_abs
  | |- nonneg (add _ _) => apply nonneg_add
  | |- nonneg (Math_max _ _) => apply nonneg_max
  | |- nonneg (Math_max3 _ _ _) => unfold Math_max3
  | |- nonneg (Math_max5 _ _ _ _ _) => unfold Math_max5
  | |- nonneg (mul _ (lit _)) => apply nonneg_mul_lit; [|constants]
  | |- nonneg (div _ (lit _)) => apply nonneg_div_lit; [|constants]
  | |- nonneg (div _ _) => apply nonneg_div
  end.

Ltac positive := repeat positive_step.

(** A rounded weighted sum is a score when its weights add up to at most
    one. *)
Ltac scored :=
  apply round_is_score; eapply bounded_le; [bound|]; constants.

(** In the four-facet analysis every score returned is an integer between 0
    and 100, or [NaN]. *)
Lemma basic_scores_in_range (lm : Basic.Landmarks xreal) q :
  is_score (Basic.jawline (Basic.score lm q)) /\
  is_score (Basic.cheekbones (Basic.score lm q)) /\
  is_score (Basic.skin_quality (Basic.score lm q)) /\
  is_score (Basic.masculinity (Basic.score lm q)) /\
  is_score (Basic.overall (Basic.score lm q)) /\
  is_score (Basic.potential (Basic.score lm q)).
Proof.
  repeat match goal with |- _ /\ _ => split end.
  - lazy beta iota zeta delta [Basic.score Basic.jawline]. scored.
  - lazy beta iota zeta delta [Basic.score Basic.cheekbones]. scored.
  - lazy beta iota zeta delta [Basic.score Basic.skin_quality]. scored.
  - lazy beta iota zeta delta [Basic.score Basic.masculinity]. scored.
  - lazy beta iota zeta delta [Basic.score Basic.overall]. scored.
  - lazy beta iota zeta delta [Basic.score Basic.potential].
    apply round_is_score, clamp_bounded.
Qed.

(** In the ten-facet analysis so is every score other than symmetry and
    overall. *)
Lemma extended_scores_in_range (lm : Extended.Landmarks xreal) q keypoints :
  is_score (Extended.jawline (Extended.score lm q keypoints)) /\
  is_score (Extended.cheekbones (Extended.score lm q keypoints)) /\
  is_score (Extended.skin_quality (Extended.score lm q keypoints)) /\
  is_score (Extended.masculinity (Extended.score lm q keypoints)) /\
  is_score (Extended.golden_ratio (Extended.score lm q keypoints)) /\
  is_score (Extended.facial_thirds (Extended.score lm q keypoints)) /\
  is_score (Extended.facial_fifths (Extended.score lm q keypoints)) /\
  is_score (Extended.eye_score (Extended.score lm q keypoints)) /\
  is_score (Extended.nose_score (Extended.score lm q keypoints)) /\
  is_score (Extended.potential (Extended.score lm q keypoints)).
Proof.
  repeat match goal with |- _ /\ _ => split end.
  - lazy beta iota zeta delta [Extended.score Extended.jawline]. scored.
  - lazy beta iota zeta delta [Extended.score Extended.cheekbones]. scored.
  - lazy beta iota zeta delta [Extended.score Extended.skin_quality]. scored.
  - lazy beta iota zeta delta [Extended.score Extended.masculinity]. scored.
  - lazy beta iota zeta delta [Extended.score Extended.golden_ratio]. scored.
  - lazy beta iota zeta delta [Extended.score Extended.facial_thirds].
    apply round_is_score, deviation_bounded. positive.
  - lazy beta iota zeta delta [Extended.score Extended.facial_fifths].
    apply round_is_score, deviation_bounded. positive.
  - lazy beta iota zeta delta [Extended.score Extended.eye_score]. scored.
  - lazy beta iota zeta delta [Extended.score Extended.nose_score]. scored.
  - lazy beta iota zeta delta [Extended.score Extended.potential].
    apply round_is_score, clamp_bounded.
Qed.

(** X1. Every score of the four-facet analysis, and every score of the
    ten-facet analysis other than symmetry and overall, is an integer
    between 0 and 100 or [NaN], whatever the landmarks and the quality
    metrics. *)
Theorem scores_in_range :
  (forall (lm : Basic.Landmarks xreal) (q : QualityMetrics xreal),
      is_score (Basic.jawline (Basic.score lm q)) /\
      is_score (Basic.cheekbones (Basic.score lm q)) /\
      is_score (Basic.skin_quality (Basic.score lm q)) /\
      is_score (Basic.masculinity (Basic.score lm q)) /\
      is_score (Basic.overall (Basic.score lm q)) /\
      is_score (Basic.potential (Basic.score lm q))) /\
  (forall (lm : Extended.Landmarks xreal) (q : QualityMetrics xreal) keypoints,
      is_score (Extended.jawline (Extended.score lm q keypoints)) /\
      is_score (Extended.cheekbones (Extended.score lm q keypoints)) /\
      is_score (Extended.skin_quality (Extended.score lm q keypoints)) /\
      is_score (Extended.masculinity (Extended.score lm q keypoints)) /\
      is_score (Extended.golden_ratio (Extended.score lm q keypoints)) /\
      is_score (Extended.facial_thirds (Extended.score lm q keypoints)) /\
      is_score (Extended.facial_fifths (Extended.score lm q keypoints)) /\
      is_score (Extended.eye_score (Extended.score lm q keypoints)) /\
      is_score (Extended.nose_score (Extended.score lm q keypoints)) /\
      is_score (Extended.potential (Extended.score lm q keypoints))).
Proof.
  split.
  - exact basic_scores_in_range.
  - exact extended_scores_in_range.
Qed.

(** Adding a zero penalty, clamping and rounding leave a score as it is. *)
Lemma clamp_of_score v :
  is_score v ->
  Math_round (Basic.clamp (add v (Fin 0)) (lit 0) (lit 100)) = v.
Proof.
  destruct v as [r| | |]; cbn [is_score]; try easy.
  intros (z & -> & Hlo & Hhi). xeval. rewrite !Q2R_int.
  apply IZR_le in Hlo. apply IZR_le in Hhi.
  replace (Rmax 0 (Rmin (IZR z + 0) 100)) with (IZR z)
    by (unfold Rmax, Rmin; rcases; lra).
  f_equal. exact (f_equal IZR (round_half_up_IZR z)).
Qed.

(** X2. A photo that raises no warning: no tag, no penalty, and [potential]
    equal to [overall] in the four-facet analysis, and in the ten-facet
    analysis whenever [overall] is a score. *)
Theorem clean_photo_potential_is_overall :
  forall q : QualityMetrics xreal,
    le (sharpness q) (lit 150) = false ->
    (lt (brightness q) (lit 90) || gt (brightness q) (lit 160))%bool = false ->
    le (contrast q) (lit 35) = false ->
    Basic.photo_checks q = (Fin 0, []) /\
    Extended.photo_checks q = (Fin 0, []) /\
    (forall lm,
        Basic.potential (Basic.score lm q) = Basic.overall (Basic.score lm q)) /\
    (forall lm keypoints,
        is_score (Extended.overall (Extended.score lm q keypoints)) ->
        Extended.potential (Extended.score lm q keypoints)
        = Extended.overall (Extended.score lm q keypoints)).
Proof.
  intros q Hs Hb Hc.
  assert (Hchecks : Basic.photo_checks q = (Fin 0, [])).
  { rewrite photo_checks_exact, Hs, Hb, Hc. reflexivity. }
  split; [exact Hchecks|]. split; [exact Hchecks|]. split.
  - intros lm.
    change (Basic.potential (Basic.score lm q))
      with (Math_round (Basic.clamp (add (Basic.overall (Basic.score lm q))
                                         (fst (Basic.photo_checks q)))
                                    (lit 0) (lit 100))).
    rewrite Hchecks. cbn [fst].
    destruct (basic_scores_in_range lm q) as (_ & _ & _ & _ & Hscore & _).
    exact (clamp_of_score _ Hscore).
  - intros lm keypoints Hscore.
    change (Extended.potential (Extended.score lm q keypoints))
      with (Math_round
              (Basic.clamp (add (Extended.overall (Extended.score lm q keypoints))
                                (fst (Basic.photo_checks q)))
                           (lit 0) (lit 100))).
    rewrite Hchecks. cbn [fst]. exact (clamp_of_score _ Hscore).
Qed.

(** Sharpness 200, brightness 120, contrast 50. *)
Lemma clean_photo_potential_is_overall_witness :
  let q := quality_of (N := xreal) 200 120 50 in
  le (sharpness q) (lit 150) = false /\
  (lt (brightness q) (lit 90) || gt (brightness q) (lit 160))%bool = false /\
  le (contrast q) (lit 35) = false /\
  Basic.photo_checks q = (Fin 0, []) /\
  Extended.photo_checks q = (Fin 0, []) /\
  (forall lm,
      Basic.potential (Basic.score lm q) = Basic.overall (Basic.score lm q)) /\
  (forall lm keypoints,
      is_score (Extended.overall (Extended.score lm q keypoints)) ->
      Extended.potential (Extended.score lm q keypoints)
      = Extended.overall (Extended.score lm q keypoints)).
Proof.
  intros q.
  assert (Hs : le (sharpness q) (lit 150) = false).
  { subst q. unfold quality_of. cbn [sharpness]. xeval.
    rewrite Q2R_inject_Z_IZR, Q2R_int. rcases; try reflexivity. }
  assert (Hb : (lt (brightness q) (lit 90) || gt (brightness q) (lit 160))%bool
               = false).
  { subst q. unfold quality_of. cbn [brightness]. xeval.
    rewrite !Q2R_inject_Z_IZR, !Q2R_int. rcases; try reflexivity. }
  assert (Hc : le (contrast q) (lit 35) = false).
  { subst q. unfold quality_of. cbn [contrast]. xeval.
    rewrite Q2R_inject_Z_IZR, Q2R_int. rcases; try reflexivity. }
  exact (conj Hs (conj Hb (conj Hc (clean_photo_potential_is_overall q Hs Hb Hc)))).
Defined.

End Ranges.

(** ** Degenerate geometry *)

Section DegenerateGeometry.
Import Exact.
Local Open Scope R_scope.

(** [0/0] in the jaw ratio spreads to every score that reads it. *)
Lemma basic_zero_over_zero (lm : Basic.Landmarks xreal) q :
  Basic.dist (Basic.face_left lm) (Basic.face_right lm) = Fin 0 ->
  Basic.dist (Basic.jaw_left lm) (Basic.jaw_right lm) = Fin 0 ->
  Basic.jawline (Basic.score lm q) = Nan /\
  Basic.masculinity (Basic.score lm q) = Nan /\
  Basic.overall (Basic.score lm q) = Nan /\
  Basic.potential (Basic.score lm q) = Nan.
Proof.
  intros Hface Hjaw.
  assert (Hratio : div (Basic.dist (Basic.jaw_left lm) (Basic.jaw_right lm))
                       (Basic.dist (Basic.face_left lm) (Basic.face_right lm))
                   = Nan).
  { rewrite Hface, Hjaw. xeval. destruct (Req_dec_T 0 0); [reflexivity | lra]. }
  unfold Basic.score. cbv zeta.
  cbn [Basic.jawline Basic.masculinity Basic.overall Basic.potential].
  rewrite !Hratio. repeat split; reflexivity.
Qed.

Lemma extended_zero_over_zero (lm : Extended.Landmarks xreal) q keypoints :
  Extended.dist (Extended.face_left lm) (Extended.face_right lm) = Fin 0 ->
  Extended.dist (Extended.jaw_left lm) (Extended.jaw_right lm) = Fin 0 ->
  Extended.jawline (Extended.score lm q keypoints) = Nan /\
  Extended.masculinity (Extended.score lm q keypoints) = Nan /\
  Extended.overall (Extended.score lm q keypoints) = Nan /\
  Extended.potential (Extended.score lm q keypoints) = Nan.
Proof.
  intros Hface Hjaw.
  assert (Hratio : div (Extended.dist (Extended.jaw_left lm) (Extended.jaw_right lm))
                       (Extended.dist (Extended.face_left lm) (Extended.face_right lm))
                   = Nan).
  { rewrite Hface, Hjaw. xeval. destruct (Req_dec_T 0 0); [reflexivity | lra]. }
  unfold Extended.score. cbv zeta.
  cbn [Extended.jawline Extended.masculinity Extended.overall Extended.potential].
  rewrite !Hratio. repeat split; reflexivity.
Qed.

(** C2 (as amended). No geometry is rejected: on every sequence that has the
    required indices, in any arithmetic, both analyses return the scores
    computed from the unguarded quotients, and the only exceptions they ever
    throw are [NO_FACE_DETECTED] and the [TypeError] of a missing keypoint.
    A quotient of two zero distances is [NaN]: when the face width and the
    jaw width are both zero, jawline, masculinity, overall and potential
    are [NaN]. *)
Theorem degenerate_geometry_is_scored :
  (forall (N : Type) (number : Number N) (keypoints : list (Point N))
          (rest : list (list (Point N))) (q : QualityMetrics N),
      (454 < length keypoints)%nat ->
      Basic.analyzeFace (keypoints :: rest) q
      = Return (Basic.score (basic_landmarks keypoints) q) /\
      Extended.analyzeFace (keypoints :: rest) q
      = Return (Extended.score (extended_landmarks keypoints) q keypoints)) /\
  (forall (N : Type) (number : Number N) (faces : list (list (Point N)))
          (q : QualityMetrics N) (e : exn),
      Basic.analyzeFace faces q = Throw e \/ Extended.analyzeFace faces q = Throw e ->
      e = Error "NO_FACE_DETECTED" \/ e = undefined_x) /\
  (forall (lm : Basic.Landmarks xreal) (q : QualityMetrics xreal),
      Basic.dist (Basic.face_left lm) (Basic.face_right lm) = Fin 0 ->
      Basic.dist (Basic.jaw_left lm) (Basic.jaw_right lm) = Fin 0 ->
      Basic.jawline (Basic.score lm q) = Nan /\
      Basic.masculinity (Basic.score lm q) = Nan /\
      Basic.overall (Basic.score lm q) = Nan /\
      Basic.potential (Basic.score lm q) = Nan) /\
  (forall (lm : Extended.Landmarks xreal) (q : QualityMetrics xreal) keypoints,
      Extended.dist (Extended.face_left lm) (Extended.face_right lm) = Fin 0 ->
      Extended.dist (Extended.jaw_left lm) (Extended.jaw_right lm) = Fin 0 ->
      Extended.jawline (Extended.score lm q keypoints) = Nan /\
      Extended.masculinity (Extended.score lm q keypoints) = Nan /\
      Extended.overall (Extended.score lm q keypoints) = Nan /\
      Extended.potential (Extended.score lm q keypoints) = Nan).
Proof.
  split; [|split; [|split]].
  - intros N number keypoints rest q Hlen. now apply every_geometry_is_scored.
  - intros N number faces q e [Hb|Hx].
    + now apply (basic_throws_only faces q).
    + now apply (extended_throws_only faces q).
  - exact basic_zero_over_zero.
  - exact extended_zero_over_zero.
Qed.

(** A mesh whose 478 keypoints all coincide. *)
Lemma degenerate_geometry_is_scored_witness :
  let keypoints := mesh (N := xreal) [] (0, 0)%Z 478 in
  let q := quality_of (N := xreal) 200 120 50 in
  let lm := extended_landmarks keypoints in
  (454 < length keypoints)%nat /\
  Extended.dist (Extended.face_left lm) (Extended.face_right lm) = Fin 0 /\
  Extended.dist (Extended.jaw_left lm) (Extended.jaw_right lm) = Fin 0 /\
  Extended.analyzeFace [keypoints] q = Return (Extended.score lm q keypoints) /\
  Extended.jawline (Extended.score lm q keypoints) = Nan /\
  Extended.masculinity (Extended.score lm q keypoints) = Nan /\
  Extended.overall (Extended.score lm q keypoints) = Nan /\
  Extended.potential (Extended.score lm q keypoints) = Nan.
Proof.
  intros keypoints q lm.
  assert (Hlen : (454 < length keypoints)%nat)
    by (subst keypoints; rewrite length_mesh; lia).
  assert (Hface : Extended.dist (Extended.face_left lm) (Extended.face_right lm)
                  = Fin 0).
  { subst lm keypoints. place_landmarks. placed_distance. }
  assert (Hjaw : Extended.dist (Extended.jaw_left lm) (Extended.jaw_right lm)
                 = Fin 0).
  { subst lm keypoints. place_landmarks. placed_distance. }
  refine (conj Hlen (conj Hface (conj Hjaw (conj _ _)))).
  - exact (proj2 (proj1 degenerate_geometry_is_scored
                    xreal Exact.number keypoints [] q Hlen)).
  - exact (proj2 (proj2 (proj2 degenerate_geometry_is_scored))
             lm q keypoints Hface Hjaw).
Defined.

End DegenerateGeometry.

(** ** The analyses run on concrete faces, in binary64 *)

Section Runs.
Local Open Scope float_scope.

(** C2, counterexample. A mesh of 478 keypoints that all coincide: every
    denominator distance is zero, and both analyses return a result, in
    which every score that reads a ratio is [NaN]. *)
Lemma collapsed_mesh_is_scored :
  let keypoints := mesh (N := float) [] (0, 0)%Z 478 in
  let q := quality_of (N := float) 200 120 50 in
  let lm := extended_landmarks keypoints in
  Extended.dist (Extended.face_left lm) (Extended.face_right lm) = 0 /\
  Extended.dist (Extended.forehead_top lm) (Extended.chin_bottom lm) = 0 /\
  Extended.dist (Extended.jaw_left lm) (Extended.jaw_right lm) = 0 /\
  Extended.dist (Extended.mouth_left lm) (Extended.mouth_right lm) = 0 /\
  Basic.analyzeFace [keypoints] q
  = Return {| Basic.overall := nan; Basic.potential := nan;
              Basic.masculinity := nan; Basic.skin_quality := 73;
              Basic.jawline := nan; Basic.cheekbones := nan;
              Basic.warnings := [] |} /\
  Extended.analyzeFace [keypoints] q
  = Return {| Extended.overall := nan; Extended.potential := nan;
              Extended.masculinity := nan; Extended.skin_quality := 73;
              Extended.jawline := nan; Extended.cheekbones := nan;
              Extended.symmetry := 100; Extended.golden_ratio := nan;
              Extended.facial_thirds := nan; Extended.facial_fifths := nan;
              Extended.eye_score := nan; Extended.nose_score := nan;
              Extended.warnings := []; Extended.landmarks := keypoints |}.
Proof.
  vm_compute. repeat split.
Qed.

(** C3, counterexample. A sequence of 68 keypoints, as a detector of another
    topology would give: index 152 is out of range, and both analyses throw
    a [TypeError], whose name is not [ContractError]. *)
Lemma short_sequence_throws_TypeError :
  let keypoints := mesh (N := float) turned_face (200, 200)%Z 68 in
  let q := quality_of (N := float) 200 120 50 in
  Basic.analyzeFace [keypoints] q
  = Throw {| name := "TypeError";
             message := "Cannot read properties of undefined (reading 'x')" |} /\
  Extended.analyzeFace [keypoints] q
  = Throw {| name := "TypeError";
             message := "Cannot read properties of undefined (reading 'x')" |} /\
  name undefined_x <> "ContractError"%string.
Proof.
  split; [|split].
  - vm_compute. reflexivity.
  - vm_compute. reflexivity.
  - discriminate.
Qed.

(** The same sequence of 68 keypoints. *)
Lemma out_of_range_throws_TypeError_witness :
  let keypoints := mesh (N := float) turned_face (200, 200)%Z 68 in
  let q := quality_of (N := float) 200 120 50 in
  (length keypoints <= 454)%nat /\
  Basic.analyzeFace [keypoints] q = Throw undefined_x /\
  Extended.analyzeFace [keypoints] q = Throw undefined_x /\
  name undefined_x = "TypeError"%string.
Proof.
  intros keypoints q.
  assert (Hlen : (length keypoints <= 454)%nat).
  { apply Nat.leb_le. vm_compute. reflexivity. }
  exact (conj Hlen (out_of_range_throws_TypeError keypoints [] q Hlen)).
Defined.

(** The turned face, scored by both analyses. *)
Lemma overall_weights_witness :
  let keypoints := mesh (N := float) turned_face (200, 200)%Z 478 in
  let q := quality_of (N := float) 200 120 50 in
  let b := Basic.score (basic_landmarks keypoints) q in
  let r := Extended.score (extended_landmarks keypoints) q keypoints in
  Basic.analyzeFace [keypoints] q = Return b /\
  Extended.analyzeFace [keypoints] q = Return r /\
  Basic.overall b
  = Math_round (lit 0.30 * Basic.jawline b + lit 0.25 * Basic.cheekbones b +
                lit 0.20 * Basic.skin_quality b +
                lit 0.25 * Basic.masculinity b)%js /\
  Extended.overall r
  = Math_round (lit 0.15 * Extended.jawline r + lit 0.15 * Extended.cheekbones r +
                lit 0.15 * Extended.skin_quality r +
                lit 0.15 * Extended.masculinity r +
                lit 0.10 * Extended.symmetry r +
                lit 0.05 * Extended.golden_ratio r +
                lit 0.05 * Extended.facial_thirds r +
                lit 0.05 * Extended.facial_fifths r +
                lit 0.10 * Extended.eye_score r +
                lit 0.05 * Extended.nose_score r)%js.
Proof.
  intros keypoints q b r.
  assert (Hb : Basic.analyzeFace [keypoints] q = Return b)
    by (vm_compute; reflexivity).
  assert (Hr : Extended.analyzeFace [keypoints] q = Return r)
    by (vm_compute; reflexivity).
  exact (conj Hb (conj Hr (overall_weights [keypoints] q b r Hb Hr))).
Defined.

(** C1, at the failing input. The turned face has no zero distance among
    its denominators and its quality metrics raise no warning; the
    ten-facet analysis returns symmetry -12, below the range of a score. The
    same value comes out in exact arithmetic. *)
Theorem turned_face_symmetry_is_negative :
  let keypoints := mesh (N := float) turned_face (200, 200)%Z 478 in
  let q := quality_of (N := float) 200 120 50 in
  let lm := extended_landmarks keypoints in
  Extended.dist (Extended.face_left lm) (Extended.face_right lm) = 190 /\
  Extended.dist (Extended.forehead_top lm) (Extended.chin_bottom lm) = 279 /\
  Extended.dist (Extended.jaw_left lm) (Extended.jaw_right lm) = 120 /\
  Extended.dist (Extended.mouth_left lm) (Extended.mouth_right lm) = 60 /\
  Extended.dist (Extended.eye_right_outer lm) (Extended.eye_right_inner lm) = 11 /\
  Extended.dist (Extended.eye_left_inner lm) (Extended.eye_left_outer lm) = 75 /\
  Extended.dist (Extended.nose_center lm) (Extended.chin_bottom lm) = 139 /\
  Extended.analyzeFace [keypoints] q
  = Return {| Extended.overall := 44; Extended.potential := 44;
              Extended.masculinity := 13; Extended.skin_quality := 73;
              Extended.jawline := 39; Extended.cheekbones := 100;
              Extended.symmetry := -12; Extended.golden_ratio := 35;
              Extended.facial_thirds := 81; Extended.facial_fifths := 0;
              Extended.eye_score := 56; Extended.nose_score := 0;
              Extended.warnings := []; Extended.landmarks := keypoints |} /\
  (-12 <? 0) = true /\
  (let keypoints := mesh (N := Exact.xreal) turned_face (200, 200)%Z 478 in
   Extended.symmetry
     (Extended.score (extended_landmarks keypoints)
                     (quality_of (N := Exact.xreal) 200 120 50) keypoints)
   = Exact.Fin (-12)%R).
Proof.
  intros keypoints q lm.
  repeat (split; [vm_compute; reflexivity|]).
  apply turned_face_symmetry.
Qed.

End Runs.

(** ** The overlay: what [drawAnalysis] does to the canvas *)

Section Drawing.
Context {N : Type} `{Number N}.
Variable Math_PI : N.
Import Eff Visualize.
Local Open Scope eff_scope.
Local Open Scope nat_scope.

Implicit Types (done t : list (call N)) (p : nat -> option (Point N)).

(** *** Steps of the monad *)

Lemma then_ctx {B : Type} (c : call N) (k : unit -> canvas N B) done :
  then_ (ctx c) k done = k tt (done ++ [c]).
Proof. reflexivity. Qed.

Lemma then_return {A B : Type} (m : canvas N A) (k : A -> canvas N B) done done' a :
  m done = (done', Return a) -> then_ m k done = k a done'.
Proof. intros E. unfold then_. now rewrite E. Qed.

Lemma then_throw {A B : Type} (m : canvas N A) (k : A -> canvas N B) done done' e :
  m done = (done', Throw e) -> then_ m k done = (done', Throw e).
Proof. intros E. unfold then_. now rewrite E. Qed.

(** *** A drawing step only adds calls, whatever was drawn before *)

Lemma frames_ret {A : Type} (a : A) done :
  ret a done = (done ++ fst (ret (S := list (call N)) a []), snd (ret (S := list (call N)) a [])).
Proof. cbn. now rewrite app_nil_r. Qed.

Lemma frames_then {A B : Type} (m : canvas N A) (k : A -> canvas N B) :
  (forall done, m done = (done ++ fst (m []), snd (m []))) ->
  (forall a done, k a done = (done ++ fst (k a []), snd (k a []))) ->
  forall done, then_ m k done = (done ++ fst (then_ m k []), snd (then_ m k [])).
Proof.
  intros Hm Hk done. unfold then_. rewrite (Hm done).
  destruct (m []) as [t [a|e]]; cbn [fst snd].
  - rewrite (Hk a (done ++ t)), (Hk a t). cbn [fst snd].
    now rewrite app_assoc.
  - reflexivity.
Qed.

Lemma frames_ctx (c : call N) done :
  ctx c done = (done ++ fst (ctx c []), snd (ctx c [])).
Proof. reflexivity. Qed.

Lemma frames_get_x (o : option (Point N)) done :
  get_x o done = (done ++ fst (get_x o []), snd (get_x o [])).
Proof. destruct o; cbn; now rewrite app_nil_r. Qed.

Lemma frames_get_y (o : option (Point N)) done :
  get_y o done = (done ++ fst (get_y o []), snd (get_y o [])).
Proof. destruct o; cbn; now rewrite app_nil_r. Qed.

Lemma frames_for_each {A : Type} (l : list A) (body : A -> canvas N unit) :
  (forall a done, body a done = (done ++ fst (body a []), snd (body a []))) ->
  forall done,
    for_each l body done = (done ++ fst (for_each l body []), snd (for_each l body [])).
Proof.
  intros Hb. induction l as [|a l IH]; intros done.
  - apply frames_ret.
  - cbn [for_each]. apply frames_then; [apply Hb | intros _; apply IH].
Qed.

Ltac frames :=
  repeat lazymatch goal with
  | |- forall done, then_ _ _ done = _ => apply frames_then; [| intros ?]
  | |- forall done, ctx _ done = _ => apply frames_ctx
  | |- forall done, ret _ done = _ => apply frames_ret
  | |- forall done, get_x _ done = _ => apply frames_get_x
  | |- forall done, get_y _ done = _ => apply frames_get_y
  | |- forall done, for_each _ _ done = _ => apply frames_for_each; intros ?
  | |- forall done, (if ?b then _ else _) done = _ => destruct b
  end.

Lemma frames_drawPath p indices close done :
  drawPath p indices close done
  = (done ++ fst (drawPath p indices close []), snd (drawPath p indices close [])).
Proof. revert done. unfold drawPath. frames. Qed.

Lemma frames_drawHLine (xLeft xRight y : N) done :
  drawHLine xLeft xRight y done
  = (done ++ fst (drawHLine xLeft xRight y []), snd (drawHLine xLeft xRight y [])).
Proof. revert done. unfold drawHLine. frames. Qed.

Lemma frames_drawVLine (yForehead yChin x : N) done :
  drawVLine yForehead yChin x done
  = (done ++ fst (drawVLine yForehead yChin x []), snd (drawVLine yForehead yChin x [])).
Proof. revert done. unfold drawVLine. frames. Qed.

Lemma frames_drawDot p idx done :
  drawDot Math_PI p idx done
  = (done ++ fst (drawDot Math_PI p idx []), snd (drawDot Math_PI p idx [])).
Proof. revert done. unfold drawDot. frames. Qed.

Lemma frames_drawing p width height done :
  drawing Math_PI p width height done
  = (done ++ fst (drawing Math_PI p width height []),
     snd (drawing Math_PI p width height [])).
Proof.
  revert done. unfold drawing.
  repeat lazymatch goal with
  | |- forall done, then_ _ _ done = _ => apply frames_then; [| intros ?]
  | |- forall done, ctx _ done = _ => apply frames_ctx
  | |- forall done, get_x _ done = _ => apply frames_get_x
  | |- forall done, get_y _ done = _ => apply frames_get_y
  | |- forall done, drawPath _ _ _ done = _ => intros done; apply frames_drawPath
  | |- forall done, drawHLine _ _ _ done = _ => intros done; apply frames_drawHLine
  | |- forall done, drawVLine _ _ _ done = _ => intros done; apply frames_drawVLine
  | |- forall done, drawDot _ _ _ done = _ => intros done; apply frames_drawDot
  end.
Qed.

(** *** The drawing reads [landmarks] below index 467 only *)

Lemma then_ext {A B : Type} (m m' : canvas N A) (k k' : A -> canvas N B) :
  (forall done, m done = m' done) ->
  (forall a done, k a done = k' a done) ->
  forall done, then_ m k done = then_ m' k' done.
Proof.
  intros Hm Hk done. unfold then_. rewrite (Hm done).
  destruct (m' done) as [done' [a|e]]; [apply Hk | reflexivity].
Qed.

Lemma for_each_ext {A : Type} (l : list A) (body body' : A -> canvas N unit) :
  (forall a, In a l -> forall done, body a done = body' a done) ->
  forall done, for_each l body done = for_each l body' done.
Proof.
  induction l as [|a l IH]; intros Hb done; [reflexivity|].
  cbn [for_each]. apply then_ext.
  - apply Hb. now left.
  - intros _ done'. apply IH. intros b Hin. apply Hb. now right.
Qed.

Lemma drawPath_ext p p' indices close :
  (forall i, In i indices -> p i = p' i) ->
  forall done, drawPath p indices close done = drawPath p' indices close done.
Proof.
  intros Hp done. unfold drawPath.
  assert (Hfirst : match indices with i :: _ => p i | [] => None end
                   = match indices with i :: _ => p' i | [] => None end).
  { destruct indices as [|i rest]; [reflexivity | apply Hp; now left]. }
  rewrite Hfirst.
  assert (Htl : forall i, In i (tl indices) -> p i = p' i).
  { intros i Hin. apply Hp. destruct indices; [destruct Hin | now right]. }
  revert done.
  repeat (apply then_ext; [intros done; try reflexivity | intros ?]);
    try (intros done; reflexivity).
  apply for_each_ext. intros i Hin done'. now rewrite (Htl i Hin).
Qed.

Lemma drawPath_below (n : nat) p p' indices close :
  forallb (fun i => i <? n) indices = true ->
  (forall i, i < n -> p i = p' i) ->
  forall done, drawPath p indices close done = drawPath p' indices close done.
Proof.
  intros Hall Hp. apply drawPath_ext. intros i Hin. apply Hp.
  rewrite forallb_forall in Hall. apply Nat.ltb_lt. now apply Hall.
Qed.

Lemma drawing_ext p p' width height :
  (forall i, i < 467 -> p i = p' i) ->
  forall done,
    drawing Math_PI p width height done = drawing Math_PI p' width height done.
Proof.
  intros Hp. unfold drawing, drawDot.
  cbv [INDICES.FOREHEAD_TOP INDICES.CHIN_BOTTOM INDICES.NOSE_TIP
       INDICES.FACE_LEFT INDICES.FACE_RIGHT INDICES.EYE_LEFT_OUTER
       INDICES.EYE_RIGHT_OUTER INDICES.EYE_LEFT_INNER INDICES.EYE_RIGHT_INNER].
  rewrite !(Hp 10), !(Hp 9), !(Hp 2), !(Hp 152), !(Hp 234), !(Hp 454),
    !(Hp 33), !(Hp 133), !(Hp 362), !(Hp 263), !(Hp 0), !(Hp 61), !(Hp 291)
    by lia.
  repeat lazymatch goal with
  | |- forall done, then_ (drawPath _ _ _) _ done = _ =>
      apply then_ext;
      [ apply (drawPath_below 467); [reflexivity | exact Hp] | intros ? ]
  | |- forall done, then_ _ _ done = _ =>
      apply then_ext; [ intros done; reflexivity | intros ? ]
  end.
  intros done. reflexivity.
Qed.

(** The points of a sequence long enough, as [p] returns them. *)
Lemma index_keypoint_at (landmarks : list (Point N)) (i : nat) :
  i < length landmarks -> index landmarks i = Some (keypoint_at landmarks i).
Proof.
  intros Hlt. unfold keypoint_at.
  destruct (index_within landmarks i Hlt) as [[a b] E]. now rewrite E.
Qed.

Lemma drawAnalysis_complete (landmarks : list (Point N)) width height done :
  466 < length landmarks ->
  drawAnalysis Math_PI (Some landmarks) width height done
  = (done ++ fst (drawing Math_PI (fun i => Some (keypoint_at landmarks i))
                    width height []),
     snd (drawing Math_PI (fun i => Some (keypoint_at landmarks i))
            width height [])).
Proof.
  intros Hlen. unfold drawAnalysis.
  destruct (Nat.eqb_spec (length landmarks) 0) as [E|_]; [lia|].
  cbv zeta. rewrite frames_drawing.
  rewrite (drawing_ext _ (fun i => Some (keypoint_at landmarks i))); [reflexivity|].
  intros i Hi. apply index_keypoint_at. lia.
Qed.


(** *** What is drawn on a complete mesh *)

(** X3. On a sequence of more than 466 landmarks [drawAnalysis] returns,
    having first cleared the canvas and then issued 214 further calls: 26
    paths, of which 19 are stroked (8 contours, 3 of them closed, 4 + 6
    guide lines and the symmetry axis, 120 line segments in all) and 7 are
    filled dots; every path is begun, built and painted exactly once. What
    was done to the canvas before stays as it was. *)
Theorem complete_mesh_is_drawn (landmarks : list (Point N)) width height done :
  466 < length landmarks ->
  exists t,
    drawAnalysis Math_PI (Some landmarks) width height done
    = (done ++ clearRect (lit 0) (lit 0) width height :: t, Return tt)
    /\ length t = 214
    /\ count Clears t = 0 /\ count Begins t = 26 /\ count Strokes t = 19
    /\ count Fills t = 7 /\ count Arcs t = 7 /\ count Closes t = 3
    /\ count Moves t = 19 /\ count Lines t = 120
    /\ paths_painted false (map kind_of t) = true.
Proof.
  intros Hlen. rewrite (drawAnalysis_complete _ _ _ _ Hlen).
  generalize (keypoint_at landmarks). intros f.
  eexists. split; [vm_compute; reflexivity|].
  vm_compute. repeat split; reflexivity.
Qed.


(** X4. On a complete mesh the guide lines and the dots lie on the
    landmarks that the extended analysis measures: the six vertical guides
    at the [x] of the six points that bound its facial fifths, from the
    forehead's [y] to the chin's; the horizontal guides, from the left face
    edge to the right one, at the [y] of the forehead, of landmark 9 and of
    the chin, the remaining one at the [y] of landmark 2 (the thirds are
    measured to landmark 0); the axis from forehead to chin; the dots on
    forehead, chin, nose tip, outer eye corners and mouth corners. *)
Theorem guides_lie_on_scored_landmarks
  (landmarks : list (Point N)) width height done :
  466 < length landmarks ->
  let lm := extended_landmarks landmarks in
  let at_x (a : Point N) := (x a, y (Extended.forehead_top lm),
                             (x a, y (Extended.chin_bottom lm))) in
  let at_y (a : Point N) := (x (Extended.face_left lm), y a,
                             (x (Extended.face_right lm), y a)) in
  let on (a : Point N) := (x a, y a) in
  let t := fst (drawAnalysis Math_PI (Some landmarks) width height done) in
  segments (skipn (length done) t)
  = [ at_y (Extended.forehead_top lm); at_y (Extended.nose_base lm);
      at_y (keypoint_at landmarks 2); at_y (Extended.chin_bottom lm);
      at_x (Extended.face_left lm); at_x (Extended.eye_right_outer lm);
      at_x (Extended.eye_right_inner lm); at_x (Extended.eye_left_inner lm);
      at_x (Extended.eye_left_outer lm); at_x (Extended.face_right lm);
      (on (Extended.forehead_top lm), on (Extended.chin_bottom lm)) ]
  /\ dots (skipn (length done) t)
     = [ on (Extended.forehead_top lm); on (Extended.chin_bottom lm);
         on (Extended.nose_tip lm); on (Extended.eye_left_outer lm);
         on (Extended.eye_right_outer lm); on (Extended.mouth_left lm);
         on (Extended.mouth_right lm) ].
Proof.
  intros Hlen lm at_x at_y on t. subst t lm at_x at_y on.
  rewrite (drawAnalysis_complete _ _ _ _ Hlen). cbn [fst].
  rewrite skipn_app, Nat.sub_diag, skipn_all. cbn [skipn app].
  unfold extended_landmarks, Extended.forehead_top, Extended.chin_bottom,
    Extended.face_left, Extended.face_right, Extended.nose_base,
    Extended.nose_tip, Extended.eye_right_outer, Extended.eye_right_inner,
    Extended.eye_left_inner, Extended.eye_left_outer, Extended.mouth_left,
    Extended.mouth_right.
  generalize (keypoint_at landmarks). intros f.
  split; vm_compute; reflexivity.
Qed.

(** *** What is drawn on an incomplete mesh *)

Lemma count_app (k : kind) t t' : count k (t ++ t') = count k t + count k t'.
Proof. unfold count. now rewrite filter_app, length_app. Qed.

Lemma quiet_calls t :
  forallb (fun c => match kind_of c with
                    | Fills | Arcs | Dashes => false
                    | _ => true
                    end) t = true -> quiet t.
Proof.
  unfold quiet, count. induction t as [|c t IH]; [now cbn|].
  cbn [forallb filter]. intros [Hc Ht]%andb_prop.
  destruct (IH Ht) as (?&?&?). destruct (kind_of c); try discriminate; now cbn.
Qed.

Lemma quiet_app t t' : quiet t -> quiet t' -> quiet (t ++ t').
Proof. unfold quiet. intros (?&?&?) (?&?&?). rewrite !count_app. lia. Qed.

(** The loop of [drawPath]. *)
Lemma lines_outcome p (l : list nat) done :
  exists t, quiet t /\
    let r := for_each l (fun i =>
               let pt := p i in
               pt_x <- get_x pt ;; pt_y <- get_y pt ;; ctx (lineTo pt_x pt_y))
             done in
    (r = (done ++ t, Return tt) /\ (forall i, In i l -> p i <> None))
    \/ r = (done ++ t, Throw undefined_x).
Proof.
  revert done. induction l as [|i l IH]; intros done.
  - exists []. split; [now apply quiet_calls|]. left. cbn. rewrite app_nil_r.
    split; [reflexivity | intros i []].
  - cbn [for_each]. cbv zeta. destruct (p i) as [k|] eqn:E.
    + destruct (IH (done ++ [lineTo (x k) (y k)])) as (t & Hq & Hr).
      exists ([lineTo (x k) (y k)] ++ t). split.
      { apply quiet_app; [now apply quiet_calls | exact Hq]. }
      cbv zeta in Hr. unfold then_ at 1. cbn.
      rewrite <- app_assoc in Hr.
      destruct Hr as [[Hr Hall]|Hr]; [left | right].
      * split; [exact Hr|]. intros j [<-|Hj]; [congruence | now apply Hall].
      * exact Hr.
    + exists []. split; [now apply quiet_calls|]. right. unfold then_. cbn.
      now rewrite app_nil_r.
Qed.

Lemma drawPath_outcome p indices close done :
  exists t, quiet t /\
    ((drawPath p indices close done = (done ++ t, Return tt)
      /\ forall i, In i indices -> p i <> None)
     \/ drawPath p indices close done = (done ++ t, Throw undefined_x)).
Proof.
  unfold drawPath. rewrite then_ctx.
  destruct indices as [|i0 rest].
  { exists [beginPath]. split; [now apply quiet_calls|]. right. reflexivity. }
  destruct (p i0) as [k|] eqn:E.
  2:{ exists [beginPath]. split; [now apply quiet_calls|]. right. reflexivity. }
  cbn [tl].
  destruct (lines_outcome p rest ((done ++ [beginPath]) ++ [moveTo (x k) (y k)]))
    as (t & Hq & Hr).
  cbv zeta in Hr.
  destruct Hr as [[Hr Hall]|Hr].
  - exists ([beginPath; moveTo (x k) (y k)] ++ t
            ++ (if match close with Some b => b | None => false end
                then [closePath] else []) ++ [stroke]).
    split.
    { repeat apply quiet_app; try assumption; try (now apply quiet_calls).
      destruct (match close with Some b => b | None => false end);
        now apply quiet_calls. }
    left. split.
    + unfold then_ at 1. cbn. unfold then_ at 1. rewrite Hr.
      destruct (match close with Some b => b | None => false end);
        unfold then_, ctx, ret; cbn; rewrite <- !app_assoc; reflexivity.
    + intros j [<-|Hj]; [congruence | now apply Hall].
  - exists ([beginPath; moveTo (x k) (y k)] ++ t). split.
    { apply quiet_app; [now apply quiet_calls | assumption]. }
    right. unfold then_ at 1. cbn. unfold then_ at 1. rewrite Hr.
    rewrite <- !app_assoc. reflexivity.
Qed.


Lemma may_throw_then (m : canvas N unit) (k : unit -> canvas N unit) :
  (forall done, exists t, quiet t /\
     (m done = (done ++ t, Return tt) \/ m done = (done ++ t, Throw undefined_x))) ->
  (forall done, exists t, quiet t /\ k tt done = (done ++ t, Throw undefined_x)) ->
  forall done, exists t,
    quiet t /\ then_ m k done = (done ++ t, Throw undefined_x).
Proof.
  intros Hm Hk done. destruct (Hm done) as (t & Hq & [E|E]).
  - destruct (Hk (done ++ t)) as (t' & Hq' & E').
    exists (t ++ t'). split; [now apply quiet_app|].
    rewrite (then_return _ _ _ _ _ E), E', app_assoc. reflexivity.
  - exists t. split; [exact Hq|]. now rewrite (then_throw _ _ _ _ _ E).
Qed.

Lemma ctx_may_throw (c : call N) :
  quiet [c] ->
  forall done, exists t, quiet t /\
    (ctx c done = (done ++ t, Return tt) \/ ctx c done = (done ++ t, Throw undefined_x)).
Proof. intros Hq done. exists [c]. split; [exact Hq | now left]. Qed.

Lemma drawPath_may_throw p indices close :
  forall done, exists t, quiet t /\
    (drawPath p indices close done = (done ++ t, Return tt)
     \/ drawPath p indices close done = (done ++ t, Throw undefined_x)).
Proof.
  intros done. destruct (drawPath_outcome p indices close done) as (t & Hq & Hr).
  exists t. split; [exact Hq|]. destruct Hr as [[E _]|E]; [now left | now right].
Qed.

Lemma drawPath_must_throw p indices close (k : unit -> canvas N unit) (i : nat) :
  In i indices -> p i = None ->
  forall done, exists t,
    quiet t /\ then_ (drawPath p indices close) k done = (done ++ t, Throw undefined_x).
Proof.
  intros Hin Hp done.
  destruct (drawPath_outcome p indices close done) as (t & Hq & [[_ Hall]|E]).
  - now destruct (Hall i Hin).
  - exists t. split; [exact Hq|]. now rewrite (then_throw _ _ _ _ _ E).
Qed.

Lemma drawAnalysis_incomplete (landmarks : list (Point N)) width height done :
  0 < length landmarks <= 466 ->
  exists t, quiet t /\
    drawAnalysis Math_PI (Some landmarks) width height done
    = (done ++ clearRect (lit 0) (lit 0) width height :: t, Throw undefined_x).
Proof.
  intros [Hpos Hlen]. unfold drawAnalysis.
  destruct (Nat.eqb_spec (length landmarks) 0) as [E|_]; [lia|].
  cbv zeta. unfold drawing. rewrite then_ctx.
  cbv beta.
  match goal with
  | |- exists t, _ /\ ?rest (done ++ [?c]) = _ =>
      enough (Hrest : forall done', exists t, quiet t /\
                rest done' = (done' ++ t, Throw undefined_x))
  end.
  { destruct (Hrest (done ++ [clearRect (lit 0) (lit 0) width height]))
      as (t & Hq & E).
    exists t. split; [exact Hq|]. rewrite E, <- app_assoc. reflexivity. }
  repeat lazymatch goal with
  | |- forall done, exists t, _ /\ then_ (ctx _) _ done = _ =>
      apply may_throw_then;
      [ apply ctx_may_throw; now apply quiet_calls | ]
  | |- forall done, exists t, _ /\ then_ (drawPath _ INDICES.EYE_LEFT _) _ done = _ =>
      apply (drawPath_must_throw _ _ _ _ 466);
      [ cbv [INDICES.EYE_LEFT In]; tauto | apply index_beyond; lia ]
  | |- forall done, exists t, _ /\ then_ (drawPath _ _ _) _ done = _ =>
      apply may_throw_then; [ apply drawPath_may_throw | ]
  end.
Qed.

(** X5. [drawAnalysis] by the number of landmarks: with none (or no array
    at all) it returns and the canvas is left as it was; with 467 or more
    it returns; with 1 to 466 it throws the [TypeError] of reading [x] of
    [undefined], and by then the canvas has been cleared and at most
    contours have been drawn: no dash pattern has been set, no arc drawn
    and nothing filled (the guide lines, the axis and the dots all come
    after the first dash pattern). *)
Theorem drawAnalysis_by_length
  (landmarks : option (list (Point N))) width height done :
  let r := drawAnalysis Math_PI landmarks width height done in
  match landmarks with
  | None => r = (done, Return tt)
  | Some l =>
      (length l = 0 -> r = (done, Return tt))
      /\ (466 < length l -> snd r = Return tt)
      /\ (0 < length l <= 466 ->
          snd r = Throw undefined_x
          /\ exists t,
               fst r = done ++ clearRect (lit 0) (lit 0) width height :: t
               /\ count Fills t = 0 /\ count Arcs t = 0
               /\ count Dashes t = 0)
  end.
Proof.
  intros r. subst r. destruct landmarks as [l|]; [|reflexivity].
  split; [|split].
  - intros E. unfold drawAnalysis. now rewrite E.
  - intros Hlen. now rewrite (drawAnalysis_complete _ _ _ _ Hlen).
  - intros Hlen. destruct (drawAnalysis_incomplete l width height done Hlen)
      as (t & (Hf & Ha & Hd) & E).
    rewrite E. split; [reflexivity|]. exists t. now repeat split.
Qed.


(** X6. The ten-facet analysis hands its caller landmarks that the overlay
    cannot always draw: it accepts every face of more than 454 keypoints
    and echoes them, while [drawAnalysis] on the echoed landmarks returns
    only if there are more than 466 of them and throws the [TypeError]
    otherwise. *)
Theorem analysed_landmarks_may_not_draw
  (keypoints : list (Point N)) rest (q : QualityMetrics N) width height done :
  454 < length keypoints ->
  exists r,
    Extended.analyzeFace (keypoints :: rest) q = Return r
    /\ Extended.landmarks r = keypoints
    /\ snd (drawAnalysis Math_PI (Some (Extended.landmarks r)) width height done)
       = (if 466 <? length keypoints then Return tt else Throw undefined_x).
Proof.
  intros Hlen. eexists. split; [now apply extended_analyzeFace_within|].
  split; [reflexivity|].
  lazy beta iota zeta delta [Extended.score Extended.landmarks].
  destruct (Nat.ltb_spec 466 (length keypoints)) as [Hfull|Hpart].
  - now rewrite (drawAnalysis_complete _ _ _ _ Hfull).
  - destruct (drawAnalysis_incomplete keypoints width height done) as (t & _ & E);
      [lia|].
    now rewrite E.
Qed.

End Drawing.

(** ** The page: what an analysis leaves on the screen *)

Section PageRuns.
Context {N : Type} `{Number N}.
Variables Image Detector World : Type.
Variable createDetector : World -> World * completion Detector.
Variable estimateFaces :
  Detector -> Image -> World -> World * completion (list (list (Point N))).
Variable getQualityMetrics : Image -> QualityMetrics N.
Import Eff Page.
Local Open Scope nat_scope.
Local Open Scope string_scope.

Implicit Types (rt : Runtime Detector World) (st : State N).

Lemma getDetector_cached rt d :
  detector rt = Some d -> getDetector createDetector rt = (rt, Return d).
Proof. intros E. unfold Page.getDetector. now rewrite E. Qed.

Lemma analyzeFace_keeps img rt d :
  detector rt = Some d ->
  let rt' :=
    fst (analyzeFace createDetector estimateFaces getQualityMetrics img rt) in
  detector rt' = Some d /\ created rt' = created rt.
Proof.
  intros E. cbv zeta. unfold Page.analyzeFace, then_.
  rewrite (getDetector_cached rt d E).
  destruct (estimateFaces d img (world rt)) as [w [faces|e]]; cbn; auto.
Qed.

Lemma analyzeFace_creates img rt :
  detector rt = None ->
  let run :=
    analyzeFace createDetector estimateFaces getQualityMetrics img rt in
  created (fst run) = S (created rt)
  /\ (detector (fst run) = None -> exists e, snd run = Throw e).
Proof.
  intros E. cbv zeta.
  unfold Page.analyzeFace, then_, Page.getDetector. rewrite E.
  destruct (createDetector (world rt)) as [w [d|e]]; cbn.
  - destruct (estimateFaces d img w) as [w' [faces|e]]; cbn;
      (split; [reflexivity | discriminate]).
  - split; [reflexivity | intros _; now exists e].
Qed.

Lemma processImage_runtime img st rt :
  snd (processImage createDetector estimateFaces getQualityMetrics
         (Some img) st rt)
  = fst (analyzeFace createDetector estimateFaces getQualityMetrics img rt).
Proof.
  unfold Page.processImage.
  now destruct (analyzeFace createDetector estimateFaces getQualityMetrics
                  img rt) as [rt' [r|e]].
Qed.

(** X7. Whatever the outcome, [processImage] ends with [loading] off and
    the image kept. The result replaces the earlier one and no error is
    shown exactly when a detector is there (or can be created), it finds a
    face, and that face has more than 454 keypoints. With no face the
    NO_FACE_DETECTED message is shown; a face with too few keypoints shows
    the generic message; a failure to create the detector or to estimate
    the faces shows the generic message too, unless the thrown message
    reads NO_FACE_DETECTED. After a failure the earlier result stays. *)
Theorem processImage_shows img st rt :
  let st' :=
    fst (processImage createDetector estimateFaces getQualityMetrics
           (Some img) st rt) in
  let no_face := Some "NO_FACE_DETECTED: Please upload a clear photo of a face." in
  let generic := Some "An error occurred during analysis. Please try again." in
  let failed e :=
    result st' = result st
    /\ error st' = (if String.eqb (message e) "NO_FACE_DETECTED"
                    then no_face else generic) in
  loading st' = false /\ image st' = image st
  /\ match getDetector createDetector rt with
     | (_, Throw e) => failed e
     | (rt1, Return det) =>
         match estimateFaces det img (world rt1) with
         | (_, Throw e) => failed e
         | (_, Return []) => result st' = result st /\ error st' = no_face
         | (_, Return (keypoints :: _)) =>
             if Nat.ltb 454 (length keypoints)
             then result st'
                  = Some (Basic.score (basic_landmarks keypoints)
                                      (getQualityMetrics img))
                  /\ error st' = None
             else result st' = result st /\ error st' = generic
         end
     end.
Proof.
  intros st' no_face generic failed. subst st' failed no_face generic.
  unfold Page.processImage, Page.analyzeFace, then_.
  destruct (getDetector createDetector rt) as [rt1 [det|e]].
  2:{ cbn. destruct (String.eqb (message e) _); cbn; auto. }
  destruct (estimateFaces det img (world rt1)) as [w [faces|e]].
  2:{ cbn. destruct (String.eqb (message e) _); cbn; auto. }
  destruct faces as [|keypoints rest].
  { cbn. auto. }
  unfold pure.
  destruct (Nat.ltb_spec 454 (length keypoints)) as [Hlen|Hlen].
  - rewrite (basic_analyzeFace_within keypoints rest _ Hlen). cbn. auto.
  - rewrite (basic_analyzeFace_beyond keypoints rest _ Hlen). cbn. auto.
Qed.

(** X8. Over any number of analyses run one after the other, a detector
    that exists is kept and no other is created; and as long as none
    exists, every analysis asks for one again and ends in an error. *)
Theorem detector_is_created_once imgs st rt :
  let run := clicks createDetector estimateFaces getQualityMetrics imgs st rt in
  let st' := fst run in
  let rt' := snd run in
  (forall d, detector rt = Some d ->
             detector rt' = Some d /\ created rt' = created rt)
  /\ (detector rt' = None ->
      detector rt = None
      /\ created rt' = created rt + length imgs
      /\ (imgs <> [] -> error st' <> None)).
Proof.
  cbv zeta. revert st rt. induction imgs as [|img imgs IH]; intros st rt.
  - cbn. split; [auto|]. intros E. repeat split; [exact E | lia | congruence].
  - cbn [Page.clicks].
    pose proof (processImage_runtime img st rt) as Hrt.
    destruct (processImage createDetector estimateFaces getQualityMetrics
                (Some img) st rt) as [st1 rt1] eqn:E1.
    cbn [snd] in Hrt. subst rt1.
    destruct (IH st1 (fst (analyzeFace createDetector estimateFaces
                             getQualityMetrics img rt)))
      as [Hkeep Hnone].
    split.
    + intros d Hd. destruct (analyzeFace_keeps img rt d Hd) as [Hd' Hc'].
      destruct (Hkeep d Hd') as [-> ->]. auto.
    + intros E'. destruct (Hnone E') as (Hd1 & Hc & Herr).
      destruct (detector rt) as [d|] eqn:Hd.
      { destruct (analyzeFace_keeps img rt d Hd) as [Hd' _]. congruence. }
      destruct (analyzeFace_creates img rt Hd) as [Hc1 Hthrow].
      split; [reflexivity|]. split; [cbn [length]; lia|].
      intros _. destruct imgs as [|img' imgs'].
      * cbn [Page.clicks fst]. destruct (Hthrow Hd1) as [e He].
        pose proof (f_equal fst E1) as Hst. cbn [fst] in Hst. subst st1.
        unfold Page.processImage.
        destruct (analyzeFace createDetector estimateFaces getQualityMetrics
                    img rt) as [rt2 [r|e']]; [discriminate|].
        cbn. destruct (String.eqb (message e') _); cbn; discriminate.
      * apply Herr. discriminate.
Qed.

End PageRuns.

(** ** The result card *)

Section Cards.
Context {N : Type} `{Number N}.
Import Page.
Local Open Scope string_scope.
Local Open Scope js_scope.

Lemma basic_warnings (lm : Basic.Landmarks N) (q : QualityMetrics N) :
  Basic.warnings (Basic.score lm q)
  = Spec.tags (sharpness q <=? lit 150)
              ((brightness q <? lit 90) || (brightness q >? lit 160))
              (contrast q <=? lit 35).
Proof.
  lazy beta iota zeta delta [Basic.score Basic.warnings].
  unfold Basic.photo_checks, Spec.tags.
  destruct (sharpness q <=? lit 150),
    ((brightness q <? lit 90) || (brightness q >? lit 160)),
    (contrast q <=? lit 35); reflexivity.
Qed.

(** X9. The warning block of the card of an analysis is absent exactly
    when no photo check failed. When it is there it holds one chip for each
    failed check, in the order sharpness, brightness, contrast; the chips
    have distinct React keys, and the text of each is its tag with the
    underscore replaced by a space. *)
Theorem card_warning_chips (lm : Basic.Landmarks N) (q : QualityMetrics N) :
  let low_sharpness := sharpness q <=? lit 150 in
  let bad_brightness := (brightness q <? lit 90) || (brightness q >? lit 160) in
  let low_contrast := contrast q <=? lit 35 in
  match warning_block (ResultCard (Basic.score lm q)) with
  | None =>
      low_sharpness = false /\ bad_brightness = false /\ low_contrast = false
  | Some chips =>
      NoDup (map key chips)
      /\ map (fun c => (key c, text c)) chips
         = ((if low_sharpness then [("low_sharpness", "low sharpness")] else [])
            ++ (if bad_brightness then [("bad_brightness", "bad brightness")] else [])
            ++ (if low_contrast then [("low_contrast", "low contrast")] else []))%list
      /\ chips <> []
  end.
Proof.
  cbv zeta. unfold ResultCard, warning_block. rewrite basic_warnings.
  destruct (sharpness q <=? lit 150),
    ((brightness q <? lit 90) || (brightness q >? lit 160)),
    (contrast q <=? lit 35); cbn;
    repeat split; try discriminate;
    repeat constructor; cbn; intuition discriminate.
Qed.

End Cards.

Section CardBars.
Import Exact Page.

(** X10. On the card of any analysis the headline and the five metrics are
    integers between 0 and 100 (or [NaN]), each bar is as wide, in percent,
    as the number beside it, and the metrics come in the order potential,
    masculinity, skin quality, jawline, cheekbones. *)
Theorem card_bars_fit (lm : Basic.Landmarks xreal) (q : QualityMetrics xreal) :
  let card := ResultCard (Basic.score lm q) in
  is_score (headline card)
  /\ Forall (fun row => is_score (shown row)
                        /\ width_percent (bar row) = shown row) (metrics card)
  /\ map label (metrics card)
     = ["Potential"; "Masculinity"; "Skin Quality"; "Jawline"; "Cheekbones"]%string.
Proof.
  cbv zeta.
  destruct (basic_scores_in_range lm q) as (Hj & Hc & Hs & Hm & Ho & Hp).
  unfold ResultCard, headline, metrics, Metric, ProgressBar.
  split; [exact Ho|]. split; [|reflexivity].
  apply Forall_cons; [split; [exact Hp | reflexivity]|].
  apply Forall_cons; [split; [exact Hm | reflexivity]|].
  apply Forall_cons; [split; [exact Hs | reflexivity]|].
  apply Forall_cons; [split; [exact Hj | reflexivity]|].
  apply Forall_cons; [split; [exact Hc | reflexivity]|].
  apply Forall_nil.
Qed.

End CardBars.

(** ** How far the ten-facet scores can go *)

Ltac constants := cbv [Q2R Qnum Qden]; lra.

Section Extremes.
Import Exact Interval.
Local Open Scope R_scope.

Lemma between_bounded h v : bounded h v -> between 0 h v.
Proof. now destruct v. Qed.

Lemma between_score v : is_score v -> between 0 100 v.
Proof.
  destruct v as [r| | |]; cbn; try easy. intros (z & -> & Hz).
  split; apply IZR_le; lia.
Qed.

Lemma between_int lo hi v : int_between lo hi v -> between (IZR lo) (IZR hi) v.
Proof.
  destruct v as [r| | |]; cbn; try easy. intros (z & -> & Hz).
  split; apply IZR_le; lia.
Qed.

Lemma between_le lo hi lo' hi' v :
  between lo hi v -> lo' <= lo -> hi <= hi' -> between lo' hi' v.
Proof. destruct v; cbn; intros; try easy. lra. Qed.

Lemma between_add l1 h1 l2 h2 a b :
  between l1 h1 a -> between l2 h2 b -> between (l1 + l2) (h1 + h2) (add a b).
Proof. destruct a, b; cbn; intros; try easy. lra. Qed.

Lemma between_mul_lit q lo hi a :
  0 <= Q2R q -> between lo hi a ->
  between (Q2R q * lo) (Q2R q * hi) (mul (lit q) a).
Proof. destruct a; cbn; intros; try easy. nra. Qed.

Lemma between_div_lit q lo hi a :
  0 < Q2R q -> between lo hi a -> between (lo / Q2R q) (hi / Q2R q) (div a (lit q)).
Proof.
  intros Hq Ha. destruct a as [r| | |]; cbn in *; try easy.
  destruct (Req_dec_T (Q2R q) 0); [lra|]. cbn.
  assert (Hi : 0 < / Q2R q) by now apply Rinv_0_lt_compat.
  unfold Rdiv. nra.
Qed.

Lemma between_choice (c : bool) q1 q2 lo hi :
  lo <= Q2R q1 <= hi -> lo <= Q2R q2 <= hi ->
  between lo hi (if c then lit q1 else lit q2).
Proof. destruct c; cbn; easy. Qed.

Lemma round_between lo hi (zl zh : Z) v :
  between lo hi v -> IZR zl - / 2 <= lo -> hi < IZR zh + / 2 ->
  int_between zl zh (Math_round v).
Proof.
  destruct v as [r| | |]; cbn; try easy. intros Hr Hlo Hhi.
  exists (Zfloor (r + / 2)). split; [reflexivity|].
  pose proof (Zfloor_bound (r + / 2)) as [Hf Hc].
  split.
  - apply Zfloor_lub. lra.
  - apply Z.lt_succ_r. apply lt_IZR. rewrite succ_IZR. lra.
Qed.

(** A symmetry sub-score lies between -100 and 100: the two distances
    differ by at most twice their mean. *)
Lemma calculateSymmetry_between (c l r : Point xreal) :
  between (-100) 100 (Extended.calculateSymmetry c l r).
Proof.
  unfold Extended.calculateSymmetry.
  pose proof (nonneg_sqrt
    (add (Math_pow2 (sub (x c) (x l))) (Math_pow2 (sub (y c) (y l))))) as Hl.
  pose proof (nonneg_sqrt
    (add (Math_pow2 (sub (x c) (x r))) (Math_pow2 (sub (y c) (y r))))) as Hr.
  change (nonneg (Extended.dist c l)) in Hl.
  change (nonneg (Extended.dist c r)) in Hr.
  destruct (Extended.dist c l) as [dL| | |], (Extended.dist c r) as [dR| | |];
    cbn in Hl, Hr; try easy; xeval; rewrite ?Q2R_int; rcases; cbn; try lra.
  pose proof (symmetry_score_range dL dR Hl Hr) as Hrange.
  unfold Spec.symmetry_score in Hrange.
  destruct (Req_dec_T ((dL + dR) / 2) 0); [lra | exact Hrange].
Qed.

Ltac between_step :=
  lazymatch goal with
  | |- between _ _ (Extended.calculateSymmetry _ _ _) =>
      apply calculateSymmetry_between
  | |- between _ _ (Extended.norm _ _ _) =>
      apply between_bounded, norm_bounded; constants
  | |- between _ _ (add _ _) => eapply between_add
  | |- between _ _ (mul (lit _) _) => eapply between_mul_lit; [constants|]
  | |- between _ _ (div _ (lit _)) => eapply between_div_lit; [constants|]
  | |- between _ _ (if _ then lit _ else lit _) =>
      apply (between_choice _ _ _ 70 100); constants
  end.

Lemma symmetry_between (lm : Extended.Landmarks xreal) q keypoints :
  int_between (-100) 100 (Extended.symmetry (Extended.score lm q keypoints)).
Proof.
  lazy beta iota zeta delta [Extended.score Extended.symmetry].
  apply (round_between (-100) 100);
    [eapply between_le; [repeat between_step | constants | constants]
    | constants | constants].
Qed.

Lemma eye_score_between (lm : Extended.Landmarks xreal) q keypoints :
  int_between 35 100 (Extended.eye_score (Extended.score lm q keypoints)).
Proof.
  lazy beta iota zeta delta [Extended.score Extended.eye_score].
  apply (round_between 35 100);
    [eapply between_le; [repeat between_step | constants | constants]
    | constants | constants].
Qed.


Lemma extended_overall_formula (lm : Extended.Landmarks xreal) q keypoints :
  let r := Extended.score lm q keypoints in
  Extended.overall r
  = Math_round
      (add (add (add (add (add (add (add (add (add
         (mul (lit 0.15) (Extended.jawline r))
         (mul (lit 0.15) (Extended.cheekbones r)))
         (mul (lit 0.15) (Extended.skin_quality r)))
         (mul (lit 0.15) (Extended.masculinity r)))
         (mul (lit 0.10) (Extended.symmetry r)))
         (mul (lit 0.05) (Extended.golden_ratio r)))
         (mul (lit 0.05) (Extended.facial_thirds r)))
         (mul (lit 0.05) (Extended.facial_fifths r)))
         (mul (lit 0.10) (Extended.eye_score r)))
         (mul (lit 0.05) (Extended.nose_score r))).
Proof. reflexivity. Qed.

Lemma overall_between (lm : Extended.Landmarks xreal) q keypoints :
  int_between (-6) 100 (Extended.overall (Extended.score lm q keypoints)).
Proof.
  rewrite extended_overall_formula. cbv zeta.
  destruct (extended_scores_in_range lm q keypoints)
    as (Hj & Hc & Hs & Hm & Hg & Ht & Hf & _ & Hn & _).
  apply between_score in Hj, Hc, Hs, Hm, Hg, Ht, Hf, Hn.
  pose proof (between_int _ _ _ (symmetry_between lm q keypoints)) as Hsym.
  pose proof (between_int _ _ _ (eye_score_between lm q keypoints)) as He.
  apply (round_between (-6.5) 100);
    [eapply between_le;
       [repeat first [ eapply between_add
                     | eapply between_mul_lit; [constants|] ];
        eassumption
       | constants | constants]
    | constants | constants].
Qed.

(** X11. In the ten-facet analysis, whatever the landmarks and the photo:
    the symmetry facet is an integer between -100 and 100, the eye score an
    integer between 35 and 100, and [overall] an integer between -6 and
    100 (each of them may be [NaN]). The three lower bounds are attained
    together: by the binary64 run on the lopsided face, with sharpness 50,
    brightness 80 and contrast 20. *)
Theorem extended_extremes :
  (forall (lm : Extended.Landmarks xreal) q keypoints,
      let r := Extended.score lm q keypoints in
      int_between (-100) 100 (Extended.symmetry r)
      /\ int_between 35 100 (Extended.eye_score r)
      /\ int_between (-6) 100 (Extended.overall r))
  /\ (let keypoints := mesh (N := float) lopsided_face (0, 0)%Z 478 in
      let r := Extended.score (extended_landmarks keypoints)
                              (quality_of 50 80 20) keypoints in
      Extended.analyzeFace [keypoints] (quality_of 50 80 20) = Return r
      /\ Extended.symmetry r = (-100)%float
      /\ Extended.eye_score r = 35%float
      /\ Extended.overall r = (-6)%float).
Proof.
  split.
  - intros lm q keypoints. cbv zeta. split; [|split].
    + apply symmetry_between.
    + apply eye_score_between.
    + apply overall_between.
  - cbv zeta. repeat split; vm_compute; reflexivity.
Qed.

(** [clamp(overall + penalty, 0, 100)] for an integer [overall] of at most
    100 and a penalty from 0 to 35. *)
Lemma potential_gap (e : xreal) (lo k : Z) :
  (-35 <= lo)%Z -> (0 <= k <= 35)%Z ->
  int_between lo 100 (Math_round e) ->
  match Math_round e with
  | Fin a =>
      exists b,
        Math_round (Basic.clamp (add (Math_round e) (Fin (IZR k)))
                                (lit 0) (lit 100)) = Fin b
        /\ a <= b <= a + 35 /\ 0 <= b <= 100
  | Nan =>
      Math_round (Basic.clamp (add (Math_round e) (Fin (IZR k)))
                              (lit 0) (lit 100)) = Nan
  | Inf | NegInf => False
  end.
Proof.
  intros Hlo Hk Hint. rewrite round_of_clamped_sum.
  destruct (Math_round e) as [a| | |]; cbn in Hint; try easy.
  destruct Hint as (z & -> & Hzl & Hzh).
  apply IZR_le in Hzl, Hzh.
  destruct Hk as [Hk0 Hk1]. apply IZR_le in Hk0, Hk1.
  apply IZR_le in Hlo.
  xeval. rewrite !Q2R_int. eexists. split; [reflexivity|].
  unfold Rmax, Rmin. rcases; lra.
Qed.

Lemma penalty_range a b c : (0 <= Spec.penalty a b c <= 35)%Z.
Proof. destruct a, b, c; cbn; lia. Qed.

(** X12. [potential] is never below [overall] and never more than 35
    above it, and it is an integer between 0 and 100; it is [NaN] exactly
    when [overall] is. In both analyses, for all landmarks and photos. *)
Theorem potential_above_overall (q : QualityMetrics xreal) :
  let gap (overall potential : xreal) :=
    match overall with
    | Fin a => exists b, potential = Fin b /\ a <= b <= a + 35 /\ 0 <= b <= 100
    | Nan => potential = Nan
    | Inf | NegInf => False
    end in
  (forall lm,
      gap (Basic.overall (Basic.score lm q)) (Basic.potential (Basic.score lm q)))
  /\ (forall lm keypoints,
         gap (Extended.overall (Extended.score lm q keypoints))
             (Extended.potential (Extended.score lm q keypoints))).
Proof.
  cbv zeta. pose proof (photo_checks_exact q) as Hchecks. split.
  - intros lm.
    change (Basic.potential (Basic.score lm q))
      with (Math_round (Basic.clamp (add (Basic.overall (Basic.score lm q))
                                         (fst (Basic.photo_checks q)))
                                    (lit 0) (lit 100))).
    rewrite Hchecks. cbn [fst].
    destruct (basic_scores_in_range lm q) as (_ & _ & _ & _ & Hscore & _).
    lazy beta iota zeta delta [Basic.score Basic.overall] in Hscore |- *.
    apply (potential_gap _ 0); [lia | apply penalty_range |].
    destruct (Math_round _) as [a| | |]; cbn in Hscore |- *; easy.
  - intros lm keypoints.
    change (Extended.potential (Extended.score lm q keypoints))
      with (Math_round
              (Basic.clamp (add (Extended.overall (Extended.score lm q keypoints))
                                (fst (Basic.photo_checks q)))
                           (lit 0) (lit 100))).
    rewrite Hchecks. cbn [fst].
    pose proof (overall_between lm q keypoints) as Hint.
    lazy beta iota zeta delta [Extended.score Extended.overall] in Hint |- *.
    apply (potential_gap _ (-6)); [lia | apply penalty_range | exact Hint].
Qed.

End Extremes.

(** ** The analyses read a face through distances *)

Section WhatIsMeasured.
Import Measures.

(** X13. The analyses read the landmarks through distances only: the
    four-facet analysis through five of them, the ten-facet one through
    twenty-three and through the two tests that compare the heights of the
    corners of an eye.  Two sets of landmarks on which these agree get the
    same scores and the same warnings, in any arithmetic.  In binary64 the
    turned face, mirrored left to right and moved 20 pixels down, measures
    the same and is scored the same. *)
Theorem scores_read_distances_only :
  (forall (N : Type) (number : Number N) (q : QualityMetrics N)
          (lm lm' : Basic.Landmarks N),
      basic_measures lm = basic_measures lm' ->
      Basic.score lm q = Basic.score lm' q) /\
  (forall (N : Type) (number : Number N) (q : QualityMetrics N)
          (lm lm' : Extended.Landmarks N) keypoints keypoints',
      extended_distances lm = extended_distances lm' ->
      eye_tilts lm = eye_tilts lm' ->
      extended_scores (Extended.score lm q keypoints)
      = extended_scores (Extended.score lm' q keypoints')
      /\ Extended.warnings (Extended.score lm q keypoints)
         = Extended.warnings (Extended.score lm' q keypoints')) /\
  (let turned := mesh (N := float) turned_face (200, 200)%Z 478 in
   let moved := mesh (N := float) moved_face (200, 200)%Z 478 in
   let q := quality_of (N := float) 200 120 50 in
   keypoint_at turned 234 = point_of (150, 200)%Z /\
   keypoint_at moved 234 = point_of (260, 220)%Z /\
   basic_measures (basic_landmarks moved) = basic_measures (basic_landmarks turned) /\
   extended_distances (extended_landmarks moved)
   = extended_distances (extended_landmarks turned) /\
   eye_tilts (extended_landmarks moved) = eye_tilts (extended_landmarks turned) /\
   bind (Basic.analyzeFace [moved] q) (fun r => Return (basic_scores r))
   = bind (Basic.analyzeFace [turned] q) (fun r => Return (basic_scores r)) /\
   bind (Extended.analyzeFace [moved] q) (fun r => Return (extended_scores r))
   = bind (Extended.analyzeFace [turned] q) (fun r => Return (extended_scores r))).
Proof.
  split; [|split].
  - intros N number q lm lm' Hm.
    injection Hm as H1 H2 H3 H4 H5.
    unfold Basic.score. now rewrite H1, H2, H3, H4, H5.
  - intros N number q lm lm' keypoints keypoints' Hd Ht.
    injection Hd as H1 H2 H3 H4 H5 H6 H7 H8 H9 H10 H11 H12 H13 H14 H15 H16
                    H17 H18 H19 H20 H21 H22 H23.
    injection Ht as T1 T2.
    split; [|reflexivity].
    unfold extended_scores.
    cbv beta iota zeta delta
      [Extended.score Extended.calculateSymmetry Extended.overall
       Extended.potential Extended.masculinity Extended.skin_quality
       Extended.jawline Extended.cheekbones Extended.symmetry
       Extended.golden_ratio Extended.facial_thirds Extended.facial_fifths
       Extended.eye_score Extended.nose_score].
    rewrite H1, H2, H3, H4, H5, H6, H7, H8, H9, H10, H11, H12, H13, H14, H15,
      H16, H17, H18, H19, H20, H21, H22, H23, T1, T2.
    reflexivity.
  - cbv zeta. repeat split; vm_compute; reflexivity.
Qed.

End WhatIsMeasured.

(** ** Left and right, dark and bright *)

Section Mirrors.
Import Exact.
Local Open Scope R_scope.

(** X14. A symmetry sub-score does not tell left from right: exchanging
    the two outer points leaves it unchanged, for all points, finite or
    not. *)
Theorem calculateSymmetry_swap (c l r : Point xreal) :
  Extended.calculateSymmetry c l r = Extended.calculateSymmetry c r l.
Proof.
  unfold Extended.calculateSymmetry.
  generalize (Extended.dist c l) (Extended.dist c r). intros a b.
  assert (Hadd : add a b = add b a).
  { destruct a, b; cbn; try reflexivity. f_equal. ring. }
  assert (Habs : Math_abs (sub a b) = Math_abs (sub b a)).
  { destruct a, b; cbn; try reflexivity. f_equal. apply Rabs_minus_sym. }
  cbv zeta. now rewrite Hadd, Habs.
Qed.

Lemma bad_brightness_mirror b :
  (lt (Fin (250 - b)) (lit 90) || gt (Fin (250 - b)) (lit 160))%bool
  = (lt (Fin b) (lit 90) || gt (Fin b) (lit 160))%bool.
Proof. xeval. rewrite !Q2R_int. rcases; reflexivity. Qed.

(** *** Skin quality as a function of the photo *)

Lemma bright_score_range b : 0 <= Photo.bright_score b <= 100.
Proof. unfold Photo.bright_score. apply spec_clamp_range. lra. Qed.

Lemma normalize_125 : Spec.normalize 125 80 170 = 50.
Proof.
  unfold Spec.normalize.
  replace ((125 - 80) / (170 - 80) * 100) with 50 by field.
  apply spec_clamp_inside. lra.
Qed.

Lemma bright_score_peak : Photo.bright_score 125 = 100.
Proof.
  unfold Photo.bright_score. rewrite normalize_125.
  replace (50 - 50) with 0 by ring. rewrite Rabs_R0.
  replace (100 - 0 * 2) with 100 by ring. apply spec_clamp_inside. lra.
Qed.

Lemma bright_score_outside b : b <= 80 \/ 170 <= b -> Photo.bright_score b = 0.
Proof.
  intros Hout. unfold Photo.bright_score, Spec.normalize.
  destruct Hout as [Hlow|Hhigh].
  - rewrite (spec_clamp_below ((b - 80) / (170 - 80) * 100)); [|nra|lra].
    replace (Rabs (0 - 50)) with 50
      by (unfold Rabs; destruct (Rcase_abs (0 - 50)); lra).
    apply spec_clamp_below; lra.
  - rewrite (spec_clamp_above ((b - 80) / (170 - 80) * 100)); [|nra|lra].
    replace (Rabs (100 - 50)) with 50
      by (unfold Rabs; destruct (Rcase_abs (100 - 50)); lra).
    apply spec_clamp_below; lra.
Qed.

Lemma bright_score_rises b b' :
  b <= b' -> b' <= 125 -> Photo.bright_score b <= Photo.bright_score b'.
Proof.
  intros Hb Hb'. unfold Photo.bright_score. apply spec_clamp_mono.
  pose proof (normalize_mono b b' 80 170 ltac:(lra) Hb) as Hn.
  pose proof (normalize_mono b' 125 80 170 ltac:(lra) Hb') as Hn'.
  rewrite normalize_125 in Hn'.
  unfold Rabs.
  destruct (Rcase_abs (Spec.normalize b 80 170 - 50));
    destruct (Rcase_abs (Spec.normalize b' 80 170 - 50)); lra.
Qed.

Lemma bright_score_falls b b' :
  125 <= b -> b <= b' -> Photo.bright_score b' <= Photo.bright_score b.
Proof.
  intros Hb Hb'. unfold Photo.bright_score. apply spec_clamp_mono.
  pose proof (normalize_mono b b' 80 170 ltac:(lra) Hb') as Hn.
  pose proof (normalize_mono 125 b 80 170 ltac:(lra) Hb) as Hn'.
  rewrite normalize_125 in Hn'.
  unfold Rabs.
  destruct (Rcase_abs (Spec.normalize b 80 170 - 50));
    destruct (Rcase_abs (Spec.normalize b' 80 170 - 50)); lra.
Qed.

(** Skin quality on exact values. *)
Lemma skin_quality_fin (lm : Basic.Landmarks xreal) (s b c : R) :
  Basic.skin_quality
    (Basic.score lm {| sharpness := Fin s; brightness := Fin b;
                       contrast := Fin c |})
  = Fin (IZR (Spec.round_half_up (Photo.skin_score s b c))).
Proof.
  lazy beta iota zeta delta [Basic.score Basic.skin_quality].
  cbn [sharpness brightness contrast].
  change (lit 50) with (Fin (Q2R 50)) at 1. change (lit 250) with (Fin (Q2R 250)).
  change (lit 20) with (Fin (Q2R 20)). change (lit 70) with (Fin (Q2R 70)).
  change (lit 80) with (Fin (Q2R 80)). change (lit 170) with (Fin (Q2R 170)).
  rewrite !basic_norm_cases by (rewrite !Q2R_int; lra).
  rewrite !Q2R_int. xeval. rewrite !Q2R_int.
  unfold Photo.skin_score, Photo.bright_score, Spec.clamp.
  reflexivity.
Qed.

Lemma skin_score_range s b c : 0 <= Photo.skin_score s b c <= 100.
Proof.
  unfold Photo.skin_score.
  pose proof (normalize_range s 50 250). pose proof (normalize_range c 20 70).
  pose proof (bright_score_range b). lra.
Qed.

Lemma skin_score_mono s b c s' b' c' :
  s <= s' -> c <= c' -> Photo.bright_score b <= Photo.bright_score b' ->
  (Spec.round_half_up (Photo.skin_score s b c)
   <= Spec.round_half_up (Photo.skin_score s' b' c'))%Z.
Proof.
  intros Hs Hc Hb. unfold Spec.round_half_up. apply Zfloor_le.
  pose proof (normalize_mono s s' 50 250). pose proof (normalize_mono c c' 20 70).
  unfold Photo.skin_score. lra.
Qed.

(** Two values of skin quality read as integers. *)
Lemma skin_quality_read (lm : Basic.Landmarks xreal) (s b c : R) (z : Z) :
  Basic.skin_quality
    (Basic.score lm {| sharpness := Fin s; brightness := Fin b;
                       contrast := Fin c |}) = Fin (IZR z) ->
  z = Spec.round_half_up (Photo.skin_score s b c).
Proof.
  rewrite skin_quality_fin. intros [= Hz]. symmetry. now apply eq_IZR.
Qed.

(** X15. Brightness is judged by how far it lies from 125. With sharpness
    and contrast fixed, skin quality does not fall as brightness rises to
    125, is highest at 125, does not rise beyond 125, and is lowest from 80
    down and from 170 up; the warnings and the penalty of a photo of
    brightness [b] are those of a photo of brightness [250 - b].  In
    binary64, with sharpness 200 and contrast 50, brightness 80, 100, 125,
    150 and 170 give skin quality 56, 64, 76, 64 and 56. *)
Theorem brightness_is_judged_around_125 :
  (forall (lm : Basic.Landmarks xreal) (s c : R),
      let skin b :=
        Basic.skin_quality
          (Basic.score lm {| sharpness := Fin s; brightness := Fin b;
                             contrast := Fin c |}) in
      (forall b, exists z : Z, skin b = Fin (IZR z)) /\
      (forall b b' z z',
          b <= b' -> b' <= 125 ->
          skin b = Fin (IZR z) -> skin b' = Fin (IZR z') -> (z <= z')%Z) /\
      (forall b b' z z',
          125 <= b -> b <= b' ->
          skin b = Fin (IZR z) -> skin b' = Fin (IZR z') -> (z' <= z)%Z) /\
      (forall b z z',
          skin b = Fin (IZR z) -> skin 125 = Fin (IZR z') -> (z <= z')%Z) /\
      (forall b b' z z',
          b <= 80 \/ 170 <= b ->
          skin b = Fin (IZR z) -> skin b' = Fin (IZR z') -> (z <= z')%Z)) /\
  (forall (sharp contr : xreal) (b : R),
      Basic.photo_checks
        {| sharpness := sharp; brightness := Fin (250 - b); contrast := contr |}
      = Basic.photo_checks
          {| sharpness := sharp; brightness := Fin b; contrast := contr |}) /\
  (let skin b :=
     Basic.skin_quality
       (Basic.score (basic_landmarks (mesh (N := float) turned_face (200, 200)%Z 478))
                    (quality_of 200 b 50)) in
   skin 80%Z = 56%float /\ skin 100%Z = 64%float /\ skin 125%Z = 76%float /\
   skin 150%Z = 64%float /\ skin 170%Z = 56%float).
Proof.
  split; [|split].
  - intros lm s c skin. subst skin. cbv beta.
    split; [|split; [|split; [|split]]].
    + intros b. eexists. apply skin_quality_fin.
    + intros b b' z z' Hb Hb' Hz Hz'.
      apply skin_quality_read in Hz, Hz'. subst z z'.
      apply skin_score_mono; try lra. now apply bright_score_rises.
    + intros b b' z z' Hb Hb' Hz Hz'.
      apply skin_quality_read in Hz, Hz'. subst z z'.
      apply skin_score_mono; try lra. now apply bright_score_falls.
    + intros b z z' Hz Hz'.
      apply skin_quality_read in Hz, Hz'. subst z z'.
      apply skin_score_mono; try lra.
      rewrite bright_score_peak. apply bright_score_range.
    + intros b b' z z' Hout Hz Hz'.
      apply skin_quality_read in Hz, Hz'. subst z z'.
      apply skin_score_mono; try lra.
      rewrite (bright_score_outside b Hout). apply bright_score_range.
  - intros sharp contr b. unfold Basic.photo_checks.
    cbn [sharpness brightness contrast].
    now rewrite bad_brightness_mirror.
  - cbv zeta. repeat split; vm_compute; reflexivity.
Qed.

(** X16. Skin quality depends on the photo alone and is the same in both
    analyses, in any arithmetic.  On exact metrics it is an integer from 0
    to 100 that never decreases when sharpness or contrast increases; it is
    100 for sharpness of 250 or more, contrast of 70 or more and brightness
    125; at most 80 when brightness is 80 or less, or 170 or more; and 0
    when, besides, sharpness is 50 or less and contrast 20 or less.  In
    binary64 the photos (250, 125, 70), (300, 60, 90), (50, 80, 20) and
    (52, 129.5, 35) get 100, 80, 0 and 27. *)
Theorem skin_quality_of_photo :
  (forall (N : Type) (number : Number N) (lm : Extended.Landmarks N)
          (lm' : Basic.Landmarks N) q keypoints,
      Extended.skin_quality (Extended.score lm q keypoints)
      = Basic.skin_quality (Basic.score lm' q)) /\
  (forall (N : Type) (number : Number N) (lm lm' : Basic.Landmarks N) q,
      Basic.skin_quality (Basic.score lm q)
      = Basic.skin_quality (Basic.score lm' q)) /\
  (forall (lm : Basic.Landmarks xreal) (s b c : R),
      let skin s b c :=
        Basic.skin_quality
          (Basic.score lm {| sharpness := Fin s; brightness := Fin b;
                             contrast := Fin c |}) in
      (exists z : Z, skin s b c = Fin (IZR z) /\ (0 <= z <= 100)%Z) /\
      (forall s' c' z z',
          s <= s' -> c <= c' ->
          skin s b c = Fin (IZR z) -> skin s' b c' = Fin (IZR z') ->
          (z <= z')%Z) /\
      (250 <= s -> 70 <= c -> b = 125 -> skin s b c = Fin 100) /\
      (b <= 80 \/ 170 <= b ->
       exists z : Z, skin s b c = Fin (IZR z) /\ (z <= 80)%Z) /\
      (s <= 50 -> c <= 20 -> b <= 80 \/ 170 <= b -> skin s b c = Fin 0)) /\
  (let skin s b c :=
     Basic.skin_quality
       (Basic.score (basic_landmarks (mesh (N := float) turned_face (200, 200)%Z 478))
                    {| sharpness := lit s; brightness := lit b;
                       contrast := lit c |}) in
   (skin 250 125 70 = 100%float /\ skin 300 60 90 = 80%float /\
    skin 50 80 20 = 0%float /\ skin 52 129.5 35 = 27%float)%Q).
Proof.
  split; [reflexivity|]. split; [reflexivity|]. split.
  - intros lm s b c skin. subst skin. cbv beta.
    split; [|split; [|split; [|split]]].
    + eexists. split; [apply skin_quality_fin|].
      apply round_half_up_range, skin_score_range.
    + intros s' c' z z' Hs Hc Hz Hz'.
      apply skin_quality_read in Hz, Hz'. subst z z'.
      apply skin_score_mono; try assumption. lra.
    + intros Hs Hc ->. rewrite skin_quality_fin. do 2 f_equal.
      apply round_half_up_eq. unfold Photo.skin_score.
      rewrite bright_score_peak. unfold Spec.normalize.
      rewrite (spec_clamp_above ((s - 50) / (250 - 50) * 100)) by (try nra; lra).
      rewrite (spec_clamp_above ((c - 20) / (70 - 20) * 100)) by (try nra; lra).
      lra.
    + intros Hout. eexists. split; [apply skin_quality_fin|].
      unfold Photo.skin_score. rewrite (bright_score_outside b Hout).
      pose proof (normalize_range s 50 250). pose proof (normalize_range c 20 70).
      unfold Spec.round_half_up.
      apply Z.lt_succ_r. apply lt_IZR. rewrite succ_IZR.
      pose proof (Zfloor_bound (0.5 * Spec.normalize s 50 250
                                + 0.3 * Spec.normalize c 20 70 + 0.2 * 0 + / 2)).
      lra.
    + intros Hs Hc Hout. rewrite skin_quality_fin. do 2 f_equal.
      apply round_half_up_eq. unfold Photo.skin_score.
      rewrite (bright_score_outside b Hout). unfold Spec.normalize.
      rewrite (spec_clamp_below ((s - 50) / (250 - 50) * 100)) by (try nra; lra).
      rewrite (spec_clamp_below ((c - 20) / (70 - 20) * 100)) by (try nra; lra).
      lra.
  - cbv zeta. repeat split; vm_compute; reflexivity.
Qed.

End Mirrors.

(** ** The golden-ratio score with an ideal of the caller's choice *)

Section GoldenIdeal.
Import Exact.
Local Open Scope R_scope.

Lemma golden_ideal_fin ratio ideal :
  Extended.calculateGoldenRatioScore (Fin ratio) (Some (Fin ideal))
  = Fin (Spec.clamp (1 - Rabs (ratio - ideal) / 0.5) 0 1 * 100).
Proof.
  unfold Extended.calculateGoldenRatioScore. xeval.
  rcases. f_equal. rewrite Q2R_100, Q2R_0.
  unfold Spec.clamp.
  pose proof (Rabs_pos (ratio - ideal)) as Habs.
  replace (Q2R 1) with 1 by (symmetry; apply (Q2R_inject_Z_IZR 1)).
  unfold Rmax, Rmin. rcases.
Qed.

(** X17. [calculateGoldenRatioScore(ratio, idealPhi)] with the optional
    argument given: leaving it out is passing 1.618; for finite arguments
    the score is [clamp(1 - |ratio - idealPhi| / 0.5, 0, 1) * 100], so that
    it depends on the deviation [ratio - idealPhi] only, is the same for a
    ratio as much above the ideal as below it, is 100 exactly at the ideal
    and 0 exactly from a deviation of 0.5 on. *)
Theorem golden_score_around_ideal :
  (forall x : xreal,
      Extended.calculateGoldenRatioScore x None
      = Extended.calculateGoldenRatioScore x (Some (lit 1.618)))
  /\ (forall ratio ideal : R,
         Extended.calculateGoldenRatioScore (Fin ratio) (Some (Fin ideal))
         = Fin (Spec.clamp (1 - Rabs (ratio - ideal) / 0.5) 0 1 * 100))
  /\ (forall ideal d : R,
         Extended.calculateGoldenRatioScore (Fin (ideal + d)) (Some (Fin ideal))
         = Extended.calculateGoldenRatioScore (Fin (ideal - d)) (Some (Fin ideal)))
  /\ (forall ratio ideal : R,
         Extended.calculateGoldenRatioScore (Fin ratio) (Some (Fin ideal)) = Fin 100
         <-> ratio = ideal)
  /\ (forall ratio ideal : R,
         Extended.calculateGoldenRatioScore (Fin ratio) (Some (Fin ideal)) = Fin 0
         <-> 0.5 <= Rabs (ratio - ideal)).
Proof.
  split; [reflexivity|]. split; [exact golden_ideal_fin|].
  split; [|split].
  - intros ideal d. rewrite !golden_ideal_fin. do 4 f_equal.
    replace (ideal + d - ideal) with d by ring.
    replace (ideal - d - ideal) with (- d) by ring.
    now rewrite Rabs_Ropp.
  - intros ratio ideal. rewrite golden_ideal_fin.
    pose proof (Rabs_pos (ratio - ideal)) as Habs.
    unfold Spec.clamp. split.
    + intros [= Hs].
      assert (Hz : Rabs (ratio - ideal) = 0)
        by (revert Hs; unfold Rmax, Rmin; rcases).
      destruct (Req_dec_T (ratio - ideal) 0) as [E|E]; [lra|].
      now apply Rabs_no_R0 in E.
    + intros ->. replace (ideal - ideal) with 0 by lra. rewrite Rabs_R0.
      f_equal. unfold Rmax, Rmin. rcases.
  - intros ratio ideal. rewrite golden_ideal_fin.
    pose proof (Rabs_pos (ratio - ideal)) as Habs.
    unfold Spec.clamp. split.
    + intros [= Hs]. revert Hs. unfold Rmax, Rmin. rcases.
    + intros Hd. f_equal. unfold Rmax, Rmin. rcases.
Qed.

End GoldenIdeal.

(** ** Runs of the overlay and of the moved face *)

Section OverlayRuns.
Import Visualize.
Local Open Scope float_scope.

(** The turned face as a mesh of 478 landmarks, drawn on a canvas of 640 by
    480 pixels. *)
Lemma complete_mesh_is_drawn_witness :
  let landmarks := mesh (N := float) turned_face (200, 200)%Z 478 in
  (466 < length landmarks)%nat /\
  exists t,
    drawAnalysis Math_PI_binary64 (Some landmarks) 640 480 []
    = ([] ++ clearRect (lit 0) (lit 0) 640 480 :: t, Return tt)
    /\ length t = 214%nat
    /\ count Clears t = 0%nat /\ count Begins t = 26%nat
    /\ count Strokes t = 19%nat
    /\ count Fills t = 7%nat /\ count Arcs t = 7%nat /\ count Closes t = 3%nat
    /\ count Moves t = 19%nat /\ count Lines t = 120%nat
    /\ paths_painted false (map kind_of t) = true.
Proof.
  intros landmarks.
  assert (Hlen : (466 < length landmarks)%nat).
  { apply Nat.ltb_lt. vm_compute. reflexivity. }
  exact (conj Hlen
           (complete_mesh_is_drawn Math_PI_binary64 landmarks 640 480 [] Hlen)).
Defined.

Lemma guides_lie_on_scored_landmarks_witness :
  let landmarks := mesh (N := float) turned_face (200, 200)%Z 478 in
  (466 < length landmarks)%nat /\
  let lm := extended_landmarks landmarks in
  let at_x (a : Point float) := (x a, y (Extended.forehead_top lm),
                                 (x a, y (Extended.chin_bottom lm))) in
  let at_y (a : Point float) := (x (Extended.face_left lm), y a,
                                 (x (Extended.face_right lm), y a)) in
  let on (a : Point float) := (x a, y a) in
  let t := fst (drawAnalysis Math_PI_binary64 (Some landmarks) 640 480 []) in
  segments (skipn (length (@nil (call float))) t)
  = [ at_y (Extended.forehead_top lm); at_y (Extended.nose_base lm);
      at_y (keypoint_at landmarks 2); at_y (Extended.chin_bottom lm);
      at_x (Extended.face_left lm); at_x (Extended.eye_right_outer lm);
      at_x (Extended.eye_right_inner lm); at_x (Extended.eye_left_inner lm);
      at_x (Extended.eye_left_outer lm); at_x (Extended.face_right lm);
      (on (Extended.forehead_top lm), on (Extended.chin_bottom lm)) ]
  /\ dots (skipn (length (@nil (call float))) t)
     = [ on (Extended.forehead_top lm); on (Extended.chin_bottom lm);
         on (Extended.nose_tip lm); on (Extended.eye_left_outer lm);
         on (Extended.eye_right_outer lm); on (Extended.mouth_left lm);
         on (Extended.mouth_right lm) ].
Proof.
  intros landmarks.
  assert (Hlen : (466 < length landmarks)%nat).
  { apply Nat.ltb_lt. vm_compute. reflexivity. }
  exact (conj Hlen
           (guides_lie_on_scored_landmarks Math_PI_binary64 landmarks 640 480 []
              Hlen)).
Defined.

(** The same face as a mesh of 460 landmarks: analysed, but not drawn. *)
Lemma analysed_landmarks_may_not_draw_witness :
  let keypoints := mesh (N := float) turned_face (200, 200)%Z 460 in
  let q := quality_of (N := float) 200 120 50 in
  (454 < length keypoints)%nat /\
  exists r,
    Extended.analyzeFace [keypoints] q = Return r
    /\ Extended.landmarks r = keypoints
    /\ snd (drawAnalysis Math_PI_binary64 (Some (Extended.landmarks r)) 640 480 [])
       = (if Nat.ltb 466 (length keypoints) then Return tt else Throw undefined_x).
Proof.
  intros keypoints q.
  assert (Hlen : (454 < length keypoints)%nat).
  { apply Nat.ltb_lt. vm_compute. reflexivity. }
  exact (conj Hlen
           (analysed_landmarks_may_not_draw Math_PI_binary64 keypoints [] q
              640 480 [] Hlen)).
Defined.

End OverlayRuns.

